(** * iNaturalist dataset builders: the consistency filters and the rank collapser

    A shallow embedding of the class [iNaturalistDataset] of
    [dataset_old.py] and [dataset_tax.py], with Python 3 semantics.

    - A dict that the code only indexes ([taxon_id_to_taxon], [ob_id_to_ob],
      [iden_id_to_iden], [taxon_id_to_rank_level]) is a [gmap]; a dict that the
      code iterates or returns (the per-observation and per-user groups, the
      [Counter], the priors) is an insertion-ordered association list
      ([odict]); a Python [set] is a [gset].
    - A method that can raise returns a [result]; a method that cannot is a
      plain function on stores.
    - The records of the five collections are values.  A list element
      rewritten in place by the code is replaced at its position. *)

From Stdlib Require Import ZArith QArith Floats Lia Ascii String.
From stdpp Require Import base option gmap sets list strings.

(** ** Python values *)

(** Entity ids as the JSON and CSV loaders deliver them.  The JSON loader of
    [dataset_old.py] delivers ints and strings.  The CSV loader of
    [dataset_tax.py] leaves the cells of [identifications.csv] strings, and
    turns a cell of [taxonomy.csv] into an int when it is all digits, into a
    float when [float] accepts it, and into [None] when it is empty.

    Ids are dict keys and set elements, compared with [==]: a float with an
    integral value (and a bool) is the key of the int it equals and is
    represented by that [IdInt], so [IdFloat num den] carries the other
    finite floats, as the fraction [num/den] in lowest terms that the float
    is exactly; nan and the infinities are not represented. *)
Inductive pyid : Type :=
  | IdInt (z : Z)
  | IdStr (s : string)
  | IdFloat (num : Z) (den : positive)
  | IdNone.

#[global] Instance pyid_eq_dec : EqDecision pyid.
Proof. solve_decision. Defined.

#[global] Instance pyid_countable : Countable pyid.
Proof.
  refine (inj_countable'
    (λ k, match k with
          | IdInt z => inl z
          | IdStr s => inr (inl s)
          | IdFloat num den => inr (inr (Some (num, den)))
          | IdNone => inr (inr None)
          end)
    (λ x, match x with
          | inl z => IdInt z
          | inr (inl s) => IdStr s
          | inr (inr (Some (num, den))) => IdFloat num den
          | inr (inr None) => IdNone
          end) _).
  by intros [].
Defined.

(** The values of the loosely typed fields ([rank_level], [is_active],
    [current], the [leaf_rank_level] argument).  A float stands for its exact
    rational value; nan and the infinities are not represented. *)
Inductive pyval : Type :=
  | VNone
  | VBool (b : bool)
  | VInt (z : Z)
  | VFloat (q : Q)
  | VStr (s : string).

(** The number a value denotes, for the numeric tower bool <= int <= float. *)
Definition py_num (v : pyval) : option Q :=
  match v with
  | VBool b => Some (inject_Z (if b then 1 else 0))
  | VInt z => Some (inject_Z z)
  | VFloat q => Some q
  | VNone | VStr _ => None
  end.

(** [a == b]: numbers compare by value, strings by content, [None] only
    equals [None]; values of unrelated types are different, never an error. *)
Definition py_eqb (a b : pyval) : bool :=
  match py_num a, py_num b with
  | Some x, Some y => Qeq_bool x y
  | None, None =>
      match a, b with
      | VNone, VNone => true
      | VStr s, VStr t => String.eqb s t
      | _, _ => false
      end
  | _, _ => false
  end.

Inductive exn : Type :=
  | KeyError
  | ValueError
  | TypeError
  | IndexError
  | AssertionError
  | ZeroDivisionError.

#[global] Instance exn_eq_dec : EqDecision exn.
Proof. solve_decision. Defined.

(** The outcome of a call: a value, or the exception that ended it. *)
Inductive result (A : Type) : Type :=
  | Done (a : A)
  | Raise (e : exn).
Arguments Done {A} a.
Arguments Raise {A} e.

#[global] Instance result_ret : MRet result := λ A a, Done a.
#[global] Instance result_bind : MBind result := λ A B f m,
  match m with
  | Done a => f a
  | Raise e => Raise e
  end.

(** [for x in l: acc = f(acc, x)], stopping at the first exception. *)
Fixpoint foldlM {A B : Type} (f : B → A → result B) (acc : B) (l : list A)
    : result B :=
  match l with
  | [] => Done acc
  | x :: l' => acc' ← f acc x; foldlM f acc' l'
  end.

(** [[f(x) for x in l]], stopping at the first exception. *)
Fixpoint mapM_result {A B : Type} (f : A → result B) (l : list A)
    : result (list B) :=
  match l with
  | [] => Done []
  | x :: l' => y ← f x; ys ← mapM_result f l'; Done (y :: ys)
  end.

(** [a < b] and [a >= b]: defined between numbers and between strings, a
    [TypeError] otherwise. *)
Definition py_lt (a b : pyval) : result bool :=
  match py_num a, py_num b with
  | Some x, Some y => Done (negb (Qle_bool y x))
  | None, None =>
      match a, b with
      | VStr s, VStr t => Done (String.ltb s t)
      | _, _ => Raise TypeError
      end
  | _, _ => Raise TypeError
  end.

Definition py_ge (a b : pyval) : result bool :=
  match py_num a, py_num b with
  | Some x, Some y => Done (Qle_bool y x)
  | None, None =>
      match a, b with
      | VStr s, VStr t => Done (String.leb t s)
      | _, _ => Raise TypeError
      end
  | _, _ => Raise TypeError
  end.

(** [l[i]] with Python's negative indices. *)
Definition py_index {A : Type} (l : list A) (i : Z) : result A :=
  let j := if decide (0 ≤ i)%Z then i else (Z.of_nat (length l) + i)%Z in
  if decide (0 ≤ j)%Z
  then match l !! Z.to_nat j with
       | Some x => Done x
       | None => Raise IndexError
       end
  else Raise IndexError.

(** ** Insertion-ordered dicts

    A Python dict keeps its keys in the order of their first insertion. *)

Definition odict (K V : Type) : Type := list (K * V).

Section odict.
Context {K V : Type} `{EqDecision K}.

Fixpoint od_get (k : K) (d : odict K V) : option V :=
  match d with
  | [] => None
  | (k', v) :: d' => if decide (k = k') then Some v else od_get k d'
  end.

(** [d[k] = v]: a known key keeps its place, a new key goes last. *)
Fixpoint od_set (k : K) (v : V) (d : odict K V) : odict K V :=
  match d with
  | [] => [(k, v)]
  | (k', v') :: d' =>
      if decide (k = k') then (k', v) :: d' else (k', v') :: od_set k v d'
  end.

Definition od_keys (d : odict K V) : list K := fst <$> d.
Definition od_values (d : odict K V) : list V := snd <$> d.

End odict.

(** ** Strings: [str.split] and [int] *)

(** [s.split(sep)] for a one-character separator. *)
Fixpoint split_on (sep : ascii) (s : string) : list string :=
  match s with
  | EmptyString => [EmptyString]
  | String c s' =>
      let r := split_on sep s' in
      if decide (c = sep) then EmptyString :: r
      else match r with
           | h :: t => String c h :: t
           | [] => [String c EmptyString]
           end
  end.

(** The ASCII characters that [str.strip] and [int] take for whitespace. *)
Definition is_space (c : ascii) : bool :=
  let n := nat_of_ascii c in
  bool_decide (n = 32 ∨ 9 ≤ n ≤ 13 ∨ 28 ≤ n ≤ 31).

Definition digit_of (c : ascii) : option Z :=
  let n := nat_of_ascii c in
  if decide (48 ≤ n ≤ 57) then Some (Z.of_nat (n - 48)) else None.

Fixpoint lstrip (s : string) : string :=
  match s with
  | String c s' => if is_space c then lstrip s' else s
  | EmptyString => EmptyString
  end.

Fixpoint rstrip (s : string) : string :=
  match s with
  | EmptyString => EmptyString
  | String c s' =>
      match rstrip s' with
      | EmptyString => if is_space c then EmptyString else String c EmptyString
      | r => String c r
      end
  end.

(** Decimal digits, single underscores allowed between two digits. *)
Fixpoint digits_value (acc : Z) (after_digit : bool) (s : string) : option Z :=
  match s with
  | EmptyString => if after_digit then Some acc else None
  | String c s' =>
      match digit_of c with
      | Some d => digits_value (10 * acc + d)%Z true s'
      | None =>
          if decide (c = "_"%char) then
            if after_digit then digits_value acc false s' else None
          else None
      end
  end.

(** [int(s)] on a string: surrounding ASCII whitespace, an optional sign,
    decimal digits; [None] is the [ValueError].  Digits and spaces outside
    ASCII are not recognised. *)
Definition int_of_string (s : string) : option Z :=
  match rstrip (lstrip s) with
  | String "-" s' => Z.opp <$> digits_value 0 false s'
  | String "+" s' => digits_value 0 false s'
  | s' => digits_value 0 false s'
  end.

(** [int(k)] on an id: the int itself, the integer that a string spells
    (a [ValueError] when it spells none), a float truncated towards zero,
    and a [TypeError] on [None]. *)
Definition py_int (k : pyid) : result Z :=
  match k with
  | IdInt z => Done z
  | IdStr s =>
      match int_of_string s with
      | Some z => Done z
      | None => Raise ValueError
      end
  | IdFloat num den => Done (Z.quot num (Z.pos den))
  | IdNone => Raise TypeError
  end.

(** [float(n)] on an int: the nearest double, ties to even.  CPython raises
    an [OverflowError] where this rounds to infinity, from [2**1024 - 2**970]
    on; the ints converted below are counts of list elements, and a list
    holds fewer than [2**63]. *)
Definition py_float_of_int (n : Z) : float :=
  SF2Prim (binary_normalize prec emax n 0 false).

(** ** The five collections *)

Record Observation : Type := mkObservation {
  ob_id : pyid;
  ob_user_id : option pyid;
  ob_community_taxon_id : option pyid;
  ob_created_at : option string
}.

Record ObservationPhoto : Type := mkObservationPhoto {
  photo_observation_id : pyid;
  native_original_image_url : option string
}.

(** [iden_time] is the key ['time'] that
    [keep_one_identification_per_user_per_observation] adds to a record: a
    naive [datetime], represented by its ordinal in microseconds. *)
Record Identification : Type := mkIdentification {
  iden_id : pyid;
  iden_observation_id : pyid;
  iden_user_id : pyid;
  iden_taxon_id : pyid;
  iden_created_at : string;
  iden_current : pyval;
  iden_category : option string;
  iden_taxon_change_id : option pyid;
  iden_time : option Z
}.

Definition set_iden_taxon_id (k : pyid) (i : Identification) : Identification :=
  {| iden_id := iden_id i; iden_observation_id := iden_observation_id i;
     iden_user_id := iden_user_id i; iden_taxon_id := k;
     iden_created_at := iden_created_at i; iden_current := iden_current i;
     iden_category := iden_category i;
     iden_taxon_change_id := iden_taxon_change_id i;
     iden_time := iden_time i |}.

Definition set_iden_time (t : Z) (i : Identification) : Identification :=
  {| iden_id := iden_id i; iden_observation_id := iden_observation_id i;
     iden_user_id := iden_user_id i; iden_taxon_id := iden_taxon_id i;
     iden_created_at := iden_created_at i; iden_current := iden_current i;
     iden_category := iden_category i;
     iden_taxon_change_id := iden_taxon_change_id i;
     iden_time := Some t |}.

(** [a == b] on two identification dicts: the same keys with equal values. *)
Definition iden_eqb (a b : Identification) : bool :=
  bool_decide (iden_id a = iden_id b)
  && bool_decide (iden_observation_id a = iden_observation_id b)
  && bool_decide (iden_user_id a = iden_user_id b)
  && bool_decide (iden_taxon_id a = iden_taxon_id b)
  && bool_decide (iden_created_at a = iden_created_at b)
  && py_eqb (iden_current a) (iden_current b)
  && bool_decide (iden_category a = iden_category b)
  && bool_decide (iden_taxon_change_id a = iden_taxon_change_id b)
  && bool_decide (iden_time a = iden_time b).

(** [l.remove(x)]: drops the first element equal to [x]; a [ValueError] when
    there is none. *)
Fixpoint list_remove (x : Identification) (l : list Identification)
    : result (list Identification) :=
  match l with
  | [] => Raise ValueError
  | y :: l' =>
      if iden_eqb y x then Done l'
      else r ← list_remove x l'; Done (y :: r)
  end.

(** ** The record store

    [T] is the type of taxon records: [Old.Taxon] for [dataset_old.py],
    [Tax.Taxon] for [dataset_tax.py]. *)
Record Store (T : Type) : Type := mkStore {
  observations : list Observation;
  observation_photos : list ObservationPhoto;
  identifications : list Identification;
  taxa : list T;
  users : list pyid;
  taxon_id_to_taxon : gmap pyid T;
  ob_id_to_ob : gmap pyid Observation;
  iden_id_to_iden : gmap pyid Identification
}.
Arguments mkStore {T}.
Arguments observations {T}.
Arguments observation_photos {T}.
Arguments identifications {T}.
Arguments taxa {T}.
Arguments users {T}.
Arguments taxon_id_to_taxon {T}.
Arguments ob_id_to_ob {T}.
Arguments iden_id_to_iden {T}.

(** [{key(x) : x for x in l}]: a later record replaces an earlier one with
    the same id. *)
Definition index_by {A : Type} (key : A → pyid) (l : list A) : gmap pyid A :=
  foldl (λ m x, <[key x := x]> m) ∅ l.

(** The observation list and its index replaced, the identifications cut down
    to those whose observation is indexed, and their index rebuilt: the tail
    shared by the observation filters. *)
Definition replace_observations {T : Type} (obs_to_keep : list Observation)
    (s : Store T) : Store T :=
  let ob_index := index_by ob_id obs_to_keep in
  let idens_to_keep :=
    filter (λ iden, is_Some (ob_index !! iden_observation_id iden))
           (identifications s) in
  {| observations := obs_to_keep;
     observation_photos := observation_photos s;
     identifications := idens_to_keep;
     taxa := taxa s;
     users := users s;
     taxon_id_to_taxon := taxon_id_to_taxon s;
     ob_id_to_ob := ob_index;
     iden_id_to_iden := index_by iden_id idens_to_keep |}.

(** The identification list replaced and its index rebuilt. *)
Definition replace_identifications {T : Type}
    (idens_to_keep : list Identification) (s : Store T) : Store T :=
  {| observations := observations s;
     observation_photos := observation_photos s;
     identifications := idens_to_keep;
     taxa := taxa s;
     users := users s;
     taxon_id_to_taxon := taxon_id_to_taxon s;
     ob_id_to_ob := ob_id_to_ob s;
     iden_id_to_iden := index_by iden_id idens_to_keep |}.

(** [ob_id_to_idens]: one empty group per observation id, then every
    identification appended to the group of its observation; a [KeyError] for
    an identification of an unknown observation. *)
Definition empty_groups (obs : list Observation)
    : odict pyid (list Identification) :=
  foldl (λ d ob, od_set (ob_id ob) [] d) [] obs.

Definition append_to_group (d : odict pyid (list Identification))
    (iden : Identification) : result (odict pyid (list Identification)) :=
  match od_get (iden_observation_id iden) d with
  | Some idens => Done (od_set (iden_observation_id iden) (idens ++ [iden]) d)
  | None => Raise KeyError
  end.

Definition group_by_observation (obs : list Observation)
    (idens : list Identification)
    : result (odict pyid (list Identification)) :=
  foldlM append_to_group (empty_groups obs) idens.

(** [user_id_to_idens], built with [setdefault] and [append]. *)
Definition group_by_user (idens : list Identification)
    : odict pyid (list Identification) :=
  foldl (λ d iden,
           od_set (iden_user_id iden)
                  (default [] (od_get (iden_user_id iden) d) ++ [iden]) d)
        [] idens.

(** [l.sort(key=lambda x: x['time'])]: the sort is stable, so its result is
    the one of a stable insertion sort.  Every record sorted has just been
    given its ['time']. *)
Definition time_of (iden : Identification) : Z := default 0%Z (iden_time iden).

Fixpoint insert_by_time (x : Identification) (l : list Identification)
    : list Identification :=
  match l with
  | [] => [x]
  | y :: l' =>
      if decide (time_of x ≤ time_of y)%Z then x :: y :: l'
      else y :: insert_by_time x l'
  end.

Definition sort_by_time (l : list Identification) : list Identification :=
  foldr insert_by_time [] l.

(** [workers], keyed by user id in the order of first appearance. *)
Definition collect_workers (idens : list Identification) : odict pyid pyid :=
  foldl (λ d iden, match od_get (iden_user_id iden) d with
                   | None => od_set (iden_user_id iden) (iden_user_id iden) d
                   | Some _ => d
                   end)
        [] idens.

(** ** The methods that [dataset_old.py] and [dataset_tax.py] share *)

Section shared_methods.
Context {T : Type}.

(** [datetime.datetime.strptime(string, format)], [None] when it raises. *)
Variable strptime : string → string → option Z.

(** [random.sample(population, k)] for [0 <= k < len(population)]. *)
Variable random_sample : list pyid → nat → list pyid.

Definition keep_specific_observations (observation_ids_to_keep : list pyid)
    (s : Store T) : Store T :=
  let ids : gset pyid := list_to_set observation_ids_to_keep in
  let obs_to_keep := filter (λ ob, ob_id ob ∈ ids) (observations s) in
  replace_observations obs_to_keep s.

(** The [try]/[except] around the two formats. *)
Definition parse_created_at (fmt1 fmt2 : string) (created_at : string)
    : result Z :=
  match strptime created_at fmt1 with
  | Some cat => Done cat
  | None =>
      match strptime created_at fmt2 with
      | Some cat => Done cat
      | None => Raise ValueError
      end
  end.

(** [identification['time'] = cat] *)
Definition stamp (fmt1 fmt2 : string) (iden : Identification)
    : result Identification :=
  cat ← parse_created_at fmt1 fmt2 (iden_created_at iden);
  Done (set_iden_time cat iden).

(** The body of [for user_id in user_id_to_idens]. *)
Definition pick_for_user (fmt1 fmt2 : string) (keep_index : Z)
    (iden_ids_to_keep : gset pyid) (group : pyid * list Identification)
    : result (gset pyid) :=
  user_idens ← mapM_result (stamp fmt1 fmt2) group.2;
  iden ← py_index (sort_by_time user_idens) keep_index;
  Done (iden_ids_to_keep ∪ {[iden_id iden]}).

(** The body of [for ob_id, idens in ob_id_to_idens.items()]. *)
Definition pick_for_observation (fmt1 fmt2 : string) (keep_index : Z)
    (iden_ids_to_keep : gset pyid) (group : pyid * list Identification)
    : result (gset pyid) :=
  foldlM (pick_for_user fmt1 fmt2 keep_index) iden_ids_to_keep
         (group_by_user group.2).

(** The records of [self.identifications] are the objects that the groups
    hold, so in the final filter each carries the ['time'] it was given in its
    group. *)
Definition keep_one_identification_per_user_per_observation
    (fmt1 fmt2 : string) (keep_index : Z) (s : Store T) : result (Store T) :=
  ob_id_to_idens ← group_by_observation (observations s) (identifications s);
  iden_ids_to_keep ←
    foldlM (pick_for_observation fmt1 fmt2 keep_index) ∅ ob_id_to_idens;
  stamped ← mapM_result (stamp fmt1 fmt2) (identifications s);
  let idens_to_keep :=
    filter (λ iden, iden_id iden ∈ iden_ids_to_keep) stamped in
  Done (replace_identifications idens_to_keep s).

(** [iden['current'] == True] *)
Definition is_current (iden : Identification) : bool :=
  py_eqb (iden_current iden) (VBool true).

(** [len(set([iden['user_id'] for iden in idens])) != len(idens)] is the
    failure. *)
Definition users_distinct (idens : list Identification) : bool :=
  bool_decide (size (list_to_set (C := gset pyid) (iden_user_id <$> idens))
               = length idens).

Definition keep_current_identifications (s : Store T) : result (Store T) :=
  let idens_to_keep := filter (λ iden, is_current iden) (identifications s) in
  let s' := replace_identifications idens_to_keep s in
  ob_id_to_idens ← group_by_observation (observations s') (identifications s');
  _ ← foldlM (λ (_ : unit) (group : pyid * list Identification),
                if users_distinct group.2 then Done () else Raise AssertionError)
             () ob_id_to_idens;
  Done s'.

Definition enforce_min_identifications (min_identifications : Z)
    (s : Store T) : result (Store T) :=
  ob_id_to_idens ← group_by_observation (observations s) (identifications s);
  let ob_ids_to_keep : gset pyid :=
    list_to_set
      (fst <$> filter (λ group : pyid * list Identification,
                         (min_identifications ≤ Z.of_nat (length group.2))%Z)
                      ob_id_to_idens) in
  let obs_to_keep :=
    filter (λ ob, ob_id ob ∈ ob_ids_to_keep) (observations s) in
  Done (replace_observations obs_to_keep s).

(** [random.sample] raises a [ValueError] for a negative sample size. *)
Definition enforce_max_observations (max_observations : option Z)
    (s : Store T) : result (Store T) :=
  match max_observations with
  | None => Done s
  | Some m =>
      if decide (Z.of_nat (length (observations s)) ≤ m)%Z then Done s
      else if decide (m < 0)%Z then Raise ValueError
      else
        let ob_ids := ob_id <$> observations s in
        let ob_ids_to_keep := random_sample ob_ids (Z.to_nat m) in
        let obs_to_keep :=
          filter (λ ob, ob_id ob ∈ ob_ids_to_keep) (observations s) in
        Done (replace_observations obs_to_keep s)
  end.

(** The loop of [_sanity_check_data] over [self.identifications], which removes
    from the list it is iterating: the iterator is the index [i], read against
    the current list at every step.  The list never grows, so [length l]
    steps are enough ([fuel] only makes the recursion structural). *)
Fixpoint sanity_scan (taxon_index : gmap pyid T)
    (ob_index : gmap pyid Observation) (fuel i : nat)
    (l : list Identification) : result (list Identification) :=
  match fuel with
  | O => Done l
  | S fuel' =>
      match l !! i with
      | None => Done l
      | Some iden =>
          l1 ← (if decide (is_Some (taxon_index !! iden_taxon_id iden))
                then Done l else list_remove iden l);
          l2 ← (if decide (is_Some (ob_index !! iden_observation_id iden))
                then Done l1 else list_remove iden l1);
          sanity_scan taxon_index ob_index fuel' (S i) l2
      end
  end.

(** The two assertions that end [_sanity_check_data]. *)
Definition ids_unique (ids : list pyid) : bool :=
  bool_decide (length ids = size (list_to_set (C := gset pyid) ids)).

Definition assert_unique_ids (s : Store T) : result (Store T) :=
  if ids_unique (iden_id <$> identifications s) then
    if ids_unique (ob_id <$> observations s) then Done s
    else Raise AssertionError
  else Raise AssertionError.

End shared_methods.

(** ** [dataset_old.py] *)

Module Old.

Record Taxon : Type := mkTaxon {
  taxon_id : pyid;
  ancestry : option string;
  rank_level : pyval;
  is_active : pyval
}.

Definition set_rank_level (r : pyval) (taxon : Taxon) : Taxon :=
  {| taxon_id := taxon_id taxon; ancestry := ancestry taxon;
     rank_level := r; is_active := is_active taxon |}.

Section construction.

(** [float(s)] on a string, [None] when it raises. *)
Variable float_of_string : string → option Q.

(** [float(v)] *)
Definition py_float (v : pyval) : result Q :=
  match v with
  | VNone => Raise TypeError
  | VBool b => Done (inject_Z (if b then 1 else 0))
  | VInt z => Done (inject_Z z)
  | VFloat q => Done q
  | VStr s =>
      match float_of_string s with
      | Some q => Done q
      | None => Raise ValueError
      end
  end.

(** The first loop of [_sanity_check_data]: [self.taxa] with every convertible
    [rank_level] rewritten in place, and [taxa_to_keep]. *)
Fixpoint convert_taxa (obs_taxon_ids : list (option pyid)) (l : list Taxon)
    : list Taxon * list Taxon :=
  match l with
  | [] => ([], [])
  | taxon :: l' =>
      let '(all, taxa_to_keep) := convert_taxa obs_taxon_ids l' in
      match py_float (rank_level taxon) with
      | Done q =>
          let taxon' := set_rank_level (VFloat q) taxon in
          if decide (Some (taxon_id taxon) ∈ obs_taxon_ids)
          then (taxon' :: all, taxon' :: taxa_to_keep)
          else (taxon' :: all, taxa_to_keep)
      | Raise _ => (taxon :: all, taxa_to_keep)
      end
  end.

(** The taxon part of [_sanity_check_data].  When no taxon is dropped the
    index is not rebuilt, but its values are the records of [self.taxa], whose
    [rank_level] the loop has rewritten. *)
Definition check_taxa (s : Store Taxon) : Store Taxon :=
  let obs_taxon_ids := ob_community_taxon_id <$> observations s in
  let '(all, taxa_to_keep) := convert_taxa obs_taxon_ids (taxa s) in
  if decide (length taxa_to_keep ≠ length (taxa s)) then
    let taxon_index := index_by taxon_id taxa_to_keep in
    let idens_to_keep :=
      filter (λ iden, is_Some (taxon_index !! iden_taxon_id iden))
             (identifications s) in
    {| observations := observations s;
       observation_photos := observation_photos s;
       identifications := idens_to_keep;
       taxa := taxa_to_keep;
       users := users s;
       taxon_id_to_taxon := taxon_index;
       ob_id_to_ob := ob_id_to_ob s;
       iden_id_to_iden := index_by iden_id idens_to_keep |}
  else
    {| observations := observations s;
       observation_photos := observation_photos s;
       identifications := identifications s;
       taxa := all;
       users := users s;
       taxon_id_to_taxon :=
         (λ taxon, match py_float (rank_level taxon) with
                   | Done q => set_rank_level (VFloat q) taxon
                   | Raise _ => taxon
                   end) <$> taxon_id_to_taxon s;
       ob_id_to_ob := ob_id_to_ob s;
       iden_id_to_iden := iden_id_to_iden s |}.

(** [iden_id_to_iden] is not rebuilt after the removals. *)
Definition _sanity_check_data (s : Store Taxon) : result (Store Taxon) :=
  let s1 := check_taxa s in
  idens ← sanity_scan (taxon_id_to_taxon s1) (ob_id_to_ob s1)
             (length (identifications s1)) 0 (identifications s1);
  assert_unique_ids
    {| observations := observations s1;
       observation_photos := observation_photos s1;
       identifications := idens;
       taxa := taxa s1;
       users := users s1;
       taxon_id_to_taxon := taxon_id_to_taxon s1;
       ob_id_to_ob := ob_id_to_ob s1;
       iden_id_to_iden := iden_id_to_iden s1 |}.

Definition __init__ (observations : list Observation)
    (observation_photos : list ObservationPhoto)
    (identifications : list Identification) (taxa : list Taxon)
    (users : list pyid) : result (Store Taxon) :=
  _sanity_check_data
    {| observations := observations;
       observation_photos := observation_photos;
       identifications := identifications;
       taxa := taxa;
       users := users;
       taxon_id_to_taxon := index_by taxon_id taxa;
       ob_id_to_ob := index_by ob_id observations;
       iden_id_to_iden := index_by iden_id identifications |}.

End construction.

(** The walk over the reversed ancestry: the first ancestor that is a known
    taxon id with a rank level at or above the leaf level.  [int] raises on a
    component that is not a number. *)
Fixpoint find_higher_ancestor (taxon_id_to_taxon : gmap pyid Taxon)
    (taxon_id_to_rank_level : gmap pyid pyval) (leaf_rank_level : pyval)
    (ancestry_ids : list string) : result (option Taxon) :=
  match ancestry_ids with
  | [] => Done None
  | ancestor_id :: rest =>
      match int_of_string ancestor_id with
      | None => Raise ValueError
      | Some z =>
          match taxon_id_to_rank_level !! IdInt z with
          | Some r =>
              b ← py_ge r leaf_rank_level;
              if b : bool then
                match taxon_id_to_taxon !! IdInt z with
                | Some ancestor => Done (Some ancestor)
                | None => Raise KeyError
                end
              else find_higher_ancestor taxon_id_to_taxon
                     taxon_id_to_rank_level leaf_rank_level rest
          | None => find_higher_ancestor taxon_id_to_taxon
                      taxon_id_to_rank_level leaf_rank_level rest
          end
      end
  end.

(** [taxon_id_to_remapped_taxon], [taxa_ids_at_lower_rank] and
    [taxa_ids_not_remapped]. *)
Record Remapping : Type := mkRemapping {
  taxon_id_to_remapped_taxon : gmap pyid Taxon;
  taxa_ids_at_lower_rank : gset pyid;
  taxa_ids_not_remapped : gset pyid
}.

(** The body of the first [for taxon in self.taxa].  An [ancestry] that is not
    a string makes [ancestry.split] raise, which the [except] catches. *)
Definition remap_taxon (taxon_id_to_taxon : gmap pyid Taxon)
    (taxon_id_to_rank_level : gmap pyid pyval) (leaf_rank_level : pyval)
    (m : Remapping) (taxon : Taxon) : result Remapping :=
  lower ← py_lt (rank_level taxon) leaf_rank_level;
  if lower : bool then
    let at_lower := taxa_ids_at_lower_rank m ∪ {[taxon_id taxon]} in
    match ancestry taxon with
    | None =>
        Done {| taxon_id_to_remapped_taxon := taxon_id_to_remapped_taxon m;
                taxa_ids_at_lower_rank := at_lower;
                taxa_ids_not_remapped :=
                  taxa_ids_not_remapped m ∪ {[taxon_id taxon]} |}
    | Some a =>
        found ← find_higher_ancestor taxon_id_to_taxon taxon_id_to_rank_level
                  leaf_rank_level (reverse (split_on "/" a));
        match found with
        | Some ancestor =>
            Done {| taxon_id_to_remapped_taxon :=
                      <[taxon_id taxon := ancestor]>
                        (taxon_id_to_remapped_taxon m);
                    taxa_ids_at_lower_rank := at_lower;
                    taxa_ids_not_remapped := taxa_ids_not_remapped m |}
        | None =>
            Done {| taxon_id_to_remapped_taxon := taxon_id_to_remapped_taxon m;
                    taxa_ids_at_lower_rank := at_lower;
                    taxa_ids_not_remapped :=
                      taxa_ids_not_remapped m ∪ {[taxon_id taxon]} |}
        end
    end
  else
    Done {| taxon_id_to_remapped_taxon :=
              <[taxon_id taxon := taxon]> (taxon_id_to_remapped_taxon m);
            taxa_ids_at_lower_rank := taxa_ids_at_lower_rank m;
            taxa_ids_not_remapped := taxa_ids_not_remapped m |}.

(** The loop "Remap the identifications": it rewrites [taxon_id] in place and
    removes from the list it is iterating, so the iterator is again the index
    [i] read against the current list. *)
Fixpoint remap_scan (m : Remapping) (taxon_id_to_rank_level : gmap pyid pyval)
    (fuel i : nat) (l : list Identification) : result (list Identification) :=
  match fuel with
  | O => Done l
  | S fuel' =>
      match l !! i with
      | None => Done l
      | Some identification =>
          if decide (iden_taxon_id identification ∈ taxa_ids_at_lower_rank m)
          then
            match taxon_id_to_remapped_taxon m !! iden_taxon_id identification with
            | Some target =>
                remap_scan m taxon_id_to_rank_level fuel' (S i)
                  (<[i := set_iden_taxon_id (taxon_id target) identification]> l)
            | None => Raise KeyError
            end
          else if decide (is_Some (taxon_id_to_rank_level
                                     !! iden_taxon_id identification))
          then remap_scan m taxon_id_to_rank_level fuel' (S i) l
          else
            l' ← list_remove identification l;
            remap_scan m taxon_id_to_rank_level fuel' (S i) l'
      end
  end.

(** The block under [if len(taxa_ids_not_remapped) > 0]: the warning formats
    the leaf level with [%d] and prints [self.taxon_id_to_taxon[taxon_id]] for
    every taxon not remapped, then the taxa and identifications are cut. *)
Definition drop_not_remapped (leaf_rank_level : pyval) (not_remapped : gset pyid)
    (s : Store Taxon) : result (Store Taxon) :=
  if decide (0 < size not_remapped) then
    match py_num leaf_rank_level with
    | None => Raise TypeError
    | Some _ =>
        if decide (Forall (λ k, is_Some (taxon_id_to_taxon s !! k))
                          (elements not_remapped))
        then
          let taxa_to_keep :=
            filter (λ taxon, taxon_id taxon ∉ not_remapped) (taxa s) in
          let idens_to_keep :=
            filter (λ iden, iden_taxon_id iden ∉ not_remapped)
                   (identifications s) in
          Done {| observations := observations s;
                  observation_photos := observation_photos s;
                  identifications := idens_to_keep;
                  taxa := taxa_to_keep;
                  users := users s;
                  taxon_id_to_taxon := index_by taxon_id taxa_to_keep;
                  ob_id_to_ob := ob_id_to_ob s;
                  iden_id_to_iden := iden_id_to_iden s |}
        else Raise KeyError
    end
  else Done s.

(** [iden_id_to_iden] is not rebuilt: it keeps the keys of the identifications
    that were removed.  No method reads its values, and the new [taxon_id] of
    a remapped record is not followed into them here. *)
Definition set_rank_level_as_leaf_level (leaf_rank_level : pyval)
    (s : Store Taxon) : result (Store Taxon) :=
  let taxon_index := index_by taxon_id (taxa s) in
  let taxon_id_to_rank_level := rank_level <$> taxon_index in
  m ← foldlM (remap_taxon taxon_index taxon_id_to_rank_level leaf_rank_level)
        {| taxon_id_to_remapped_taxon := ∅;
           taxa_ids_at_lower_rank := ∅;
           taxa_ids_not_remapped := ∅ |}
        (taxa s);
  s1 ← drop_not_remapped leaf_rank_level (taxa_ids_not_remapped m) s;
  idens ← remap_scan m taxon_id_to_rank_level
             (length (identifications s1)) 0 (identifications s1);
  let taxa_to_keep :=
    filter (λ taxon, taxon_id taxon ∉ taxa_ids_at_lower_rank m) (taxa s1) in
  Done {| observations := observations s1;
          observation_photos := observation_photos s1;
          identifications := idens;
          taxa := taxa_to_keep;
          users := users s1;
          taxon_id_to_taxon := index_by taxon_id taxa_to_keep;
          ob_id_to_ob := ob_id_to_ob s1;
          iden_id_to_iden := iden_id_to_iden s1 |}.

(** The taxon list and its index replaced, the identifications cut down and
    their index rebuilt. *)
Definition replace_taxa (taxa_to_keep : list Taxon)
    (idens_to_keep : list Identification) (s : Store Taxon) : Store Taxon :=
  {| observations := observations s;
     observation_photos := observation_photos s;
     identifications := idens_to_keep;
     taxa := taxa_to_keep;
     users := users s;
     taxon_id_to_taxon := index_by taxon_id taxa_to_keep;
     ob_id_to_ob := ob_id_to_ob s;
     iden_id_to_iden := index_by iden_id idens_to_keep |}.

Definition create_flat_taxonomy (leaf_rank_level : pyval) (s : Store Taxon)
    : Store Taxon :=
  let taxa_to_keep :=
    filter (λ taxon, py_eqb (rank_level taxon) leaf_rank_level) (taxa s) in
  let taxon_index := index_by taxon_id taxa_to_keep in
  let idens_to_keep :=
    filter (λ iden, is_Some (taxon_index !! iden_taxon_id iden))
           (identifications s) in
  replace_taxa taxa_to_keep idens_to_keep s.

(** The default argument of [create_flat_taxonomy] is the string ['10']. *)
Definition default_leaf_rank_level : pyval := VStr "10".

Definition remove_non_active_taxa (s : Store Taxon) : Store Taxon :=
  let non_active_taxa_ids : gset pyid :=
    list_to_set
      (taxon_id <$> filter (λ taxon, negb (py_eqb (is_active taxon) (VBool true)))
                           (taxa s)) in
  let taxa_to_keep :=
    filter (λ taxon, taxon_id taxon ∉ non_active_taxa_ids) (taxa s) in
  let idens_to_keep :=
    filter (λ iden, iden_taxon_id iden ∉ non_active_taxa_ids)
           (identifications s) in
  replace_taxa taxa_to_keep idens_to_keep s.

Definition remove_obs_with_no_photos (s : Store Taxon) : Store Taxon :=
  let ob_ids_with_urls : gset pyid :=
    list_to_set (photo_observation_id <$> observation_photos s) in
  let obs_to_keep :=
    filter (λ ob, ob_id ob ∈ ob_ids_with_urls) (observations s) in
  replace_observations obs_to_keep s.

(** [Counter(l)]: the keys in the order of their first occurrence. *)
Definition Counter (l : list pyid) : odict pyid Z :=
  foldl (λ d k, od_set k (default 0 (od_get k d) + 1)%Z d) [] l.

(** The body of [for iden in self.identifications] in
    [estimate_taxa_priors]. *)
Definition community_label (ob_index : gmap pyid Observation)
    (taxon_id_working_set : gset pyid) (community_taxon_ids : list pyid)
    (iden : Identification) : result (list pyid) :=
  match ob_index !! iden_observation_id iden with
  | None => Raise KeyError
  | Some ob =>
      match ob_community_taxon_id ob with
      | Some cid =>
          if decide (cid ∈ taxon_id_working_set)
          then Done (community_taxon_ids ++ [cid])
          else Done community_taxon_ids
      | None => Done community_taxon_ids
      end
  end.

(** "fill in any missing taxa", in the iteration order of the set. *)
Definition fill_missing (taxon_id_working_set : gset pyid)
    (taxon_counts : odict pyid Z) : odict pyid Z :=
  foldl (λ d k, match od_get k d with
                | None => od_set k 1%Z d
                | Some _ => d
                end)
        taxon_counts (elements taxon_id_working_set).

(** [c / float(total)]: the int [c] is converted to a double and the two
    doubles are divided, with one rounding.  [float(total)] is [0.0] exactly
    when [total] is [0], and then the division raises. *)
Definition py_truediv (c total : Z) : result float :=
  if decide (total = 0%Z) then Raise ZeroDivisionError
  else Done (py_float_of_int c / py_float_of_int total)%float.

Definition estimate_taxa_priors (include_taxa_ids : option (list pyid))
    (s : Store Taxon) : result (odict pyid float) :=
  let from_idens : gset pyid :=
    list_to_set (iden_taxon_id <$> identifications s) in
  let taxon_id_working_set : gset pyid :=
    match include_taxa_ids with
    | Some ids => from_idens ∪ list_to_set ids
    | None => from_idens
    end in
  community_taxon_ids ←
    foldlM (community_label (ob_id_to_ob s) taxon_id_working_set) []
           (identifications s);
  let taxon_counts :=
    fill_missing taxon_id_working_set (Counter community_taxon_ids) in
  let total := foldr Z.add 0%Z (od_values taxon_counts) in
  mapM_result (λ item : pyid * Z,
                 p ← py_truediv item.2 total; Done (item.1, p))
              taxon_counts.

(** The interchange structure. *)
Record DatasetInfo : Type := mkDatasetInfo {
  num_classes : nat;
  inat_taxon_id_to_class_label : odict pyid nat;
  global_class_priors : list float
}.

Record Image : Type := mkImage {
  image_id : pyid;
  image_created_at : option string;
  image_url : option string;
  image_urls : list (option string)
}.

Record Anno : Type := mkAnno {
  anno_label : nat;
  anno_image_id : pyid;
  anno_worker_id : pyid;
  anno_created_at : string;
  anno_id : pyid
}.

Record Dataset : Type := mkDataset {
  dataset : DatasetInfo;
  workers : odict pyid pyid;
  images : odict pyid Image;
  annos : list Anno
}.

(** [{taxon_id : label for label, taxon_id in enumerate(leaf_taxa_priors)}] *)
Definition enumerate_labels (leaf_taxa_priors : odict pyid float)
    : odict pyid nat :=
  foldl (λ d item, od_set item.2 item.1 d) []
        (imap (λ label taxon_id, (label, taxon_id)) (od_keys leaf_taxa_priors)).

Definition collect_urls (obs : list Observation)
    (photos : list ObservationPhoto) : odict pyid (list (option string)) :=
  foldl (λ d ob_image,
           match od_get (photo_observation_id ob_image) d with
           | Some urls =>
               od_set (photo_observation_id ob_image)
                      (urls ++ [native_original_image_url ob_image]) d
           | None => d
           end)
        (foldl (λ d ob, od_set (ob_id ob) [] d) [] obs) photos.

(** [ob_id_to_urls[ob['id']][0]] raises an [IndexError] for an observation
    without a photo. *)
Definition add_image (ob_id_to_urls : odict pyid (list (option string)))
    (d : odict pyid Image) (ob : Observation) : result (odict pyid Image) :=
  match od_get (ob_id ob) ob_id_to_urls with
  | None => Raise KeyError
  | Some urls =>
      match urls with
      | [] => Raise IndexError
      | url :: _ =>
          Done (od_set (ob_id ob)
                  {| image_id := ob_id ob;
                     image_created_at := ob_created_at ob;
                     image_url := url;
                     image_urls := urls |} d)
      end
  end.

(** The [assert False] for an identification whose taxon has no label. *)
Definition add_anno (taxon_id_to_class_label : odict pyid nat)
    (acc : list Anno) (iden : Identification) : result (list Anno) :=
  match od_get (iden_taxon_id iden) taxon_id_to_class_label with
  | None => Raise AssertionError
  | Some worker_label =>
      Done (acc ++ [{| anno_label := worker_label;
                       anno_image_id := iden_observation_id iden;
                       anno_worker_id := iden_user_id iden;
                       anno_created_at := iden_created_at iden;
                       anno_id := iden_id iden |}])
  end.

Definition create_dataset (leaf_taxa_priors : odict pyid float) (s : Store Taxon)
    : result Dataset :=
  let taxon_id_to_class_label := enumerate_labels leaf_taxa_priors in
  let info :=
    {| num_classes := length taxon_id_to_class_label;
       inat_taxon_id_to_class_label := taxon_id_to_class_label;
       global_class_priors := od_values leaf_taxa_priors |} in
  let workers := collect_workers (identifications s) in
  let ob_id_to_urls := collect_urls (observations s) (observation_photos s) in
  images ← foldlM (add_image ob_id_to_urls) [] (observations s);
  annos ← foldlM (add_anno taxon_id_to_class_label) [] (identifications s);
  Done {| dataset := info; workers := workers; images := images;
          annos := annos |}.

End Old.

(** ** [dataset_tax.py] *)

Module Tax.

(** A row of [taxonomy.csv]. *)
Record Taxon : Type := mkTaxon {
  parent : option string;
  key : option string;
  taxon_id : pyid;
  prob : pyval;
  leaf : pyval
}.

Definition _sanity_check_data (s : Store Taxon) : result (Store Taxon) :=
  idens ← sanity_scan (taxon_id_to_taxon s) (ob_id_to_ob s)
             (length (identifications s)) 0 (identifications s);
  assert_unique_ids
    {| observations := observations s;
       observation_photos := observation_photos s;
       identifications := idens;
       taxa := taxa s;
       users := users s;
       taxon_id_to_taxon := taxon_id_to_taxon s;
       ob_id_to_ob := ob_id_to_ob s;
       iden_id_to_iden := iden_id_to_iden s |}.

Definition __init__ (observations : list Observation)
    (observation_photos : list ObservationPhoto)
    (identifications : list Identification) (taxa : list Taxon)
    (users : list pyid) : result (Store Taxon) :=
  _sanity_check_data
    {| observations := observations;
       observation_photos := observation_photos;
       identifications := identifications;
       taxa := taxa;
       users := users;
       taxon_id_to_taxon := index_by taxon_id taxa;
       ob_id_to_ob := index_by ob_id observations;
       iden_id_to_iden := index_by iden_id identifications |}.

Record TaxonomyItem : Type := mkTaxonomyItem {
  item_parent : option string;
  item_key : option string;
  item_prob : pyval
}.

(** Here [global_class_priors] is the priors mapping itself and the labels
    are the [key] column of the taxonomy. *)
Record DatasetInfo : Type := mkDatasetInfo {
  num_classes : nat;
  inat_taxon_id_to_class_label : odict Z (option string);
  global_class_priors : odict pyid float;
  taxonomy_data : list TaxonomyItem
}.

Record Image : Type := mkImage {
  image_id : pyid
}.

Record Anno : Type := mkAnno {
  anno_label : string;
  anno_image_id : pyid;
  anno_worker_id : pyid;
  anno_created_at : string;
  anno_id : pyid
}.

Record Dataset : Type := mkDataset {
  dataset : DatasetInfo;
  workers : odict pyid pyid;
  images : odict pyid Image;
  annos : list Anno
}.

(** [taxon_id_to_class_label[int(d['taxon_id'])] = d['key']] *)
Definition add_label (d : odict Z (option string)) (taxon : Taxon)
    : result (odict Z (option string)) :=
  z ← py_int (taxon_id taxon); Done (od_set z (key taxon) d).

(** [str(worker_label)] *)
Definition py_str (label : option string) : string :=
  match label with
  | Some s => s
  | None => "None"
  end.

Definition add_anno (taxon_id_to_class_label : odict Z (option string))
    (acc : list Anno) (iden : Identification) : result (list Anno) :=
  z ← py_int (iden_taxon_id iden);
  match od_get z taxon_id_to_class_label with
  | None => Raise AssertionError
  | Some worker_label =>
      Done (acc ++ [{| anno_label := py_str worker_label;
                       anno_image_id := iden_observation_id iden;
                       anno_worker_id := iden_user_id iden;
                       anno_created_at := iden_created_at iden;
                       anno_id := iden_id iden |}])
  end.

Definition create_dataset (leaf_taxa_priors : odict pyid float) (s : Store Taxon)
    : result Dataset :=
  taxon_id_to_class_label ← foldlM add_label [] (taxa s);
  let taxonomy :=
    (λ item, {| item_parent := parent item; item_key := key item;
                item_prob := prob item |}) <$> taxa s in
  let info :=
    {| num_classes := length leaf_taxa_priors;
       inat_taxon_id_to_class_label := taxon_id_to_class_label;
       global_class_priors := leaf_taxa_priors;
       taxonomy_data := taxonomy |} in
  let workers := collect_workers (identifications s) in
  let images :=
    foldl (λ d ob, od_set (ob_id ob) {| image_id := ob_id ob |} d) []
          (observations s) in
  annos ← foldlM (add_anno taxon_id_to_class_label) [] (identifications s);
  Done {| dataset := info; workers := workers; images := images;
          annos := annos |}.

End Tax.

(** ** The pipeline of [dataset_old.py] *)

Module Pipeline.

Definition first_format : string := "%Y-%m-%dT%H:%M:%S.%fZ".
Definition second_format : string := "%Y-%m-%d %H:%M:%S".

(** The nine mutating operations a caller can apply to a store. *)
Inductive operation : Type :=
  | KeepSpecificObservations (observation_ids_to_keep : list pyid)
  | KeepOneIdentificationPerUserPerObservation (keep_index : Z)
  | KeepCurrentIdentifications
  | RemoveObsWithNoPhotos
  | RemoveNonActiveTaxa
  | EnforceMinIdentifications (min_identifications : Z)
  | EnforceMaxObservations (max_observations : option Z)
  | SetRankLevelAsLeafLevel (leaf_rank_level : pyval)
  | CreateFlatTaxonomy (leaf_rank_level : pyval).

Definition run (strptime : string → string → option Z)
    (random_sample : list pyid → nat → list pyid) (op : operation)
    (s : Store Old.Taxon) : result (Store Old.Taxon) :=
  match op with
  | KeepSpecificObservations ids => Done (keep_specific_observations ids s)
  | KeepOneIdentificationPerUserPerObservation keep_index =>
      keep_one_identification_per_user_per_observation strptime
        first_format second_format keep_index s
  | KeepCurrentIdentifications => keep_current_identifications s
  | RemoveObsWithNoPhotos => Done (Old.remove_obs_with_no_photos s)
  | RemoveNonActiveTaxa => Done (Old.remove_non_active_taxa s)
  | EnforceMinIdentifications n => enforce_min_identifications n s
  | EnforceMaxObservations n => enforce_max_observations random_sample n s
  | SetRankLevelAsLeafLevel r => Old.set_rank_level_as_leaf_level r s
  | CreateFlatTaxonomy r => Done (Old.create_flat_taxonomy r s)
  end.

End Pipeline.

(** ** The properties of a store *)

(** Every identification's [observation_id] is the id of an observation of the
    store, and its [taxon_id] the id of a taxon of the store. *)
Definition referential_integrity {T : Type} (taxon_key : T → pyid)
    (s : Store T) : Prop :=
  ∀ iden, iden ∈ identifications s →
    iden_observation_id iden ∈ (ob_id <$> observations s)
    ∧ iden_taxon_id iden ∈ (taxon_key <$> taxa s).

(** Every photo's [observation_id] is the id of an observation of the store. *)
Definition photos_resolve {T : Type} (s : Store T) : Prop :=
  ∀ photo, photo ∈ observation_photos s →
    photo_observation_id photo ∈ (ob_id <$> observations s).

(** ** Auxiliary notions for the proofs *)

(** The dict that maps every key of [ks] to [g k], in the order of [ks]. *)
Definition od_table {K V : Type} (ks : list K) (g : K → V) : odict K V :=
  (λ k, (k, g k)) <$> ks.

(** The elements of a list in the order of their first occurrence. *)
Definition add_new (acc : list pyid) (k : pyid) : list pyid :=
  if decide (k ∈ acc) then acc else acc ++ [k].

Definition first_occurrences (l : list pyid) : list pyid :=
  foldl add_new [] l.

(** The identifications of one observation, in list order. *)
Definition idens_of_observation (k : pyid) (idens : list Identification)
    : list Identification :=
  filter (λ iden, iden_observation_id iden = k) idens.

(** A taxon whose [rank_level] is a float. *)
Definition has_float_rank (taxon : Old.Taxon) : Prop :=
  ∃ q, Old.rank_level taxon = VFloat q.

(** What the remap loop does to one identification when it removes
    nothing: the [taxon_id] of a taxon below the leaf level becomes the id of
    its remap target. *)
Definition remap_identification (m : Old.Remapping) (iden : Identification)
    : Identification :=
  if decide (iden_taxon_id iden ∈ Old.taxa_ids_at_lower_rank m) then
    match Old.taxon_id_to_remapped_taxon m !! iden_taxon_id iden with
    | Some target => set_iden_taxon_id (Old.taxon_id target) iden
    | None => iden
    end
  else iden.

(** An identification that the remap loop neither fails on nor removes. *)
Definition remappable (m : Old.Remapping) (ranks : gmap pyid pyval)
    (iden : Identification) : Prop :=
  if decide (iden_taxon_id iden ∈ Old.taxa_ids_at_lower_rank m)
  then is_Some (Old.taxon_id_to_remapped_taxon m !! iden_taxon_id iden)
  else is_Some (ranks !! iden_taxon_id iden).

(** What the first loop has computed after the taxa [pre]. *)
Definition remapping_invariant (txs : list Old.Taxon) (leaf : pyval)
    (pre : list Old.Taxon) (m : Old.Remapping) : Prop :=
  (∀ k, k ∈ Old.taxa_ids_at_lower_rank m ↔
        ∃ taxon, taxon ∈ pre ∧ Old.taxon_id taxon = k
                 ∧ py_lt (Old.rank_level taxon) leaf = Done true)
  ∧ Old.taxa_ids_not_remapped m ⊆ Old.taxa_ids_at_lower_rank m
  ∧ (∀ k, k ∈ Old.taxa_ids_at_lower_rank m →
          k ∉ Old.taxa_ids_not_remapped m →
          is_Some (Old.taxon_id_to_remapped_taxon m !! k))
  ∧ (∀ k target, Old.taxon_id_to_remapped_taxon m !! k = Some target →
          target ∈ txs ∧ py_lt (Old.rank_level target) leaf = Done false).

(** The identifications of one user among [idens], in list order. *)
Definition idens_of_user (u : pyid) (idens : list Identification)
    : list Identification :=
  filter (λ iden, iden_user_id iden = u) idens.

(** Two identifications of the same observation by the same user. *)
Definition same_group (a b : Identification) : Prop :=
  iden_observation_id a = iden_observation_id b
  ∧ iden_user_id a = iden_user_id b.

(** The ids that the body of [for user_id in user_id_to_idens] adds for one
    user group. *)
Definition winner_set (strptime : string → string → option Z)
    (fmt1 fmt2 : string) (keep_index : Z) (group : pyid * list Identification)
    : result (gset pyid) :=
  user_idens ← mapM_result (stamp strptime fmt1 fmt2) group.2;
  iden ← py_index (sort_by_time user_idens) keep_index;
  Done {[iden_id iden]}.

(** The ids added for one observation group. *)
Definition winners_of_observation (strptime : string → string → option Z)
    (fmt1 fmt2 : string) (keep_index : Z) (group : pyid * list Identification)
    : result (gset pyid) :=
  Ys ← mapM_result (winner_set strptime fmt1 fmt2 keep_index)
                   (group_by_user group.2);
  Done (⋃ Ys).

(** [stamp] as a total function, for records whose [created_at] parses. *)
Definition stamp_total (strptime : string → string → option Z)
    (fmt1 fmt2 : string) (iden : Identification) : Identification :=
  match parse_created_at strptime fmt1 fmt2 (iden_created_at iden) with
  | Done cat => set_iden_time cat iden
  | Raise _ => iden
  end.

(** The identifications of the observation and user of [j]. *)
Definition group_of (j : Identification) (idens : list Identification)
    : list Identification :=
  idens_of_user (iden_user_id j)
                (idens_of_observation (iden_observation_id j) idens).

(** The community label that [estimate_taxa_priors] reads for an
    identification: the [community_taxon_id] of its observation. *)
Definition community_label_of (s : Store Old.Taxon) (iden : Identification)
    : option pyid :=
  ob ← ob_id_to_ob s !! iden_observation_id iden; ob_community_taxon_id ob.

(** The number of identifications whose community label is [k]. *)
Definition community_count (s : Store Old.Taxon) (k : pyid) : Z :=
  Z.of_nat (length (filter (λ iden, community_label_of s iden = Some k)
                           (identifications s))).

(** The count after "fill in any missing taxa". *)
Definition smoothed_count (s : Store Old.Taxon) (k : pyid) : Z :=
  if decide (community_count s k = 0%Z) then 1%Z else community_count s k.

(** The working set of [estimate_taxa_priors]. *)
Definition working_set (include_taxa_ids : option (list pyid))
    (s : Store Old.Taxon) : gset pyid :=
  match include_taxa_ids with
  | Some ids => list_to_set (iden_taxon_id <$> identifications s) ∪ list_to_set ids
  | None => list_to_set (iden_taxon_id <$> identifications s)
  end.

Definition sum_Z (l : list Z) : Z := foldr Z.add 0%Z l.
Definition sum_Q (l : list Q) : Q := foldr Qplus 0%Q l.

(** The number that a finite double is. *)
Definition float_value (f : float) : option Q :=
  match Prim2SF f with
  | S754_zero _ => Some 0%Q
  | S754_finite sign m e =>
      Some (inject_Z (if sign then Z.neg m else Z.pos m) * 2 ^ e)%Q
  | S754_infinity _ | S754_nan => None
  end.

(** The sum of the numbers that the doubles of a list are, without
    rounding. *)
Definition exact_sum (l : list float) : option Q :=
  sum_Q <$> mapM float_value l.

(** [acc = 0.0; for p in l: acc = acc + p], each addition rounded. *)
Definition sum_float (l : list float) : float := foldl PrimFloat.add 0%float l.

(** A number as the loader delivers it, and as the sanity pass leaves it. *)
Definition as_int (z : Z) : pyval := VInt z.
Definition as_float (z : Z) : pyval := VFloat (inject_Z z).

(** The three-level taxonomy: species 3 under genus 2 under family 1. *)
Definition three_levels (num : Z → pyval) (t3 t2 t1 : Old.Taxon) : Prop :=
  Old.taxon_id t3 = IdInt 3 ∧ Old.rank_level t3 = num 10%Z
  ∧ Old.ancestry t3 = Some "1/2"
  ∧ Old.taxon_id t2 = IdInt 2 ∧ Old.rank_level t2 = num 20%Z
  ∧ Old.ancestry t2 = Some "1"
  ∧ Old.taxon_id t1 = IdInt 1 ∧ Old.rank_level t1 = num 30%Z.

(** The rewrite of the collapse to rank 20 on that taxonomy. *)
Definition species_to_genus (iden : Identification) : Identification :=
  if decide (iden_taxon_id iden = IdInt 3)
  then set_iden_taxon_id (IdInt 2) iden else iden.

(** ** Concrete stores *)

Module Examples.
#[local] Open Scope Z_scope.

(** [strptime] and [float] for strings of decimal digits. *)
Definition strptime (created_at fmt : string) : option Z :=
  int_of_string created_at.
Definition float_of_string (s : string) : option Q :=
  inject_Z <$> int_of_string s.

(** [random.sample] that takes the first [k] elements. *)
Definition random_sample (population : list pyid) (k : nat) : list pyid :=
  take k population.

Definition observation (id : Z) (community_taxon_id : option Z) : Observation :=
  {| ob_id := IdInt id; ob_user_id := None;
     ob_community_taxon_id := IdInt <$> community_taxon_id;
     ob_created_at := None |}.

Definition photo (observation_id : Z) : ObservationPhoto :=
  {| photo_observation_id := IdInt observation_id;
     native_original_image_url := Some "http://static.inaturalist.org/photos/1/original.jpg" |}.

Definition identification (id observation_id user_id taxon_id : Z)
    (created_at : string) (current : bool) : Identification :=
  {| iden_id := IdInt id; iden_observation_id := IdInt observation_id;
     iden_user_id := IdInt user_id; iden_taxon_id := IdInt taxon_id;
     iden_created_at := created_at; iden_current := VBool current;
     iden_category := None; iden_taxon_change_id := None;
     iden_time := None |}.

Definition taxon (id : Z) (ancestry : string) (rank_level : Z) : Old.Taxon :=
  {| Old.taxon_id := IdInt id; Old.ancestry := Some ancestry;
     Old.rank_level := VInt rank_level; Old.is_active := VBool true |}.

Definition tax_taxon (taxon_id : Z) (key : string) : Tax.Taxon :=
  {| Tax.parent := None; Tax.key := Some key; Tax.taxon_id := IdInt taxon_id;
     Tax.prob := VFloat 1; Tax.leaf := VInt 1 |}.

(** A store with its three index maps built from the lists. *)
Definition store {T : Type} (taxon_key : T → pyid) (obs : list Observation)
    (photos : list ObservationPhoto) (idens : list Identification)
    (taxa : list T) : Store T :=
  {| observations := obs; observation_photos := photos;
     identifications := idens; taxa := taxa; users := [];
     taxon_id_to_taxon := index_by taxon_key taxa;
     ob_id_to_ob := index_by ob_id obs;
     iden_id_to_iden := index_by iden_id idens |}.

(** One observation with a photo and two identifications. *)
Definition small : Store Old.Taxon :=
  store Old.taxon_id [observation 1 (Some 10)] [photo 1]
    [identification 1 1 1 10 "100" true; identification 2 1 2 10 "200" true]
    [taxon 10 "1" 10].

(** Two identifications of observations that do not exist, next to each
    other. *)
Definition dangling_pair : list Identification :=
  [identification 1 99 1 10 "100" true; identification 2 98 1 10 "200" true].

(** Two taxa share the id 5: one below rank 20 with the ancestor 1, one at
    rank 30. *)
Definition duplicate_taxon_ids : Store Old.Taxon :=
  store Old.taxon_id [observation 1 None] []
    [identification 1 1 1 5 "100" true]
    [taxon 5 "1" 10; taxon 5 "" 30; taxon 1 "" 30].

(** An identification of a taxon that the store does not hold. *)
Definition dangling_taxon : Store Old.Taxon :=
  store Old.taxon_id [observation 1 None] []
    [identification 1 1 1 99 "100" true] [].

(** Species 3 under genus 2 under family 1, with one identification each. *)
Definition three_level : Store Old.Taxon :=
  store Old.taxon_id [observation 1 None] []
    [identification 1 1 1 3 "100" true; identification 2 1 2 2 "200" true;
     identification 3 1 3 1 "300" true]
    [taxon 3 "1/2" 10; taxon 2 "1" 20; taxon 1 "" 30].

(** A dangling identification followed by an identification of the species. *)
Definition three_level_dangling : Store Old.Taxon :=
  store Old.taxon_id [observation 1 None] []
    [identification 1 1 1 99 "100" true; identification 2 1 2 3 "200" true]
    [taxon 3 "1/2" 10; taxon 2 "1" 20; taxon 1 "" 30].

Definition empty : Store Old.Taxon := store Old.taxon_id [] [] [] [].

(** Three identifications of an observation with community taxon 11, one of
    an observation with community taxon 12; taxon 13 is only in the extra
    set. *)
Definition priors_example : Store Old.Taxon :=
  store Old.taxon_id [observation 1 (Some 11); observation 2 (Some 12)] []
    [identification 1 1 1 11 "100" true; identification 2 1 2 11 "200" true;
     identification 3 1 3 12 "300" true; identification 4 2 1 12 "400" true]
    [taxon 11 "" 10; taxon 12 "" 10; taxon 13 "" 10].

(** Two current identifications of observation 1 by user 7, at times
    100 < 200. *)
Definition same_user_twice : Store Old.Taxon :=
  store Old.taxon_id [observation 1 (Some 10)] [photo 1]
    [identification 1 1 7 10 "100" true; identification 2 1 7 10 "200" true]
    [taxon 10 "1" 10].

(** A taxonomy row with taxon id 5 and key 9. *)
Definition tax_store : Store Tax.Taxon :=
  store Tax.taxon_id [] [] [] [tax_taxon 5 "9"].

End Examples.

(** ** Further auxiliary notions *)

(** An identification without the two keys that the methods rewrite,
    [taxon_id] and [time]. *)
Definition iden_fixed_part (iden : Identification)
    : pyid * pyid * pyid * string * pyval * option string * option pyid :=
  (iden_id iden, iden_observation_id iden, iden_user_id iden,
   iden_created_at iden, iden_current iden, iden_category iden,
   iden_taxon_change_id iden).

(** The elements at the positions 1, 3, 5, ... of a list. *)
Fixpoint odd_positions {A : Type} (l : list A) : list A :=
  match l with
  | _ :: y :: l' => y :: odd_positions l'
  | _ => []
  end.

(** The urls of the photos of one observation, in list order. *)
Definition urls_of_observation (k : pyid) (photos : list ObservationPhoto)
    : list (option string) :=
  native_original_image_url
    <$> filter (λ photo, photo_observation_id photo = k) photos.

(** The annotation that [create_dataset] of [dataset_old.py] appends for an
    identification whose taxon has the label [label]. *)
Definition anno_of (label : nat) (iden : Identification) : Old.Anno :=
  {| Old.anno_label := label;
     Old.anno_image_id := iden_observation_id iden;
     Old.anno_worker_id := iden_user_id iden;
     Old.anno_created_at := iden_created_at iden;
     Old.anno_id := iden_id iden |}.

(** ** Further example stores *)

Module Cases.
#[local] Open Scope Z_scope.

(** A taxon as the constructor of [dataset_old.py] leaves it: the
    [rank_level] is a float. *)
Definition float_taxon (id : Z) (ancestry : option string) (rank_level : Z)
    : Old.Taxon :=
  {| Old.taxon_id := IdInt id; Old.ancestry := ancestry;
     Old.rank_level := VFloat (inject_Z rank_level);
     Old.is_active := VBool true |}.

(** Four identifications of observation 1, all of the unknown taxon 99. *)
Definition four_unknown : list Identification :=
  [Examples.identification 1 1 1 99 "100" true;
   Examples.identification 2 1 2 99 "200" true;
   Examples.identification 3 1 3 99 "300" true;
   Examples.identification 4 1 4 99 "400" true].

(** Observation 1 has two identifications and a photo, observation 2 has one
    identification and no photo, observation 3 has neither. *)
Definition three_observations : Store Old.Taxon :=
  Examples.store Old.taxon_id
    [Examples.observation 1 (Some 10); Examples.observation 2 (Some 10);
     Examples.observation 3 None]
    [Examples.photo 1]
    [Examples.identification 1 1 1 10 "100" true;
     Examples.identification 2 1 2 10 "200" true;
     Examples.identification 3 2 1 10 "300" true]
    [float_taxon 10 None 10].

(** An identification of observation 9, which the store does not hold. *)
Definition unknown_observation : Store Old.Taxon :=
  Examples.store Old.taxon_id [Examples.observation 1 None] []
    [Examples.identification 1 9 1 10 "100" true] [float_taxon 10 None 10].

(** Species 3 under genus 2, with float rank levels and one identification
    each. *)
Definition two_level : Store Old.Taxon :=
  Examples.store Old.taxon_id [Examples.observation 1 None] []
    [Examples.identification 1 1 1 3 "100" true;
     Examples.identification 2 1 2 2 "200" true]
    [float_taxon 3 (Some "2") 10; float_taxon 2 None 20].

(** A species whose ancestry is the empty string. *)
Definition empty_ancestry : Store Old.Taxon :=
  Examples.store Old.taxon_id [] [] [] [float_taxon 3 (Some "") 10].

(** User 7 identifies observation 1 three times, at 300, 100 and 200. *)
Definition three_by_one_user : Store Old.Taxon :=
  Examples.store Old.taxon_id [Examples.observation 1 (Some 10)]
    [Examples.photo 1]
    [Examples.identification 1 1 7 10 "300" true;
     Examples.identification 2 1 7 10 "100" true;
     Examples.identification 3 1 7 10 "200" true]
    [float_taxon 10 None 10].

(** The [created_at] of the second identification is no number. *)
Definition unparsed_created_at : Store Old.Taxon :=
  Examples.store Old.taxon_id [Examples.observation 1 (Some 10)]
    [Examples.photo 1]
    [Examples.identification 1 1 7 10 "100" true;
     Examples.identification 2 1 8 10 "yesterday" true]
    [float_taxon 10 None 10].

(** Two rows of the taxonomy of [dataset_tax.py] with the same id: the second
    one gives the label. *)
Definition tax_labels : Store Tax.Taxon :=
  Examples.store Tax.taxon_id [Examples.observation 1 None] []
    [Examples.identification 1 1 7 5 "100" true]
    [Examples.tax_taxon 5 "9"; Examples.tax_taxon 5 "8"].

(** A row of [taxonomy.csv] with the [taxon_id] that the loader made of its
    cell. *)
Definition csv_taxon (taxon_id : pyid) (key : string) : Tax.Taxon :=
  {| Tax.parent := None; Tax.key := Some key; Tax.taxon_id := taxon_id;
     Tax.prob := VFloat 1; Tax.leaf := VInt 1 |}.

(** The [taxon_id] cell of the second row is empty. *)
Definition empty_taxon_id : Store Tax.Taxon :=
  Examples.store Tax.taxon_id [Examples.observation 1 None] []
    [Examples.identification 1 1 7 5 "100" true]
    [Examples.tax_taxon 5 "9"; csv_taxon IdNone "8"].

(** The [taxon_id] cell of the first row is no number, that of the second row
    is empty. *)
Definition unspelled_taxon_id : Store Tax.Taxon :=
  Examples.store Tax.taxon_id [Examples.observation 1 None] []
    [Examples.identification 1 1 7 5 "100" true]
    [csv_taxon (IdStr "5a") "9"; csv_taxon IdNone "8"].

(** An identification of taxon 6, where the taxonomy only has taxon 5. *)
Definition unlabelled : Store Tax.Taxon :=
  Examples.store Tax.taxon_id [] []
    [Examples.identification 1 1 7 6 "100" true]
    [Examples.tax_taxon 5 "9"].

(** The two stores of a train and test split: observation 1 is of taxon 11,
    observation 2 of taxon 12. *)
Definition train : Store Old.Taxon :=
  Examples.store Old.taxon_id [Examples.observation 1 (Some 11)]
    [Examples.photo 1]
    [Examples.identification 1 1 7 11 "100" true;
     Examples.identification 2 1 8 11 "200" true]
    [float_taxon 11 None 10; float_taxon 12 None 10].

Definition test : Store Old.Taxon :=
  Examples.store Old.taxon_id [Examples.observation 2 (Some 12)]
    [Examples.photo 2]
    [Examples.identification 3 2 7 12 "300" true]
    [float_taxon 11 None 10; float_taxon 12 None 10].

(** Two taxa share the id 5 and one of them is not active; the
    identifications name the taxa 5 and 6 and the unknown taxon 99. *)
Definition inactive_duplicate : Store Old.Taxon :=
  Examples.store Old.taxon_id [Examples.observation 1 None] []
    [Examples.identification 1 1 1 5 "100" true;
     Examples.identification 2 1 2 6 "200" true;
     Examples.identification 3 1 3 99 "300" true]
    [float_taxon 5 None 10;
     {| Old.taxon_id := IdInt 5; Old.ancestry := None;
        Old.rank_level := VFloat 10; Old.is_active := VBool false |};
     float_taxon 6 None 10].

End Cases.

(** * Proofs *)

(** ** The result monad *)

Lemma bind_Done {A B : Type} (m : result A) (f : A → result B) (b : B) :
  (x ← m; f x) = Done b ↔ ∃ a, m = Done a ∧ f a = Done b.
Proof.
  destruct m as [a|e]; simpl.
  - split; [eauto | by intros (a' & [= ->] & ?)].
  - split; [done | by intros (a' & ? & ?)].
Qed.

Lemma foldlM_app {A B : Type} (f : B → A → result B) (acc : B) (l1 l2 : list A) :
  foldlM f acc (l1 ++ l2) = acc' ← foldlM f acc l1; foldlM f acc' l2.
Proof.
  revert acc. induction l1 as [|x l1 IH]; intros acc; simpl; [done|].
  destruct (f acc x) as [acc'|e]; simpl; [apply IH | done].
Qed.

(** A fold that maintains an invariant and cannot raise under it completes. *)
Lemma foldlM_invariant {A B : Type} (I : B → Prop) (P : A → Prop)
    (f : B → A → result B) (l : list A) (acc : B) :
  (∀ b x, I b → P x → ∃ b', f b x = Done b' ∧ I b') →
  I acc → Forall P l → ∃ b', foldlM f acc l = Done b' ∧ I b'.
Proof.
  intros Hstep. revert acc.
  induction l as [|x l IH]; intros acc Hacc Hl; simpl; [eauto|].
  apply Forall_cons in Hl as [Hx Hl].
  destruct (Hstep acc x Hacc Hx) as (b' & -> & Hb'). simpl. by apply IH.
Qed.

Lemma mapM_result_Done {A B : Type} (f : A → result B) (g : A → B) (l : list A) :
  Forall (λ x, f x = Done (g x)) l → mapM_result f l = Done (g <$> l).
Proof.
  induction 1 as [|x l Hx _ IH]; simpl; [done|]. by rewrite Hx, IH.
Qed.

Lemma mapM_result_inv {A B : Type} (f : A → result B) (l : list A) (l' : list B) :
  mapM_result f l = Done l' → Forall2 (λ x y, f x = Done y) l l'.
Proof.
  revert l'. induction l as [|x l IH]; intros l'; simpl.
  - intros [= <-]. constructor.
  - intros (y & Hy & H)%bind_Done. apply bind_Done in H as (ys & Hys & [= <-]).
    constructor; [done | by apply IH].
Qed.

(** ** Index maps *)

Lemma index_by_snoc {A : Type} (key : A → pyid) (l : list A) (x : A) :
  index_by key (l ++ [x]) = <[key x := x]> (index_by key l).
Proof. unfold index_by. by rewrite foldl_app. Qed.

Lemma index_by_is_Some {A : Type} (key : A → pyid) (l : list A) (k : pyid) :
  is_Some (index_by key l !! k) ↔ k ∈ key <$> l.
Proof.
  induction l as [|x l IH] using rev_ind.
  - unfold index_by. simpl. rewrite lookup_empty, elem_of_nil.
    split; [by intros [? ?] | done].
  - rewrite index_by_snoc, fmap_app, elem_of_app. simpl.
    rewrite list_elem_of_singleton, lookup_insert_is_Some, IH.
    destruct (decide (key x = k)); naive_solver.
Qed.

Lemma index_by_lookup_Some {A : Type} (key : A → pyid) (l : list A) (k : pyid)
    (x : A) :
  index_by key l !! k = Some x → x ∈ l ∧ key x = k.
Proof.
  induction l as [|y l IH] using rev_ind.
  - unfold index_by. simpl. by rewrite lookup_empty.
  - rewrite index_by_snoc, lookup_insert. case_decide as Hk.
    + intros [= ->]. split; [set_solver | done].
    + intros [? ?]%IH. split; [set_solver | done].
Qed.

Lemma index_by_lookup_NoDup {A : Type} (key : A → pyid) (l : list A) (x : A) :
  NoDup (key <$> l) → x ∈ l → index_by key l !! key x = Some x.
Proof.
  induction l as [|y l IH] using rev_ind; [by intros _ ?%elem_of_nil|].
  rewrite fmap_app, index_by_snoc. simpl.
  intros (Hl & Hy & _)%NoDup_app [Hx | ->%list_elem_of_singleton]%elem_of_app.
  - rewrite lookup_insert_ne; [by apply IH|].
    intros Heq. apply (Hy (key x)); [|set_solver].
    by apply list_elem_of_fmap_2.
  - by rewrite lookup_insert_eq.
Qed.

(** ** Lists and filters *)

Lemma filter_all {A : Type} (P : A → Prop) `{!∀ x, Decision (P x)} (l : list A) :
  Forall P l → filter P l = l.
Proof.
  induction 1 as [|x l Hx _ IH]; [done|]. by rewrite filter_cons_True, IH.
Qed.

Lemma filter_none {A : Type} (P : A → Prop) `{!∀ x, Decision (P x)} (l : list A) :
  Forall (λ x, ¬ P x) l → filter P l = [].
Proof.
  induction 1 as [|x l Hx _ IH]; [done|]. by rewrite filter_cons_False.
Qed.

Lemma filter_idem {A : Type} (P : A → Prop) `{!∀ x, Decision (P x)} (l : list A) :
  filter P (filter P l) = filter P l.
Proof. by apply list_filter_filter_l. Qed.

(** ** The observation filters *)

Section observation_filters.
Context {T : Type}.
Implicit Types s : Store T.

Lemma replace_observations_idem s (obs : list Observation) :
  replace_observations obs (replace_observations obs s)
  = replace_observations obs s.
Proof.
  unfold replace_observations. simpl. by rewrite filter_idem.
Qed.

Lemma replace_observations_photos s (obs : list Observation) :
  observation_photos (replace_observations obs s) = observation_photos s.
Proof. done. Qed.

Lemma replace_observations_integrity (taxon_key : T → pyid) s
    (obs : list Observation) :
  referential_integrity taxon_key s →
  referential_integrity taxon_key (replace_observations obs s).
Proof.
  intros Hs iden. unfold replace_observations. simpl.
  intros [Hob Hiden]%list_elem_of_filter.
  split; [by apply index_by_is_Some | by apply Hs].
Qed.

Lemma replace_identifications_integrity (taxon_key : T → pyid) s
    (idens : list Identification) :
  referential_integrity taxon_key s →
  (∀ iden, iden ∈ idens → ∃ iden', iden' ∈ identifications s
     ∧ iden_observation_id iden = iden_observation_id iden'
     ∧ iden_taxon_id iden = iden_taxon_id iden') →
  referential_integrity taxon_key (replace_identifications idens s).
Proof.
  intros Hs Hsub iden Hiden. simpl in *.
  destruct (Hsub iden Hiden) as (iden' & Hin & -> & ->). by apply Hs.
Qed.

End observation_filters.

(** ** The taxon filters of [dataset_old.py] *)

Lemma remove_non_active_taxa_idem (s : Store Old.Taxon) :
  Old.remove_non_active_taxa (Old.remove_non_active_taxa s)
  = Old.remove_non_active_taxa s.
Proof.
  unfold Old.remove_non_active_taxa at 1 3.
  set (s1 := Old.remove_non_active_taxa s).
  assert (filter (λ taxon, negb (py_eqb (Old.is_active taxon) (VBool true)))
                 (taxa s1) = []) as ->.
  { apply filter_none, Forall_forall. intros taxon Hin Hoff.
    apply list_elem_of_filter in Hin as [Hid Hin]. apply Hid.
    apply elem_of_list_to_set, list_elem_of_fmap_2, list_elem_of_filter. done. }
  simpl.
  rewrite (filter_all (λ iden, iden_taxon_id iden ∉ (∅ : gset pyid)))
    by (apply Forall_forall; set_solver).
  rewrite (filter_all (λ taxon, Old.taxon_id taxon ∉ (∅ : gset pyid)))
    by (apply Forall_forall; set_solver).
  done.
Qed.

Lemma remove_obs_with_no_photos_idem (s : Store Old.Taxon) :
  Old.remove_obs_with_no_photos (Old.remove_obs_with_no_photos s)
  = Old.remove_obs_with_no_photos s.
Proof.
  unfold Old.remove_obs_with_no_photos at 1. simpl.
  rewrite filter_idem. apply replace_observations_idem.
Qed.

(** ** Ordered dicts *)

Section od_table.
Context {K V : Type} `{EqDecision K}.
Implicit Types (ks : list K) (g : K → V).

Lemma od_get_table ks g (k : K) :
  od_get k (od_table ks g) = if decide (k ∈ ks) then Some (g k) else None.
Proof.
  induction ks as [|k' ks IH]; simpl; [done|].
  destruct (decide (k = k')) as [->|Hne].
  - by rewrite decide_True by set_solver.
  - rewrite IH. destruct (decide (k ∈ ks)).
    + by rewrite decide_True by set_solver.
    + by rewrite decide_False by set_solver.
Qed.

Lemma od_table_ext ks g g' :
  (∀ k, k ∈ ks → g k = g' k) → od_table ks g = od_table ks g'.
Proof.
  intros Hg. unfold od_table. apply list_fmap_ext.
  intros i k Hk. f_equal. apply Hg. by eapply list_elem_of_lookup_2.
Qed.

Lemma od_set_table ks g (k : K) (v : V) :
  k ∈ ks → NoDup ks →
  od_set k v (od_table ks g)
  = od_table ks (λ k', if decide (k' = k) then v else g k').
Proof.
  induction ks as [|k' ks IH]; simpl; [by intros ?%elem_of_nil|].
  intros Hin [Hk' Hks]%NoDup_cons.
  destruct (decide (k = k')) as [->|Hne].
  - rewrite decide_True by done. f_equal.
    apply od_table_ext. intros k Hk. rewrite decide_False; [done|].
    by intros ->.
  - rewrite decide_False by done. f_equal. apply IH; [set_solver | done].
Qed.

Lemma od_set_table_new ks g (k : K) (v : V) :
  k ∉ ks →
  od_set k v (od_table ks g)
  = od_table (ks ++ [k]) (λ k', if decide (k' = k) then v else g k').
Proof.
  induction ks as [|k' ks IH]; simpl; intros Hk.
  - unfold od_table. simpl. by rewrite decide_True.
  - rewrite decide_False by set_solver.
    rewrite (decide_False (P := k' = k)) by set_solver.
    f_equal. apply IH. set_solver.
Qed.

Lemma od_keys_table ks g : od_keys (od_table ks g) = ks.
Proof.
  unfold od_keys, od_table. rewrite <- list_fmap_compose.
  induction ks as [|k ks IH]; simpl; [done | by f_equal].
Qed.

End od_table.

Lemma foldl_add_new (acc l : list pyid) :
  NoDup acc →
  NoDup (foldl add_new acc l) ∧ ∀ k, k ∈ foldl add_new acc l ↔ k ∈ acc ∨ k ∈ l.
Proof.
  revert acc. induction l as [|x l IH]; intros acc Hacc; simpl.
  - split; [done | set_solver].
  - unfold add_new at 2 4. destruct (decide (x ∈ acc)).
    + destruct (IH acc Hacc) as [? Hin]. split; [done|].
      intros k. rewrite Hin. set_solver.
    + destruct (IH (acc ++ [x])) as [? Hin].
      { apply NoDup_app. split_and!; [done | set_solver | apply NoDup_singleton]. }
      split; [done|]. intros k. rewrite Hin. set_solver.
Qed.

Lemma first_occurrences_spec (l : list pyid) :
  NoDup (first_occurrences l) ∧ ∀ k, k ∈ first_occurrences l ↔ k ∈ l.
Proof.
  destruct (foldl_add_new [] l (NoDup_nil_2)) as [? Hin]. split; [done|].
  intros k. unfold first_occurrences. rewrite Hin. set_solver.
Qed.

Lemma elem_of_first_occurrences (l : list pyid) (k : pyid) :
  k ∈ first_occurrences l ↔ k ∈ l.
Proof. apply first_occurrences_spec. Qed.

Lemma od_set_table_const {V : Type} (ks : list pyid) (k : pyid) (v : V) :
  k ∈ ks → od_set k v (od_table ks (λ _, v)) = od_table ks (λ _, v).
Proof.
  induction ks as [|k' ks IH]; simpl; [by intros ?%elem_of_nil|].
  intros Hin. destruct (decide (k = k')) as [->|Hne]; [done|].
  f_equal. apply IH. set_solver.
Qed.

Lemma empty_groups_table (obs : list Observation) :
  empty_groups obs
  = od_table (first_occurrences (ob_id <$> obs)) (λ _, []).
Proof.
  unfold empty_groups, first_occurrences.
  change (@nil (pyid * list Identification))
    with (od_table (V := list Identification) (@nil pyid) (λ _, [])).
  generalize (@nil pyid).
  induction obs as [|ob obs IH]; intros acc; simpl; [done|].
  unfold add_new at 2. destruct (decide (ob_id ob ∈ acc)) as [Hin|Hin].
  - by rewrite od_set_table_const.
  - rewrite od_set_table_new by done. rewrite <- IH. f_equal.
    apply od_table_ext. intros k _. by destruct (decide (k = ob_id ob)).
Qed.

Lemma append_to_group_table (ks : list pyid)
    (g : pyid → list Identification) (iden : Identification) :
  NoDup ks →
  append_to_group (od_table ks g) iden
  = if decide (iden_observation_id iden ∈ ks)
    then Done (od_table ks (λ k, if decide (k = iden_observation_id iden)
                                 then g k ++ [iden] else g k))
    else Raise KeyError.
Proof.
  intros Hks. unfold append_to_group. rewrite od_get_table.
  case_decide; [|done]. rewrite od_set_table by done. f_equal.
  apply od_table_ext. intros k _. by case_decide; subst.
Qed.

(** The per-observation groups: a [KeyError] unless every identification
    belongs to an observation of the list, and otherwise one group per
    observation id, holding its identifications in list order. *)
Lemma foldlM_append_to_group (ks : list pyid)
    (g : pyid → list Identification) (idens : list Identification) :
  NoDup ks →
  foldlM append_to_group (od_table ks g) idens
  = if decide (Forall (λ iden, iden_observation_id iden ∈ ks) idens)
    then Done (od_table ks (λ k, g k ++ idens_of_observation k idens))
    else Raise KeyError.
Proof.
  intros Hks. revert g.
  induction idens as [|iden idens IH]; intros g; cbn [foldlM].
  - rewrite decide_True by constructor. f_equal. apply od_table_ext.
    intros k _. unfold idens_of_observation. by rewrite filter_nil, app_nil_r.
  - rewrite append_to_group_table by done.
    destruct (decide (iden_observation_id iden ∈ ks)) as [Hin|Hin]; simpl.
    + rewrite IH.
      destruct (decide (Forall _ idens)) as [Hall|Hall].
      * rewrite decide_True by (by constructor). f_equal.
        apply od_table_ext. intros k _. unfold idens_of_observation.
        rewrite filter_cons.
        destruct (decide (k = iden_observation_id iden)) as [->|Hne].
        -- rewrite decide_True by done. by rewrite <- app_assoc.
        -- by rewrite decide_False by done.
      * rewrite decide_False; [done|]. by intros [_ ?]%Forall_cons.
    + rewrite decide_False; [done|]. by intros [? _]%Forall_cons.
Qed.

Lemma group_by_observation_spec (obs : list Observation)
    (idens : list Identification) :
  group_by_observation obs idens
  = if decide (Forall (λ iden, iden_observation_id iden
                               ∈ first_occurrences (ob_id <$> obs)) idens)
    then Done (od_table (first_occurrences (ob_id <$> obs))
                        (λ k, idens_of_observation k idens))
    else Raise KeyError.
Proof.
  unfold group_by_observation. rewrite empty_groups_table.
  rewrite foldlM_append_to_group by apply first_occurrences_spec. done.
Qed.

Lemma group_by_observation_Done (obs : list Observation)
    (idens : list Identification) :
  (∀ iden, iden ∈ idens → iden_observation_id iden ∈ ob_id <$> obs) →
  group_by_observation obs idens
  = Done (od_table (first_occurrences (ob_id <$> obs))
                   (λ k, idens_of_observation k idens)).
Proof.
  intros Hall. rewrite group_by_observation_spec, decide_True; [done|].
  apply Forall_forall. intros iden Hin. apply first_occurrences_spec. auto.
Qed.

Lemma group_by_observation_inv (obs : list Observation)
    (idens : list Identification) d :
  group_by_observation obs idens = Done d →
  (∀ iden, iden ∈ idens → iden_observation_id iden ∈ ob_id <$> obs)
  ∧ d = od_table (first_occurrences (ob_id <$> obs))
                 (λ k, idens_of_observation k idens).
Proof.
  rewrite group_by_observation_spec. case_decide as Hall; [|done].
  intros [= <-]. split; [|done]. intros iden Hin.
  apply first_occurrences_spec. by eapply Forall_forall in Hall.
Qed.

Lemma filter_ext_in {A : Type} (P Q : A → Prop) `{!∀ x, Decision (P x)}
    `{!∀ x, Decision (Q x)} (l : list A) :
  (∀ x, x ∈ l → P x ↔ Q x) → filter P l = filter Q l.
Proof.
  induction l as [|x l IH]; intros HPQ; [done|].
  rewrite !filter_cons, IH by set_solver.
  destruct (decide (P x)) as [HP|HP].
  - rewrite decide_True; [done|]. apply HPQ; [set_solver | done].
  - rewrite decide_False; [done|]. intros HQ. apply HP, HPQ; [set_solver | done].
Qed.

Lemma elem_of_kept_groups (P : pyid * list Identification → Prop)
    `{!∀ x, Decision (P x)} (ks : list pyid) (g : pyid → list Identification)
    (k : pyid) :
  k ∈ list_to_set (C := gset pyid) (fst <$> filter P (od_table ks g))
  ↔ k ∈ ks ∧ P (k, g k).
Proof.
  rewrite elem_of_list_to_set, list_elem_of_fmap. split.
  - intros ([k' l] & -> & [HP Hin]%list_elem_of_filter).
    apply list_elem_of_fmap in Hin as (k & [= -> ->] & Hk). done.
  - intros [Hk HP]. exists (k, g k). split; [done|].
    apply list_elem_of_filter. split; [done|]. unfold od_table.
    by apply list_elem_of_fmap_2' with k.
Qed.

(** ** [enforce_min_identifications] *)

Section enforce_min_identifications.
Context {T : Type}.
Implicit Types s : Store T.

(** The observations that [enforce_min_identifications] keeps. *)
Lemma enforce_min_identifications_Done (n : Z) s s1 :
  enforce_min_identifications n s = Done s1
  ↔ (∀ iden, iden ∈ identifications s →
       iden_observation_id iden ∈ ob_id <$> observations s)
    ∧ s1 = replace_observations
             (filter (λ ob, (n ≤ Z.of_nat (length (idens_of_observation
                                (ob_id ob) (identifications s))))%Z)
                     (observations s)) s.
Proof.
  unfold enforce_min_identifications. rewrite bind_Done.
  assert (∀ d, d = od_table (first_occurrences (ob_id <$> observations s))
                   (λ k, idens_of_observation k (identifications s)) →
    filter (λ ob, ob_id ob ∈ list_to_set (C := gset pyid)
              (fst <$> filter (λ group : pyid * list Identification,
                                 (n ≤ Z.of_nat (length group.2))%Z) d))
           (observations s)
    = filter (λ ob, (n ≤ Z.of_nat (length (idens_of_observation
                          (ob_id ob) (identifications s))))%Z)
             (observations s)) as Hobs.
  { intros d ->. apply filter_ext_in. intros ob Hob.
    rewrite elem_of_kept_groups. simpl. split; [by intros [_ ?]|].
    intros Hn. split; [|done]. apply first_occurrences_spec.
    by apply list_elem_of_fmap_2. }
  split.
  - intros (d & [Hall ->]%group_by_observation_inv & [= <-]).
    split; [done|]. by rewrite Hobs.
  - intros [Hall ->]. eexists. split; [by apply group_by_observation_Done|].
    by rewrite Hobs.
Qed.

Lemma enforce_min_identifications_idem (n : Z) s s1 :
  enforce_min_identifications n s = Done s1 →
  enforce_min_identifications n s1 = Done s1.
Proof.
  intros [Hall ->]%enforce_min_identifications_Done.
  apply enforce_min_identifications_Done.
  set (obs1 := filter _ (observations s)).
  assert (∀ iden, iden ∈ identifications (replace_observations obs1 s) →
            iden_observation_id iden ∈ ob_id <$> obs1) as Hall1.
  { intros iden [Hin _]%list_elem_of_filter. by apply index_by_is_Some. }
  split; [done|].
  rewrite <- (replace_observations_idem s obs1) at 1. f_equal.
  change (observations (replace_observations obs1 s)) with obs1.
  symmetry. apply filter_all, Forall_forall. intros ob Hob.
  assert (idens_of_observation (ob_id ob)
            (identifications (replace_observations obs1 s))
          = idens_of_observation (ob_id ob) (identifications s)) as ->.
  { unfold idens_of_observation, replace_observations. simpl.
    apply list_filter_filter_l. intros iden ->.
    apply index_by_is_Some. by apply list_elem_of_fmap_2. }
  by apply list_elem_of_filter in Hob as [? _].
Qed.

End enforce_min_identifications.

(** ** The photos *)

Lemma drop_not_remapped_photos (r : pyval) (ks : gset pyid)
    (s s' : Store Old.Taxon) :
  Old.drop_not_remapped r ks s = Done s' →
  observation_photos s' = observation_photos s
  ∧ observations s' = observations s.
Proof.
  unfold Old.drop_not_remapped. repeat case_match; try done; by intros [= <-].
Qed.

Lemma run_photos strptime random_sample (op : Pipeline.operation)
    (s s' : Store Old.Taxon) :
  Pipeline.run strptime random_sample op s = Done s' →
  observation_photos s' = observation_photos s.
Proof.
  destruct op; simpl.
  - by intros [= <-].
  - unfold keep_one_identification_per_user_per_observation.
    intros (? & _ & (? & _ & (? & _ & [= <-])%bind_Done)%bind_Done)%bind_Done.
    done.
  - unfold keep_current_identifications.
    intros (? & _ & (? & _ & [= <-])%bind_Done)%bind_Done. done.
  - by intros [= <-].
  - by intros [= <-].
  - by intros [_ ->]%enforce_min_identifications_Done.
  - unfold enforce_max_observations. repeat case_match; by intros [= <-].
  - unfold Old.set_rank_level_as_leaf_level.
    intros (m & _ & (s1 & [Hs1 _]%drop_not_remapped_photos
                     & (? & _ & [= <-])%bind_Done)%bind_Done)%bind_Done.
    done.
  - by intros [= <-].
Qed.

(** ** Construction *)

Lemma convert_taxa_spec float_of_string (obs_taxon_ids : list (option pyid))
    (l all taxa_to_keep : list Old.Taxon) :
  Old.convert_taxa float_of_string obs_taxon_ids l = (all, taxa_to_keep) →
  Forall has_float_rank taxa_to_keep
  ∧ length all = length l
  ∧ length taxa_to_keep ≤ length l
  ∧ (length taxa_to_keep = length l → all = taxa_to_keep).
Proof.
  revert all taxa_to_keep.
  induction l as [|taxon l IH]; intros all keep; simpl.
  - intros [= <- <-]. by repeat split.
  - destruct (Old.convert_taxa _ _ l) as [all' keep'].
    destruct (IH all' keep' eq_refl) as (Hfloat & Hall & Hlen & Heq).
    destruct (Old.py_float _ _) as [q|e]; [case_decide|]; intros [= <- <-]; simpl.
    + split_and!; [|lia|lia|].
      * constructor; [by exists q | done].
      * intros ?. f_equal. apply Heq. lia.
    + split_and!; [done|lia|lia|lia].
    + split_and!; [done|lia|lia|lia].
Qed.

Lemma check_taxa_float_ranks float_of_string (s : Store Old.Taxon) :
  Forall has_float_rank (taxa (Old.check_taxa float_of_string s)).
Proof.
  unfold Old.check_taxa.
  destruct (Old.convert_taxa _ _ _) as [all keep] eqn:Hconv.
  apply convert_taxa_spec in Hconv as (Hfloat & _ & _ & Heq).
  case_decide as Hlen; simpl; [done|].
  rewrite Heq; [done | by destruct (decide (length keep = length (taxa s)))].
Qed.

Lemma assert_unique_ids_Done {T : Type} (s s' : Store T) :
  assert_unique_ids s = Done s' → s' = s.
Proof. unfold assert_unique_ids. repeat case_match; congruence. Qed.

Lemma init_float_ranks float_of_string obs photos idens taxa0 users0
    (s : Store Old.Taxon) :
  Old.__init__ float_of_string obs photos idens taxa0 users0 = Done s →
  Forall has_float_rank (taxa s).
Proof.
  unfold Old.__init__, Old._sanity_check_data.
  intros (l & _ & ->%assert_unique_ids_Done)%bind_Done. simpl.
  apply check_taxa_float_ranks.
Qed.

Lemma create_flat_taxonomy_string_leaf (leaf : string) (s : Store Old.Taxon) :
  Forall has_float_rank (taxa s) →
  Old.create_flat_taxonomy (VStr leaf) s
  = Old.replace_taxa [] [] s.
Proof.
  intros Hfloat. unfold Old.create_flat_taxonomy.
  rewrite (filter_none _ (taxa s)).
  - rewrite filter_none; [done|]. apply Forall_forall. intros iden _.
    unfold index_by. simpl. rewrite lookup_empty. by intros [? ?].
  - eapply Forall_impl; [done|]. intros taxon [q Hq]. rewrite Hq. by intros [].
Qed.

(** ** The rank collapser *)

Lemma foldlM_prefix_ind {A B : Type} (I : list A → B → Prop)
    (f : B → A → result B) (l : list A) (acc b : B) :
  I [] acc →
  (∀ pre x b b', x ∈ l → I pre b → f b x = Done b' → I (pre ++ [x]) b') →
  foldlM f acc l = Done b → I l b.
Proof.
  intros Hacc Hstep.
  cut (∀ l' pre acc, l' ⊆ l → I pre acc → foldlM f acc l' = Done b →
                     I (pre ++ l') b).
  { intros H. by apply (H l []). }
  clear acc Hacc. induction l' as [|x l' IH]; intros pre acc Hsub Hacc; simpl.
  - intros [= <-]. by rewrite app_nil_r.
  - intros (b' & Hb' & Hrest)%bind_Done.
    rewrite cons_middle, app_assoc. eapply IH; [set_solver| |done].
    eapply Hstep; [set_solver|done..].
Qed.

Lemma py_ge_true_lt_false (a b : pyval) :
  py_ge a b = Done true → py_lt a b = Done false.
Proof.
  unfold py_ge, py_lt.
  destruct (py_num a), (py_num b); try done.
  - by intros [= ->].
  - destruct a, b; try done. intros [= Hle]. f_equal.
    unfold String.leb, String.ltb in *.
    rewrite String.compare_antisym.
    by destruct (String.compare _ _).
Qed.

Section rank_collapse.
Variables (txs : list Old.Taxon) (leaf : pyval).

Let idx : gmap pyid Old.Taxon := index_by Old.taxon_id txs.
Let ranks : gmap pyid pyval := Old.rank_level <$> idx.

Lemma find_higher_ancestor_Some (ancestry_ids : list string)
    (ancestor : Old.Taxon) :
  Old.find_higher_ancestor idx ranks leaf ancestry_ids = Done (Some ancestor) →
  ancestor ∈ txs ∧ py_lt (Old.rank_level ancestor) leaf = Done false.
Proof.
  induction ancestry_ids as [|a rest IH]; simpl; [done|].
  destruct (int_of_string a) as [z|]; [|done].
  destruct (ranks !! IdInt z) as [r|] eqn:Hr; [|done].
  intros (b & Hb & H)%bind_Done. destruct b; [|by apply IH].
  destruct (idx !! IdInt z) as [t|] eqn:Ht; [|done].
  injection H as ->. subst ranks. rewrite lookup_fmap, Ht in Hr.
  injection Hr as <-.
  split; [by eapply index_by_lookup_Some | by apply py_ge_true_lt_false].
Qed.

Lemma remap_taxon_invariant (pre : list Old.Taxon) (taxon : Old.Taxon)
    (m m' : Old.Remapping) :
  remapping_invariant txs leaf pre m →
  taxon ∈ txs →
  Old.remap_taxon idx ranks leaf m taxon = Done m' →
  remapping_invariant txs leaf (pre ++ [taxon]) m'.
Proof.
  intros (Hlow & Hsub & Hmap & Htarget) Htaxon. unfold Old.remap_taxon.
  intros (lower & Hlt & Hm')%bind_Done.
  assert (∀ k, (∃ t, t ∈ pre ++ [taxon] ∧ Old.taxon_id t = k
                     ∧ py_lt (Old.rank_level t) leaf = Done true)
               ↔ (∃ t, t ∈ pre ∧ Old.taxon_id t = k
                       ∧ py_lt (Old.rank_level t) leaf = Done true)
                 ∨ (Old.taxon_id taxon = k ∧ lower = true)) as Hsplit.
  { intros k. split.
    - intros (t & [Ht | ->%list_elem_of_singleton]%elem_of_app & Hk & Hr).
      + left. eauto.
      + right. rewrite Hlt in Hr. by injection Hr as ->.
    - intros [(t & Ht & Hk & Hr) | [Hk ->]].
      + exists t. split; [set_solver | done].
      + exists taxon. split; [set_solver | done]. }
  destruct lower.
  - destruct (Old.ancestry taxon) as [a|].
    + apply bind_Done in Hm' as (found & Hfound & Hm').
      destruct found as [ancestor|]; injection Hm' as <-;
        (split_and!; simpl).
      * intros k. rewrite Hsplit, elem_of_union, elem_of_singleton, Hlow.
        naive_solver.
      * set_solver.
      * intros k Hk Hnot. rewrite lookup_insert_is_Some.
        destruct (decide (Old.taxon_id taxon = k)); [by left|].
        right. split; [done|]. apply Hmap; [set_solver | done].
      * intros k target. rewrite lookup_insert. case_decide.
        -- intros [= <-]. by eapply find_higher_ancestor_Some.
        -- apply Htarget.
      * intros k. rewrite Hsplit, elem_of_union, elem_of_singleton, Hlow.
        naive_solver.
      * set_solver.
      * intros k Hk Hnot. apply Hmap; set_solver.
      * done.
    + injection Hm' as <-. split_and!; simpl.
      * intros k. rewrite Hsplit, elem_of_union, elem_of_singleton, Hlow.
        naive_solver.
      * set_solver.
      * intros k Hk Hnot. apply Hmap; set_solver.
      * done.
  - injection Hm' as <-. split_and!; simpl.
    + intros k. rewrite Hsplit, Hlow. naive_solver.
    + done.
    + intros k Hk Hnot. rewrite lookup_insert_is_Some.
      destruct (decide (Old.taxon_id taxon = k)); [by left|].
      right. split; [done|]. by apply Hmap.
    + intros k target. rewrite lookup_insert. case_decide.
      * by intros [= <-].
      * apply Htarget.
Qed.

End rank_collapse.

Lemma remapping_spec (txs : list Old.Taxon) (leaf : pyval) (m : Old.Remapping) :
  foldlM (Old.remap_taxon (index_by Old.taxon_id txs)
            (Old.rank_level <$> index_by Old.taxon_id txs) leaf)
         {| Old.taxon_id_to_remapped_taxon := ∅;
            Old.taxa_ids_at_lower_rank := ∅;
            Old.taxa_ids_not_remapped := ∅ |} txs = Done m →
  remapping_invariant txs leaf txs m.
Proof.
  apply (foldlM_prefix_ind (remapping_invariant txs leaf)).
  - split_and!; simpl; [|done|set_solver|by intros ?? ?%lookup_empty_Some].
    intros k. split; [set_solver|]. by intros (? & ?%elem_of_nil & _).
  - intros pre x b b' Hx Hinv Hstep. by eapply remap_taxon_invariant.
Qed.

Lemma drop_not_remapped_Done (leaf : pyval) (ks : gset pyid)
    (s s1 : Store Old.Taxon) :
  Old.drop_not_remapped leaf ks s = Done s1 →
  observations s1 = observations s
  ∧ taxa s1 = filter (λ taxon, Old.taxon_id taxon ∉ ks) (taxa s)
  ∧ identifications s1
    = filter (λ iden, iden_taxon_id iden ∉ ks) (identifications s).
Proof.
  unfold Old.drop_not_remapped. case_decide as Hsize.
  - repeat case_match; try done. by intros [= <-].
  - intros [= <-]. assert (ks = ∅) as ->.
    { apply leibniz_equiv, size_empty_inv. lia. }
    split; [done|].
    split; symmetry; apply filter_all, Forall_forall; set_solver.
Qed.

(** On identifications that are all remappable the loop removes nothing: it
    is a map over the list. *)
Lemma remap_scan_map (m : Old.Remapping) (ranks : gmap pyid pyval)
    (fuel i : nat) (l : list Identification) :
  length l ≤ i + fuel →
  Forall (remappable m ranks) (drop i l) →
  Old.remap_scan m ranks fuel i l
  = Done (take i l ++ (remap_identification m <$> drop i l)).
Proof.
  revert i l. induction fuel as [|fuel IH]; intros i l Hlen Hall; simpl.
  - rewrite take_ge, drop_ge by lia. by rewrite app_nil_r.
  - destruct (l !! i) as [iden|] eqn:Hi.
    + rewrite (drop_S _ _ _ Hi) in Hall |- *.
      apply Forall_cons in Hall as [Hiden Hall].
      unfold remappable in Hiden. rewrite fmap_cons.
      destruct (decide (iden_taxon_id iden ∈ _)) as [Hlow|Hlow].
      * destruct Hiden as [target Htarget]. rewrite Htarget.
        assert (remap_identification m iden
                = set_iden_taxon_id (Old.taxon_id target) iden) as ->.
        { unfold remap_identification. by rewrite decide_True, Htarget. }
        rewrite IH.
        -- rewrite drop_insert_lt by lia.
           rewrite (take_S_r _ _ (set_iden_taxon_id (Old.taxon_id target) iden)).
           ++ rewrite take_insert_ge by lia. by rewrite <- app_assoc.
           ++ apply list_lookup_insert_eq. by eapply lookup_lt_Some.
        -- rewrite length_insert. lia.
        -- by rewrite drop_insert_lt by lia.
      * rewrite decide_True by done.
        assert (remap_identification m iden = iden) as ->.
        { unfold remap_identification. by rewrite decide_False. }
        rewrite IH by (done || lia).
        rewrite (take_S_r _ _ _ Hi). by rewrite <- app_assoc.
    + apply lookup_ge_None in Hi. rewrite take_ge, drop_ge by lia.
      by rewrite app_nil_r.
Qed.

Lemma NoDup_fmap_eq {A : Type} (key : A → pyid) (l : list A) (x y : A) :
  NoDup (key <$> l) → x ∈ l → y ∈ l → key x = key y → x = y.
Proof.
  intros Hnd Hx Hy Hxy.
  pose proof (index_by_lookup_NoDup key l x Hnd Hx) as H1.
  pose proof (index_by_lookup_NoDup key l y Hnd Hy) as H2.
  rewrite Hxy in H1. congruence.
Qed.

(** The collapse on a store whose identifications resolve and whose taxon
    ids are distinct: the taxa not remapped go with their identifications,
    every other identification is remapped, and the taxa below the leaf level
    go. *)
Lemma set_rank_level_as_leaf_level_Done (leaf : pyval) (s s' : Store Old.Taxon) :
  (∀ iden, iden ∈ identifications s →
     iden_taxon_id iden ∈ Old.taxon_id <$> taxa s) →
  Old.set_rank_level_as_leaf_level leaf s = Done s' →
  ∃ m, remapping_invariant (taxa s) leaf (taxa s) m
    ∧ observations s' = observations s
    ∧ taxa s' = filter (λ taxon, Old.taxon_id taxon
                                 ∉ Old.taxa_ids_at_lower_rank m)
                  (filter (λ taxon, Old.taxon_id taxon
                                    ∉ Old.taxa_ids_not_remapped m) (taxa s))
    ∧ identifications s'
      = remap_identification m <$>
          filter (λ iden, iden_taxon_id iden ∉ Old.taxa_ids_not_remapped m)
                 (identifications s).
Proof.
  intros Hres. unfold Old.set_rank_level_as_leaf_level.
  intros (m & Hm%remapping_spec & (s1 & Hs1 & (idens & Hscan & [= <-])%bind_Done)
            %bind_Done)%bind_Done.
  apply drop_not_remapped_Done in Hs1 as (Hobs & Htaxa & Hidens).
  exists m. simpl. split_and!; [done|done|by rewrite Htaxa|].
  rewrite remap_scan_map in Hscan.
  - rewrite take_0, drop_0 in Hscan. simpl in Hscan. injection Hscan as <-.
    by rewrite Hidens.
  - lia.
  - rewrite drop_0, Hidens. apply Forall_forall.
    intros iden [Hnot Hin]%list_elem_of_filter.
    destruct Hm as (_ & _ & Hmap & _). unfold remappable. case_decide.
    + by apply Hmap.
    + rewrite lookup_fmap. apply fmap_is_Some, index_by_is_Some. auto.
Qed.

Lemma set_rank_level_as_leaf_level_integrity (leaf : pyval)
    (s s' : Store Old.Taxon) :
  referential_integrity Old.taxon_id s →
  NoDup (Old.taxon_id <$> taxa s) →
  Old.set_rank_level_as_leaf_level leaf s = Done s' →
  referential_integrity Old.taxon_id s'.
Proof.
  intros Hs Hnd Hrun.
  apply set_rank_level_as_leaf_level_Done in Hrun
    as (m & (Hlow & Hsub & Hmap & Htarget) & Hobs & Htaxa & Hidens);
    [|intros iden Hin; by destruct (Hs iden Hin)].
  intros iden'. rewrite Hidens, Hobs, Htaxa.
  intros (iden & -> & [Hnot Hin]%list_elem_of_filter)%list_elem_of_fmap.
  destruct (Hs iden Hin) as [Hob Htax].
  unfold remap_identification.
  destruct (decide (iden_taxon_id iden ∈ _)) as [Hlower|Hlower].
  - destruct (Hmap _ Hlower Hnot) as [target Hk]. rewrite Hk. simpl.
    split; [done|]. destruct (Htarget _ _ Hk) as [Hin' Hrank].
    apply list_elem_of_fmap_2.
    assert (Old.taxon_id target ∉ Old.taxa_ids_at_lower_rank m) as Hup.
    { intros (t & Ht & Hid & Hlt)%Hlow.
      assert (t = target) as ->.
      { eapply NoDup_fmap_eq; eauto. }
      congruence. }
    rewrite !list_elem_of_filter. split_and!; [done|set_solver|done].
  - split; [done|].
    apply list_elem_of_fmap in Htax as (t & Hid & Ht). rewrite Hid in *.
    apply list_elem_of_fmap_2. by rewrite !list_elem_of_filter.
Qed.

(** ** [keep_one_identification_per_user_per_observation] and
    [keep_current_identifications] *)

Section identification_filters.
Context {T : Type}.
Implicit Types s : Store T.
Variable strptime : string → string → option Z.

Lemma stamp_Done (fmt1 fmt2 : string) (iden iden' : Identification) :
  stamp strptime fmt1 fmt2 iden = Done iden' ↔
  ∃ cat, parse_created_at strptime fmt1 fmt2 (iden_created_at iden) = Done cat
         ∧ iden' = set_iden_time cat iden.
Proof.
  unfold stamp. rewrite bind_Done. split.
  - intros (cat & ? & [= <-]). eauto.
  - intros (cat & ? & ->). eauto.
Qed.

Lemma keep_one_Done (fmt1 fmt2 : string) (keep_index : Z) s s' :
  keep_one_identification_per_user_per_observation strptime fmt1 fmt2
    keep_index s = Done s' ↔
  ∃ groups iden_ids_to_keep stamped,
    group_by_observation (observations s) (identifications s) = Done groups
    ∧ foldlM (pick_for_observation strptime fmt1 fmt2 keep_index) ∅ groups
      = Done iden_ids_to_keep
    ∧ mapM_result (stamp strptime fmt1 fmt2) (identifications s) = Done stamped
    ∧ s' = replace_identifications
             (filter (λ iden, iden_id iden ∈ iden_ids_to_keep) stamped) s.
Proof.
  unfold keep_one_identification_per_user_per_observation. split.
  - intros (groups & ? & (keep & ? & (stamped & ? & [= <-])%bind_Done)
              %bind_Done)%bind_Done.
    by exists groups, keep, stamped.
  - intros (groups & keep & stamped & Hg & Hk & Hst & ->).
    rewrite Hg. simpl. rewrite Hk. simpl. by rewrite Hst.
Qed.

Lemma keep_one_integrity (taxon_key : T → pyid) (fmt1 fmt2 : string)
    (keep_index : Z) s s' :
  referential_integrity taxon_key s →
  keep_one_identification_per_user_per_observation strptime fmt1 fmt2
    keep_index s = Done s' →
  referential_integrity taxon_key s'.
Proof.
  intros Hs (groups & keep & stamped & _ & _ & Hst & ->)%keep_one_Done.
  apply replace_identifications_integrity; [done|].
  intros iden' [_ Hin]%list_elem_of_filter.
  apply mapM_result_inv in Hst.
  apply list_elem_of_lookup in Hin as [i Hi].
  destruct (Forall2_lookup_r _ _ _ _ _ Hst Hi) as (iden & Hiden & Hstamp).
  apply stamp_Done in Hstamp as (cat & _ & ->).
  exists iden. split; [by eapply list_elem_of_lookup_2 | done].
Qed.

Lemma keep_current_identifications_Done s s' :
  keep_current_identifications s = Done s' →
  s' = replace_identifications
         (filter (λ iden, is_current iden) (identifications s)) s.
Proof.
  unfold keep_current_identifications.
  by intros (? & _ & (? & _ & [= <-])%bind_Done)%bind_Done.
Qed.

Lemma keep_current_identifications_integrity (taxon_key : T → pyid) s s' :
  referential_integrity taxon_key s →
  keep_current_identifications s = Done s' →
  referential_integrity taxon_key s'.
Proof.
  intros Hs ->%keep_current_identifications_Done.
  apply replace_identifications_integrity; [done|].
  intros iden [_ Hin]%list_elem_of_filter. by exists iden.
Qed.

Lemma enforce_max_observations_Done random_sample (n : option Z) s s' :
  enforce_max_observations random_sample n s = Done s' →
  s' = s ∨ ∃ obs, s' = replace_observations obs s.
Proof.
  unfold enforce_max_observations. repeat case_match; try done.
  - intros [= <-]. by left.
  - intros [= <-]. right. eauto.
  - intros [= <-]. by left.
Qed.

End identification_filters.

Lemma replace_taxa_integrity (s : Store Old.Taxon) (taxa' : list Old.Taxon)
    (idens' : list Identification) :
  referential_integrity Old.taxon_id s →
  (∀ iden, iden ∈ idens' →
     iden ∈ identifications s ∧ iden_taxon_id iden ∈ Old.taxon_id <$> taxa') →
  referential_integrity Old.taxon_id (Old.replace_taxa taxa' idens' s).
Proof.
  intros Hs Hsub iden Hin. simpl in *.
  destruct (Hsub iden Hin) as [Hin' Htax]. split; [by apply Hs | done].
Qed.

Lemma run_integrity strptime random_sample (op : Pipeline.operation)
    (s s' : Store Old.Taxon) :
  referential_integrity Old.taxon_id s →
  (∀ leaf, op = Pipeline.SetRankLevelAsLeafLevel leaf →
           NoDup (Old.taxon_id <$> taxa s)) →
  Pipeline.run strptime random_sample op s = Done s' →
  referential_integrity Old.taxon_id s'.
Proof.
  intros Hs Hnd. destruct op; simpl.
  - intros [= <-]. by apply replace_observations_integrity.
  - by apply keep_one_integrity.
  - by apply keep_current_identifications_integrity.
  - intros [= <-]. by apply replace_observations_integrity.
  - intros [= <-]. apply replace_taxa_integrity; [done|].
    intros iden [Hnot Hin]%list_elem_of_filter. split; [done|].
    destruct (Hs iden Hin) as [_ (t & Hid & Ht)%list_elem_of_fmap].
    apply list_elem_of_fmap. exists t. split; [done|].
    apply list_elem_of_filter. by rewrite <- Hid.
  - intros [_ ->]%enforce_min_identifications_Done.
    by apply replace_observations_integrity.
  - intros [-> | [obs ->]]%enforce_max_observations_Done; [done|].
    by apply replace_observations_integrity.
  - apply set_rank_level_as_leaf_level_integrity; [done | by eapply Hnd].
  - intros [= <-]. apply replace_taxa_integrity; [done|].
    intros iden [Hidx Hin]%list_elem_of_filter. split; [done|].
    by apply index_by_is_Some.
Qed.

(** ** Distinct users *)

Lemma size_list_to_set_le (l : list pyid) :
  size (list_to_set (C := gset pyid) l) ≤ length l.
Proof.
  induction l as [|x l IH].
  { rewrite list_to_set_nil, size_empty. simpl. lia. }
  rewrite list_to_set_cons, length_cons, size_union_alt, size_singleton.
  assert (list_to_set l ∖ {[x]} ⊆ list_to_set (C := gset pyid) l) as Hsub
    by set_solver.
  apply subseteq_size in Hsub. lia.
Qed.

Lemma size_list_to_set_NoDup (l : list pyid) :
  size (list_to_set (C := gset pyid) l) = length l ↔ NoDup l.
Proof.
  split; [|apply size_list_to_set].
  induction l as [|x l IH]; [constructor|].
  rewrite list_to_set_cons, length_cons.
  intros Hsize. pose proof (size_list_to_set_le l) as Hle.
  destruct (decide (x ∈ l)) as [Hin|Hin].
  - assert ({[x]} ∪ list_to_set l = list_to_set (C := gset pyid) l) as Heq
      by set_solver.
    rewrite Heq in Hsize. lia.
  - rewrite size_union, size_singleton in Hsize by set_solver.
    constructor; [done|]. apply IH. lia.
Qed.

Lemma users_distinct_NoDup (idens : list Identification) :
  users_distinct idens ↔ NoDup (iden_user_id <$> idens).
Proof.
  unfold users_distinct. rewrite bool_decide_spec, <- size_list_to_set_NoDup.
  by rewrite length_fmap.
Qed.

Lemma foldlM_check_users (d : odict pyid (list Identification)) :
  foldlM (λ (_ : unit) (group : pyid * list Identification),
            if users_distinct group.2 then Done () else Raise AssertionError)
         () d
  = if decide (Forall (λ group : pyid * list Identification,
                         NoDup (iden_user_id <$> group.2)) d)
    then Done () else Raise AssertionError.
Proof.
  induction d as [|group d IH]; cbn [foldlM].
  - by rewrite decide_True by constructor.
  - destruct (users_distinct group.2) eqn:Hu; simpl.
    + apply Is_true_true, users_distinct_NoDup in Hu. rewrite IH.
      destruct (decide (Forall _ d)).
      * by rewrite decide_True by (by constructor).
      * rewrite decide_False; [done|]. by intros [_ ?]%Forall_cons.
    + rewrite decide_False; [done|]. intros [Hnd _]%Forall_cons.
      apply users_distinct_NoDup, Is_true_true in Hnd. congruence.
Qed.

Lemma lookup_two_split {A : Type} (l : list A) (p q : nat) (a b : A) :
  p < q → l !! p = Some a → l !! q = Some b →
  ∃ l1 l2 l3, l = l1 ++ a :: l2 ++ b :: l3.
Proof.
  intros Hpq Hp Hq.
  exists (take p l), (take (q - S p) (drop (S p) l)), (drop (S q) l).
  rewrite <- (take_drop_middle l p a Hp) at 1. do 2 f_equal.
  assert (drop (S p) l !! (q - S p) = Some b) as Hq'.
  { rewrite lookup_drop. rewrite <- Hq. f_equal. lia. }
  rewrite <- (take_drop_middle _ _ _ Hq') at 1. do 2 f_equal.
  rewrite drop_drop. f_equal. lia.
Qed.

Section keep_current_identifications.
Context {T : Type}.
Implicit Types s : Store T.

(** The outcome of [keep_current_identifications]: a [KeyError] for a current
    identification of an unknown observation; otherwise an [AssertionError]
    when the current identifications of some observation repeat a user; and
    otherwise the store with its current identifications. *)
Lemma keep_current_identifications_spec s :
  let current := filter (λ iden, is_current iden) (identifications s) in
  keep_current_identifications s
  = if decide (Forall (λ iden, iden_observation_id iden
                               ∈ first_occurrences (ob_id <$> observations s))
                      current)
    then if decide (Forall (λ k, NoDup (iden_user_id <$>
                                         idens_of_observation k current))
                           (first_occurrences (ob_id <$> observations s)))
         then Done (replace_identifications current s)
         else Raise AssertionError
    else Raise KeyError.
Proof.
  intros current. unfold keep_current_identifications. fold current.
  cbn [observations identifications replace_identifications].
  rewrite group_by_observation_spec.
  destruct (decide (Forall _ current)) as [Hall|Hall]; [|done]. simpl.
  rewrite foldlM_check_users.
  destruct (decide (Forall _ (first_occurrences _))) as [Hnd|Hnd].
  - rewrite decide_True; [done|]. unfold od_table.
    apply Forall_fmap. eapply Forall_impl; [done|]. by intros k ?.
  - rewrite decide_False; [done|]. intros Hnd'. apply Hnd.
    unfold od_table in Hnd'. rewrite Forall_fmap in Hnd'.
    eapply Forall_impl; [exact Hnd'|]. by intros k ?.
Qed.

Lemma keep_current_identifications_duplicate s (p q : nat)
    (a b : Identification) :
  identifications s !! p = Some a →
  identifications s !! q = Some b →
  p ≠ q →
  is_current a → is_current b →
  iden_observation_id a = iden_observation_id b →
  iden_user_id a = iden_user_id b →
  (keep_current_identifications s = Raise AssertionError
   ∨ keep_current_identifications s = Raise KeyError)
  ∧ ((∀ iden, iden ∈ identifications s → is_current iden →
        iden_observation_id iden ∈ ob_id <$> observations s) →
     keep_current_identifications s = Raise AssertionError).
Proof.
  intros Hp Hq Hpq Ha Hb Hob Hu.
  assert (∃ l1 x l2 y l3, identifications s = l1 ++ x :: l2 ++ y :: l3
            ∧ is_current x ∧ is_current y
            ∧ iden_observation_id y = iden_observation_id x
            ∧ iden_user_id y = iden_user_id x)
    as (l1 & x & l2 & y & l3 & Hl & Hx & Hy & Hobxy & Huxy).
  { destruct (decide (p < q)).
    - destruct (lookup_two_split (identifications s) p q a b)
        as (l1 & l2 & l3 & ?); [done..|].
      by exists l1, a, l2, b, l3.
    - destruct (lookup_two_split (identifications s) q p b a)
        as (l1 & l2 & l3 & ?); [lia|done..|].
      by exists l1, b, l2, a, l3. }
  rewrite keep_current_identifications_spec.
  assert (x ∈ identifications s) as Hxin by (rewrite Hl; set_solver).
  assert (∀ k, k = iden_observation_id x →
            ¬ NoDup (iden_user_id <$> idens_of_observation k
               (filter (λ iden, is_current iden) (identifications s))))
    as Hdup.
  { intros k ->. unfold idens_of_observation.
    rewrite Hl, !filter_app, !filter_cons_True, !filter_app, !filter_cons_True
      by done.
    rewrite !fmap_app, !fmap_cons, !fmap_app, !fmap_cons, Huxy.
    intros (_ & _ & Hnd)%NoDup_app.
    apply NoDup_cons in Hnd as [Hnot _]. set_solver. }
  split.
  - destruct (decide (Forall _ (filter _ _))) as [Hall|]; [|by right].
    left. rewrite decide_False; [done|]. intros Hnd.
    apply (Hdup (iden_observation_id x) eq_refl).
    apply (proj1 (Forall_forall _ _) Hnd).
    apply (proj1 (Forall_forall _ _) Hall x). by apply list_elem_of_filter.
  - intros Hres. rewrite decide_True.
    + rewrite decide_False; [done|]. intros Hnd.
      apply (Hdup (iden_observation_id x) eq_refl).
      apply (proj1 (Forall_forall _ _) Hnd).
      apply first_occurrences_spec. by apply Hres.
    + apply Forall_forall. intros iden [? ?]%list_elem_of_filter.
      apply first_occurrences_spec. by apply Hres.
Qed.

Lemma keep_current_identifications_distinct s :
  (∀ iden, iden ∈ identifications s → is_current iden →
     iden_observation_id iden ∈ ob_id <$> observations s) →
  (∀ ob, ob ∈ observations s →
     NoDup (iden_user_id <$>
              filter (λ iden, is_current iden
                              ∧ iden_observation_id iden = ob_id ob)
                     (identifications s))) →
  keep_current_identifications s
  = Done (replace_identifications
            (filter (λ iden, is_current iden) (identifications s)) s).
Proof.
  intros Hres Hnd. rewrite keep_current_identifications_spec.
  rewrite decide_True.
  - rewrite decide_True; [done|]. apply Forall_forall.
    intros k (ob & -> & Hob)%first_occurrences_spec%list_elem_of_fmap.
    unfold idens_of_observation. rewrite list_filter_filter.
    erewrite list_filter_iff; [by apply Hnd|]. naive_solver.
  - apply Forall_forall. intros iden [? ?]%list_elem_of_filter.
    apply first_occurrences_spec. by apply Hres.
Qed.

End keep_current_identifications.

(** ** The per-user groups and the sort *)

Lemma group_by_user_acc (ks : list pyid) (g : pyid → list Identification)
    (idens : list Identification) :
  NoDup ks → (∀ u, u ∉ ks → g u = []) →
  foldl (λ d iden,
           od_set (iden_user_id iden)
                  (default [] (od_get (iden_user_id iden) d) ++ [iden]) d)
        (od_table ks g) idens
  = od_table (foldl add_new ks (iden_user_id <$> idens))
             (λ u, g u ++ idens_of_user u idens).
Proof.
  revert ks g. induction idens as [|iden idens IH]; intros ks g Hks Hg; simpl.
  - apply od_table_ext. intros u _. unfold idens_of_user.
    by rewrite filter_nil, app_nil_r.
  - rewrite od_get_table. unfold add_new at 2.
    destruct (decide (iden_user_id iden ∈ ks)) as [Hin|Hin]; simpl.
    + rewrite od_set_table by done. rewrite IH; [|done|].
      * apply od_table_ext. intros u _. unfold idens_of_user.
        rewrite filter_cons. destruct (decide (u = iden_user_id iden)) as [->|].
        -- rewrite decide_True by done. by rewrite <- app_assoc.
        -- by rewrite decide_False by done.
      * intros u Hu. rewrite decide_False by set_solver. by apply Hg.
    + rewrite od_set_table_new by done. rewrite IH.
      * apply od_table_ext. intros u _. unfold idens_of_user.
        rewrite filter_cons. destruct (decide (u = iden_user_id iden)) as [->|].
        -- rewrite decide_True by done. by rewrite Hg.
        -- by rewrite decide_False by done.
      * apply NoDup_app. split_and!; [done|set_solver|apply NoDup_singleton].
      * intros u Hu. rewrite decide_False by set_solver. apply Hg. set_solver.
Qed.

Lemma group_by_user_table (idens : list Identification) :
  group_by_user idens
  = od_table (first_occurrences (iden_user_id <$> idens))
             (λ u, idens_of_user u idens).
Proof.
  unfold group_by_user, first_occurrences.
  change (@nil (pyid * list Identification))
    with (od_table (@nil pyid) (λ _ : pyid, @nil Identification)).
  rewrite group_by_user_acc; [done|constructor|done].
Qed.

Lemma elem_of_insert_by_time (x y : Identification) (l : list Identification) :
  y ∈ insert_by_time x l ↔ y = x ∨ y ∈ l.
Proof.
  induction l as [|z l IH]; simpl; [set_solver|].
  case_decide; [set_solver|]. rewrite !elem_of_cons, IH. naive_solver.
Qed.

Lemma elem_of_sort_by_time (y : Identification) (l : list Identification) :
  y ∈ sort_by_time l ↔ y ∈ l.
Proof.
  induction l as [|x l IH]; simpl; [done|].
  rewrite elem_of_insert_by_time, IH. set_solver.
Qed.

(** The head of the sorted list is an earliest element. *)
Lemma head_sort_by_time (l : list Identification) :
  l ≠ [] →
  ∃ w, head (sort_by_time l) = Some w ∧ w ∈ l
       ∧ ∀ y, y ∈ l → (time_of w ≤ time_of y)%Z.
Proof.
  induction l as [|x l IH]; [done|]. intros _. simpl.
  destruct l as [|x' l'].
  - exists x. simpl. split_and!; [done|set_solver|].
    intros y ->%list_elem_of_singleton. lia.
  - destruct IH as (w & Hw & Hin & Hmin); [done|].
    destruct (sort_by_time (x' :: l')) as [|z zs] eqn:Hsort; [done|].
    injection Hw as ->. simpl. case_decide as Hle.
    + exists x. split_and!; [done|set_solver|].
      intros y [->|Hy]%elem_of_cons; [lia|]. specialize (Hmin y Hy). lia.
    + exists w. split_and!; [done|set_solver|].
      intros y [->|Hy]%elem_of_cons; [lia|]. by apply Hmin.
Qed.

Lemma py_index_0 {A : Type} (l : list A) :
  py_index l 0 = match head l with
                 | Some x => Done x
                 | None => Raise IndexError
                 end.
Proof. unfold py_index. simpl. by rewrite head_lookup. Qed.

(** ** Folds that collect a set *)

Lemma foldlM_union {A : Type} (H : A → result (gset pyid))
    (f : gset pyid → A → result (gset pyid)) (l : list A) (acc : gset pyid) :
  (∀ acc x, f acc x = Y ← H x; Done (acc ∪ Y)) →
  foldlM f acc l = Ys ← mapM_result H l; Done (acc ∪ ⋃ Ys).
Proof.
  intros Hf. revert acc. induction l as [|x l IH]; intros acc; simpl.
  - f_equal. set_solver.
  - rewrite Hf. destruct (H x) as [Y|e]; simpl; [|done].
    rewrite IH. destruct (mapM_result H l) as [Ys|e]; simpl; [|done].
    f_equal. set_solver.
Qed.

Lemma mapM_result_union_elem {A : Type} (H : A → result (gset pyid))
    (l : list A) (Ys : list (gset pyid)) (k : pyid) :
  mapM_result H l = Done Ys →
  k ∈ ⋃ Ys ↔ ∃ x Y, x ∈ l ∧ H x = Done Y ∧ k ∈ Y.
Proof.
  intros HF%mapM_result_inv. rewrite elem_of_union_list. split.
  - intros (Y & [i Hi]%list_elem_of_lookup & Hk).
    destruct (Forall2_lookup_r _ _ _ _ _ HF Hi) as (x & Hx & HxY).
    exists x, Y. split; [by eapply list_elem_of_lookup_2 | done].
  - intros (x & Y & [i Hi]%list_elem_of_lookup & HxY & Hk).
    destruct (Forall2_lookup_l _ _ _ _ _ HF Hi) as (Y' & HY' & HxY').
    exists Y'. split; [by eapply list_elem_of_lookup_2 | congruence].
Qed.

Lemma mapM_result_total {A B : Type} (f : A → result B) (l : list A) :
  (∀ x, x ∈ l → ∃ y, f x = Done y) → ∃ ys, mapM_result f l = Done ys.
Proof.
  induction l as [|x l IH]; intros Hf; simpl; [eauto|].
  destruct (Hf x) as [y ->]; [set_solver|].
  destruct IH as [ys ->]; [set_solver|]. simpl. eauto.
Qed.

(** ** The ids kept by [keep_index = 0] *)

Section keep_first.
Variable strptime : string → string → option Z.
Variables fmt1 fmt2 : string.

#[local] Abbreviation st := (stamp_total strptime fmt1 fmt2).
#[local] Abbreviation parses iden :=
  (stamp strptime fmt1 fmt2 iden = Done (stamp_total strptime fmt1 fmt2 iden)).

Lemma stamp_parses (iden iden' : Identification) :
  stamp strptime fmt1 fmt2 iden = Done iden' → parses iden ∧ iden' = st iden.
Proof.
  unfold stamp, stamp_total.
  destruct (parse_created_at _ _ _ _) as [cat|e]; simpl; [|done].
  by intros [= <-].
Qed.

Lemma stamp_total_fields (iden : Identification) :
  iden_id (st iden) = iden_id iden
  ∧ iden_observation_id (st iden) = iden_observation_id iden
  ∧ iden_user_id (st iden) = iden_user_id iden
  ∧ iden_taxon_id (st iden) = iden_taxon_id iden.
Proof. unfold stamp_total. by destruct (parse_created_at _ _ _ _). Qed.

Lemma stamp_total_time (iden : Identification) (cat : Z) :
  parse_created_at strptime fmt1 fmt2 (iden_created_at iden) = Done cat →
  iden_time (st iden) = Some cat ∧ time_of (st iden) = cat.
Proof. unfold stamp_total, time_of. by intros ->. Qed.

Lemma pick_for_user_union (keep_index : Z) (acc : gset pyid)
    (group : pyid * list Identification) :
  pick_for_user strptime fmt1 fmt2 keep_index acc group
  = Y ← winner_set strptime fmt1 fmt2 keep_index group; Done (acc ∪ Y).
Proof.
  unfold pick_for_user, winner_set.
  destruct (mapM_result _ _) as [l|e]; simpl; [|done].
  by destruct (py_index _ _).
Qed.

Lemma pick_for_observation_union (keep_index : Z) (acc : gset pyid)
    (group : pyid * list Identification) :
  pick_for_observation strptime fmt1 fmt2 keep_index acc group
  = Y ← winners_of_observation strptime fmt1 fmt2 keep_index group;
    Done (acc ∪ Y).
Proof.
  unfold pick_for_observation, winners_of_observation.
  rewrite (foldlM_union (winner_set strptime fmt1 fmt2 keep_index))
    by apply pick_for_user_union.
  by destruct (mapM_result _ _).
Qed.

Lemma winner_set_first (u : pyid) (l : list Identification) :
  (∀ iden, iden ∈ l → parses iden) → l ≠ [] →
  ∃ w, head (sort_by_time (st <$> l)) = Some w
       ∧ winner_set strptime fmt1 fmt2 0 (u, l) = Done {[iden_id w]}.
Proof.
  intros Hp Hl. destruct (head_sort_by_time (st <$> l)) as (w & Hw & _).
  { by destruct l. }
  exists w. split; [done|]. unfold winner_set. simpl.
  rewrite (mapM_result_Done _ st) by by apply Forall_forall.
  simpl. by rewrite py_index_0, Hw.
Qed.

Lemma winners_of_observation_first (k : pyid) (l : list Identification) :
  (∀ iden, iden ∈ l → parses iden) →
  ∃ Z, winners_of_observation strptime fmt1 fmt2 0 (k, l) = Done Z
       ∧ ∀ kid, kid ∈ Z ↔
           ∃ j w, j ∈ l
                  ∧ head (sort_by_time (st <$> idens_of_user (iden_user_id j) l))
                    = Some w
                  ∧ kid = iden_id w.
Proof.
  intros Hp. unfold winners_of_observation. simpl.
  rewrite group_by_user_table.
  assert (∀ u, u ∈ first_occurrences (iden_user_id <$> l) →
            ∃ j, j ∈ l ∧ iden_user_id j = u ∧ idens_of_user u l ≠ []) as Hne.
  { intros u (j & -> & Hj)%first_occurrences_spec%list_elem_of_fmap.
    exists j. split_and!; [done..|]. intros Hnil.
    apply (filter_nil_not_elem_of _ _ j) in Hnil; done. }
  assert (∀ u iden, iden ∈ idens_of_user u l → parses iden) as Hpu.
  { intros u iden [_ ?]%list_elem_of_filter. by apply Hp. }
  destruct (mapM_result_total (winner_set strptime fmt1 fmt2 0)
              (od_table (first_occurrences (iden_user_id <$> l))
                        (λ u, idens_of_user u l))) as [Ys HYs].
  { intros x (u & -> & Hu)%list_elem_of_fmap.
    destruct (Hne u Hu) as (j & _ & _ & Hnil).
    destruct (winner_set_first u (idens_of_user u l)) as (w & _ & ->); eauto. }
  rewrite HYs. simpl. eexists. split; [done|]. intros kid.
  rewrite (mapM_result_union_elem _ _ _ _ HYs). split.
  - intros (x & Y & (u & -> & Hu)%list_elem_of_fmap & HY & Hkid).
    destruct (Hne u Hu) as (j & Hj & <- & Hnil).
    destruct (winner_set_first (iden_user_id j)
                (idens_of_user (iden_user_id j) l)) as (w & Hw & HY');
      [by eapply Hpu | done |].
    rewrite HY' in HY. injection HY as <-.
    apply elem_of_singleton in Hkid. by exists j, w.
  - intros (j & w & Hj & Hw & ->).
    assert (iden_user_id j ∈ first_occurrences (iden_user_id <$> l)) as Hu.
    { apply first_occurrences_spec. by apply list_elem_of_fmap_2. }
    destruct (Hne _ Hu) as (_ & _ & _ & Hnil).
    destruct (winner_set_first (iden_user_id j)
                (idens_of_user (iden_user_id j) l)) as (w' & Hw' & HY');
      [by eapply Hpu | done |].
    exists (iden_user_id j, idens_of_user (iden_user_id j) l), {[iden_id w']}.
    split_and!; [|done|].
    + unfold od_table. by apply list_elem_of_fmap_2' with (iden_user_id j).
    + apply elem_of_singleton. congruence.
Qed.

(** The ids that the two nested loops collect for [keep_index = 0]: for each
    identification, the id of the first of the earliest of its group. *)
Lemma keep_first_ids (obs : list Observation) (idens : list Identification) :
  (∀ iden, iden ∈ idens → parses iden) →
  ∃ keep,
    foldlM (pick_for_observation strptime fmt1 fmt2 0) ∅
           (od_table (first_occurrences (ob_id <$> obs))
                     (λ k, idens_of_observation k idens)) = Done keep
    ∧ ∀ kid, kid ∈ keep ↔
        ∃ j w, j ∈ idens
               ∧ iden_observation_id j ∈ ob_id <$> obs
               ∧ head (sort_by_time (st <$> group_of j idens)) = Some w
               ∧ kid = iden_id w.
Proof.
  intros Hp.
  rewrite (foldlM_union (winners_of_observation strptime fmt1 fmt2 0))
    by apply pick_for_observation_union.
  assert (∀ k iden, iden ∈ idens_of_observation k idens → parses iden) as Hpk.
  { intros k iden [_ ?]%list_elem_of_filter. by apply Hp. }
  destruct (mapM_result_total (winners_of_observation strptime fmt1 fmt2 0)
              (od_table (first_occurrences (ob_id <$> obs))
                        (λ k, idens_of_observation k idens))) as [Zs HZs].
  { intros x (k & -> & Hk)%list_elem_of_fmap.
    destruct (winners_of_observation_first k (idens_of_observation k idens))
      as (Z & -> & _); eauto. }
  rewrite HZs. simpl. eexists. split; [done|]. intros kid.
  rewrite elem_of_union, (mapM_result_union_elem _ _ _ _ HZs). split.
  - intros [?%elem_of_empty|(x & Z & (k & -> & Hk)%list_elem_of_fmap & HZ & Hkid)];
      [done|].
    destruct (winners_of_observation_first k (idens_of_observation k idens))
      as (Z' & HZ' & Hmem); [by eapply Hpk|].
    rewrite HZ' in HZ. injection HZ as <-.
    apply Hmem in Hkid as (j & w & [Hobj Hj]%list_elem_of_filter & Hw & ->).
    exists j, w. unfold group_of. rewrite Hobj.
    split_and!; [done| by apply first_occurrences_spec |done|done].
  - intros (j & w & Hj & Hob & Hw & ->). right.
    destruct (winners_of_observation_first (iden_observation_id j)
                (idens_of_observation (iden_observation_id j) idens))
      as (Z & HZ & Hmem); [by eapply Hpk|].
    exists (iden_observation_id j,
            idens_of_observation (iden_observation_id j) idens), Z.
    split_and!; [|done|].
    + unfold od_table.
      apply list_elem_of_fmap_2' with (iden_observation_id j); [|done].
      by apply first_occurrences_spec.
    + apply Hmem. exists j, w. split; [by apply list_elem_of_filter | done].
Qed.

Lemma group_of_same (a b : Identification) (idens : list Identification) :
  same_group a b → group_of a idens = group_of b idens.
Proof. intros [Hob Hu]. unfold group_of. by rewrite Hob, Hu. Qed.

Lemma elem_of_group_of (y j : Identification) (idens : list Identification) :
  y ∈ group_of j idens ↔ y ∈ idens ∧ same_group y j.
Proof.
  unfold group_of, idens_of_user, idens_of_observation, same_group.
  rewrite !list_elem_of_filter. naive_solver.
Qed.

(** The record that [keep_index = 0] selects in the group of [j]. *)
Lemma group_winner (j : Identification) (idens : list Identification) :
  j ∈ idens →
  ∃ i0, i0 ∈ idens ∧ same_group i0 j
        ∧ head (sort_by_time (st <$> group_of j idens)) = Some (st i0)
        ∧ ∀ y, y ∈ idens → same_group y j →
               (time_of (st i0) ≤ time_of (st y))%Z.
Proof.
  intros Hj.
  assert (j ∈ group_of j idens) as Hjg by by apply elem_of_group_of.
  destruct (head_sort_by_time (st <$> group_of j idens))
    as (w & Hw & (i0 & -> & Hi0)%list_elem_of_fmap & Hmin).
  { intros Hnil. apply fmap_nil_inv in Hnil. rewrite Hnil in Hjg.
    by apply elem_of_nil in Hjg. }
  apply elem_of_group_of in Hi0 as [Hi0 Hsame].
  exists i0. split_and!; [done..|].
  intros y Hy Hyj. apply Hmin, list_elem_of_fmap_2. by apply elem_of_group_of.
Qed.

Context {T : Type}.
Implicit Types s : Store T.

Lemma keep_first_inv s s' :
  keep_one_identification_per_user_per_observation strptime fmt1 fmt2 0 s
  = Done s' →
  (∀ iden, iden ∈ identifications s → parses iden)
  ∧ (∀ iden, iden ∈ identifications s →
       iden_observation_id iden ∈ ob_id <$> observations s).
Proof.
  intros (groups & keep & stamped & [Hres _]%group_by_observation_inv & _
          & Hst%mapM_result_inv & _)%keep_one_Done.
  split; [|done]. intros iden [i Hi]%list_elem_of_lookup.
  destruct (Forall2_lookup_l _ _ _ _ _ Hst Hi) as (iden' & _ & Hs).
  by apply stamp_parses in Hs as [? _].
Qed.

(** [keep_index = 0] on a store whose timestamps parse and whose
    identifications belong to observations of the store: the records kept are
    the stamped records whose id is the id of the selected record of some
    group. *)
Lemma keep_first_Done s :
  (∀ iden, iden ∈ identifications s → parses iden) →
  (∀ iden, iden ∈ identifications s →
     iden_observation_id iden ∈ ob_id <$> observations s) →
  ∃ keep : gset pyid,
    keep_one_identification_per_user_per_observation strptime fmt1 fmt2 0 s
    = Done (replace_identifications
              (filter (λ iden, iden_id iden ∈ keep)
                      (st <$> identifications s)) s)
    ∧ ∀ kid, kid ∈ keep ↔
        ∃ j w, j ∈ identifications s
               ∧ head (sort_by_time (st <$> group_of j (identifications s)))
                 = Some w
               ∧ kid = iden_id w.
Proof.
  intros Hp Hres.
  destruct (keep_first_ids (observations s) (identifications s) Hp)
    as (keep & Hkeep & Hmem).
  exists keep. split.
  - apply keep_one_Done. eexists _, keep, _. split_and!; [|done| |done].
    + by apply group_by_observation_Done.
    + apply mapM_result_Done. by apply Forall_forall.
  - intros kid. rewrite Hmem. split.
    + intros (j & w & ? & ? & ? & ?). by exists j, w.
    + intros (j & w & ? & ? & ?). exists j, w. split_and!; auto.
Qed.

End keep_first.

(** ** The prior estimator *)

Lemma community_label_step (s : Store Old.Taxon) (W : gset pyid)
    (acc : list pyid) (iden : Identification) :
  is_Some (ob_id_to_ob s !! iden_observation_id iden) →
  Old.community_label (ob_id_to_ob s) W acc iden
  = Done (acc ++ filter (λ k, k ∈ W)
                        (option_list (community_label_of s iden))).
Proof.
  intros [ob Hob]. unfold Old.community_label, community_label_of.
  rewrite Hob. simpl. destruct (ob_community_taxon_id ob) as [cid|]; simpl.
  - rewrite filter_cons. case_decide; [done|]. by rewrite app_nil_r.
  - by rewrite app_nil_r.
Qed.

Lemma foldlM_community_label (s : Store Old.Taxon) (W : gset pyid)
    (acc : list pyid) (idens : list Identification) :
  (∀ iden, iden ∈ idens → is_Some (ob_id_to_ob s !! iden_observation_id iden)) →
  foldlM (Old.community_label (ob_id_to_ob s) W) acc idens
  = Done (acc ++ filter (λ k, k ∈ W) (omap (community_label_of s) idens)).
Proof.
  revert acc. induction idens as [|iden idens IH]; intros acc Hres.
  - simpl. by rewrite app_nil_r.
  - cbn [foldlM]. rewrite community_label_step by (apply Hres; set_solver).
    simpl. rewrite IH by set_solver. rewrite <- app_assoc. do 2 f_equal.
    destruct (community_label_of s iden); simpl; [|done].
    rewrite !filter_cons. by case_decide.
Qed.

Lemma Counter_acc (ks : list pyid) (g : pyid → Z) (l : list pyid) :
  NoDup ks → (∀ k, k ∉ ks → g k = 0%Z) →
  foldl (λ d k, od_set k (default 0 (od_get k d) + 1)%Z d) (od_table ks g) l
  = od_table (foldl add_new ks l)
             (λ k, (g k + Z.of_nat (length (filter (λ x, x = k) l)))%Z).
Proof.
  revert ks g. induction l as [|x l IH]; intros ks g Hks Hg; simpl.
  - apply od_table_ext. intros k _. lia.
  - rewrite od_get_table. unfold add_new at 2.
    destruct (decide (x ∈ ks)) as [Hin|Hin]; simpl.
    + rewrite od_set_table by done. rewrite IH; [|done|].
      * apply od_table_ext. intros k _. rewrite filter_cons.
        destruct (decide (k = x)) as [->|].
        -- rewrite decide_True by done. simpl. lia.
        -- by rewrite decide_False by done.
      * intros k Hk. rewrite decide_False by set_solver. by apply Hg.
    + rewrite od_set_table_new by done. rewrite IH.
      * apply od_table_ext. intros k _. rewrite filter_cons.
        destruct (decide (k = x)) as [->|].
        -- rewrite decide_True by done. rewrite Hg by done. simpl. lia.
        -- by rewrite decide_False by done.
      * apply NoDup_app. split_and!; [done|set_solver|apply NoDup_singleton].
      * intros k Hk. rewrite decide_False by set_solver. apply Hg. set_solver.
Qed.

Lemma Counter_table (l : list pyid) :
  Old.Counter l
  = od_table (first_occurrences l)
             (λ k, Z.of_nat (length (filter (λ x, x = k) l))).
Proof.
  unfold Old.Counter, first_occurrences.
  change (@nil (pyid * Z)) with (od_table (@nil pyid) (λ _ : pyid, 0%Z)).
  rewrite Counter_acc; [done|constructor|done].
Qed.

Lemma fill_missing_acc (ks : list pyid) (g : pyid → Z) (l : list pyid) :
  NoDup ks →
  foldl (λ d k, match od_get k d with
                | None => od_set k 1%Z d
                | Some _ => d
                end) (od_table ks g) l
  = od_table (foldl add_new ks l) (λ k, if decide (k ∈ ks) then g k else 1%Z).
Proof.
  revert ks g. induction l as [|x l IH]; intros ks g Hks; simpl.
  - apply od_table_ext. intros k Hk. by rewrite decide_True.
  - rewrite od_get_table. unfold add_new at 2.
    destruct (decide (x ∈ ks)) as [Hin|Hin]; [by apply IH|].
    rewrite od_set_table_new by done. rewrite IH.
    + apply od_table_ext. intros k _.
      destruct (decide (k = x)) as [->|Hne].
      * rewrite decide_True by set_solver. by rewrite decide_False.
      * destruct (decide (k ∈ ks)).
        -- by rewrite decide_True by set_solver.
        -- by rewrite decide_False by set_solver.
    + apply NoDup_app. split_and!; [done|set_solver|apply NoDup_singleton].
Qed.

Lemma count_community_labels (s : Store Old.Taxon) (W : gset pyid) (k : pyid)
    (idens : list Identification) :
  k ∈ W →
  length (filter (λ x, x = k)
            (filter (λ k, k ∈ W) (omap (community_label_of s) idens)))
  = length (filter (λ iden, community_label_of s iden = Some k) idens).
Proof.
  intros Hk. induction idens as [|iden idens IH]; [done|].
  rewrite (filter_cons (λ iden, community_label_of s iden = Some k)).
  cbn [omap list_omap].
  destruct (community_label_of s iden) as [cid|].
  - rewrite filter_cons. destruct (decide (cid ∈ W)) as [HW|HW].
    + rewrite filter_cons. destruct (decide (cid = k)) as [->|Hne].
      * rewrite decide_True by done. rewrite !length_cons. by f_equal.
      * by rewrite decide_False by congruence.
    + rewrite decide_False; [done|]. by intros [= ->].
  - by rewrite decide_False.
Qed.

Lemma sum_Z_ge (g : pyid → Z) (ks : list pyid) :
  (∀ k, k ∈ ks → (1 ≤ g k)%Z) → (Z.of_nat (length ks) ≤ sum_Z (g <$> ks))%Z.
Proof.
  unfold sum_Z. induction ks as [|k ks IH]; intros Hg; [simpl; lia|].
  rewrite fmap_cons. cbn [foldr length].
  assert (1 ≤ g k)%Z as Hk by (apply Hg; set_solver).
  assert (Z.of_nat (length ks) ≤ foldr Z.add 0 (g <$> ks))%Z as Hks
    by (apply IH; set_solver).
  lia.
Qed.

Lemma sum_Z_elem (cs : list Z) (c : Z) :
  (∀ x, x ∈ cs → (0 ≤ x)%Z) → c ∈ cs → (c ≤ sum_Z cs)%Z.
Proof.
  unfold sum_Z. induction cs as [|x cs IH]; intros Hpos Hc.
  { by apply elem_of_nil in Hc. }
  cbn [foldr].
  assert (0 ≤ x)%Z by (apply Hpos; set_solver).
  assert (0 ≤ foldr Z.add 0 cs)%Z as Hsum.
  { clear IH Hc. induction cs as [|y cs IH]; simpl; [lia|].
    assert (0 ≤ y)%Z by (apply Hpos; set_solver).
    assert (0 ≤ foldr Z.add 0 cs)%Z; [|lia].
    apply IH. intros z Hz. apply Hpos. set_solver. }
  apply elem_of_cons in Hc as [->|Hc]; [lia|].
  assert (c ≤ foldr Z.add 0 cs)%Z; [|lia].
  apply IH; [|done]. intros z Hz. apply Hpos. set_solver.
Qed.

Lemma od_values_table {K V : Type} (ks : list K) (g : K → V) :
  od_values (od_table ks g) = g <$> ks.
Proof.
  unfold od_values, od_table. rewrite <- list_fmap_compose.
  by apply list_fmap_ext.
Qed.

Lemma smoothed_count_pos (s : Store Old.Taxon) (k : pyid) :
  (1 ≤ smoothed_count s k)%Z.
Proof. unfold smoothed_count, community_count. case_decide; lia. Qed.

(** The mapping that [estimate_taxa_priors] returns: its keys are the working
    set, each with its smoothed count over the total. *)
Lemma estimate_taxa_priors_table (include_taxa_ids : option (list pyid))
    (s : Store Old.Taxon) :
  (∀ iden, iden ∈ identifications s →
     is_Some (ob_id_to_ob s !! iden_observation_id iden)) →
  ∃ ks, NoDup ks
    ∧ (∀ k, k ∈ ks ↔ k ∈ working_set include_taxa_ids s)
    ∧ Old.estimate_taxa_priors include_taxa_ids s
      = Done (od_table ks
                (λ k, py_float_of_int (smoothed_count s k)
                      / py_float_of_int (sum_Z (smoothed_count s <$> ks)))%float).
Proof.
  intros Hres. unfold Old.estimate_taxa_priors.
  change (match include_taxa_ids with
          | Some ids => list_to_set (iden_taxon_id <$> identifications s)
                        ∪ list_to_set ids
          | None => list_to_set (iden_taxon_id <$> identifications s)
          end) with (working_set include_taxa_ids s).
  set (W := working_set include_taxa_ids s).
  rewrite foldlM_community_label by done. simpl.
  set (cids := filter (λ k, k ∈ W) _).
  unfold Old.fill_missing. rewrite Counter_table.
  rewrite fill_missing_acc by apply first_occurrences_spec.
  destruct (foldl_add_new (first_occurrences cids) (elements W))
    as [Hnd Hin]; [apply first_occurrences_spec|].
  set (ks := foldl add_new (first_occurrences cids) (elements W)) in *.
  assert (∀ k, k ∈ ks ↔ k ∈ W) as HW.
  { intros k. rewrite Hin, elem_of_elements, elem_of_first_occurrences.
    split; [|by right]. intros [Hk|]; [|done].
    by apply list_elem_of_filter in Hk as [? _]. }
  exists ks. split_and!; [done..|].
  erewrite (od_table_ext ks _ (smoothed_count s)).
  2:{ intros k Hk%HW. unfold smoothed_count, community_count.
      rewrite <- (count_community_labels s W k) by done. fold cids.
      destruct (decide (k ∈ first_occurrences cids)) as [Hc|Hc].
      - rewrite decide_False; [done|]. rewrite elem_of_first_occurrences in Hc.
        destruct (filter (λ x, x = k) cids) eqn:Hnil; simpl; [|lia].
        by apply (filter_nil_not_elem_of _ _ k) in Hnil.
      - rewrite decide_True; [done|].
        rewrite (filter_none (λ x, x = k)); [done|].
        apply Forall_forall. intros x Hx ->. apply Hc.
        by rewrite elem_of_first_occurrences. }
  rewrite od_values_table. fold (sum_Z (smoothed_count s <$> ks)).
  clearbody ks. set (total := sum_Z (smoothed_count s <$> ks)).
  assert (ks ≠ [] → 1 ≤ total)%Z as Htotal.
  { pose proof (sum_Z_ge (smoothed_count s) ks
                  (λ k _, smoothed_count_pos s k)) as Hge.
    fold total in Hge. destruct ks; [done|]. simpl in Hge. lia. }
  clearbody total. destruct ks as [|k0 ks0]; [done|].
  specialize (Htotal ltac:(done)).
  rewrite (mapM_result_Done _
             (λ item : pyid * Z,
                (item.1, (py_float_of_int item.2 / py_float_of_int total)%float))).
  - f_equal. unfold od_table. rewrite <- list_fmap_compose. done.
  - apply Forall_forall. intros [k c] _. unfold Old.py_truediv. simpl.
    by rewrite decide_False by lia.
Qed.

(** ** The dataset assembler *)

Lemma od_set_new {K V : Type} `{EqDecision K} (k : K) (v : V) (d : odict K V) :
  k ∉ od_keys d → od_set k v d = d ++ [(k, v)].
Proof.
  induction d as [|[k' v'] d IH]; simpl; [done|]. intros Hk.
  rewrite decide_False by set_solver. f_equal. apply IH. set_solver.
Qed.

Lemma foldl_od_set_fresh (acc : odict pyid nat) (l : list (nat * pyid)) :
  NoDup (od_keys acc ++ l.*2) →
  foldl (λ d item, od_set item.2 item.1 d) acc l
  = acc ++ ((λ item : nat * pyid, (item.2, item.1)) <$> l).
Proof.
  revert acc. induction l as [|[i k] l IH]; intros acc Hnd; simpl.
  - by rewrite app_nil_r.
  - simpl in Hnd. rewrite od_set_new.
    + rewrite IH; [by rewrite <- app_assoc|].
      unfold od_keys. rewrite fmap_app. simpl.
      by rewrite <- app_assoc.
    + apply NoDup_app in Hnd as (_ & Hdisj & _). intros Hk.
      apply (Hdisj k Hk). set_solver.
Qed.

(** The i-th key of the priors gets the label i. *)
Lemma enumerate_labels_NoDup (leaf_taxa_priors : odict pyid float) :
  NoDup (od_keys leaf_taxa_priors) →
  Old.enumerate_labels leaf_taxa_priors
  = imap (λ label taxon_id, (taxon_id, label)) (od_keys leaf_taxa_priors).
Proof.
  intros Hnd. unfold Old.enumerate_labels.
  rewrite foldl_od_set_fresh.
  - simpl. by rewrite fmap_imap.
  - simpl. rewrite fmap_imap. rewrite (imap_ext _ (const id)) by done.
    by rewrite imap_const, list_fmap_id.
Qed.

Lemma create_dataset_info (leaf_taxa_priors : odict pyid float)
    (s : Store Old.Taxon) (d : Old.Dataset) :
  NoDup (od_keys leaf_taxa_priors) →
  Old.create_dataset leaf_taxa_priors s = Done d →
  Old.num_classes (Old.dataset d) = length leaf_taxa_priors
  ∧ Old.inat_taxon_id_to_class_label (Old.dataset d)
    = imap (λ label taxon_id, (taxon_id, label)) (od_keys leaf_taxa_priors)
  ∧ Old.global_class_priors (Old.dataset d) = od_values leaf_taxa_priors.
Proof.
  intros Hnd. unfold Old.create_dataset.
  intros (imgs & _ & (ans & _ & [= <-])%bind_Done)%bind_Done. simpl.
  rewrite enumerate_labels_NoDup by done.
  split_and!; [|done..]. unfold od_keys. by rewrite length_imap, length_fmap.
Qed.

Lemma tax_create_dataset_info (leaf_taxa_priors : odict pyid float)
    (s : Store Tax.Taxon) (d : Tax.Dataset) :
  Tax.create_dataset leaf_taxa_priors s = Done d →
  Tax.num_classes (Tax.dataset d) = length leaf_taxa_priors
  ∧ foldlM Tax.add_label [] (taxa s)
    = Done (Tax.inat_taxon_id_to_class_label (Tax.dataset d))
  ∧ Tax.global_class_priors (Tax.dataset d) = leaf_taxa_priors.
Proof.
  unfold Tax.create_dataset.
  by intros (labels & -> & (ans & _ & [= <-])%bind_Done)%bind_Done.
Qed.

(** ** The collapse of the three-level taxonomy *)

Lemma collapse_three_levels (num : Z → pyval) (t3 t2 t1 : Old.Taxon)
    (s : Store Old.Taxon) :
  num = as_int ∨ num = as_float →
  three_levels num t3 t2 t1 →
  taxa s = [t3; t2; t1] →
  (∀ iden, iden ∈ identifications s →
     iden_taxon_id iden ∈ Old.taxon_id <$> taxa s) →
  ∃ s', Old.set_rank_level_as_leaf_level (VInt 20) s = Done s'
        ∧ identifications s' = species_to_genus <$> identifications s
        ∧ taxa s' = [t2; t1]
        ∧ observations s' = observations s.
Proof.
  intros Hnum (Hid3 & Hr3 & Ha3 & Hid2 & Hr2 & Ha2 & Hid1 & Hr1) Htaxa Hres.
  destruct t3 as [id3 a3 r3 act3], t2 as [id2 a2 r2 act2],
    t1 as [id1 a1 r1 act1]. simpl in *. subst.
  unfold Old.set_rank_level_as_leaf_level. rewrite Htaxa in *.
  destruct (foldlM _ _ _) as [m|e] eqn:Hm.
  2:{ destruct Hnum as [-> | ->]; vm_compute in Hm; discriminate. }
  assert (Old.taxa_ids_at_lower_rank m = {[IdInt 3]}
          ∧ Old.taxa_ids_not_remapped m = ∅
          ∧ Old.taxon_id_to_remapped_taxon m !! IdInt 3
            = Some {| Old.taxon_id := IdInt 2; Old.ancestry := Some "1";
                      Old.rank_level := num 20%Z; Old.is_active := act2 |})
    as (Hlow & Hnr & Hmap).
  { destruct Hnum as [-> | ->]; vm_compute in Hm; injection Hm as <-;
      vm_compute; done. }
  simpl. unfold Old.drop_not_remapped. rewrite Hnr.
  rewrite decide_False by (rewrite size_empty; lia). simpl.
  assert (∀ iden, iden ∈ identifications s →
            remappable m (Old.rank_level <$> index_by Old.taxon_id
               [{| Old.taxon_id := IdInt 3; Old.ancestry := Some "1/2";
                   Old.rank_level := num 10%Z; Old.is_active := act3 |};
                {| Old.taxon_id := IdInt 2; Old.ancestry := Some "1";
                   Old.rank_level := num 20%Z; Old.is_active := act2 |};
                {| Old.taxon_id := IdInt 1; Old.ancestry := a1;
                   Old.rank_level := num 30%Z; Old.is_active := act1 |}]) iden
            ∧ remap_identification m iden = species_to_genus iden) as Hiden.
  { intros iden Hin%Hres. unfold remappable, remap_identification,
      species_to_genus. rewrite Hlow.
    destruct (decide (iden_taxon_id iden = IdInt 3)) as [Heq|Hne].
    - rewrite Heq, !decide_True, Hmap by set_solver. done.
    - rewrite !decide_False by set_solver. split; [|done].
      rewrite lookup_fmap. apply fmap_is_Some, index_by_is_Some. done. }
  rewrite remap_scan_map.
  - simpl. eexists. split; [done|]. simpl. rewrite drop_0, Hlow.
    split_and!; [|idtac|done].
    2:{ rewrite Htaxa, !filter_cons, decide_False by set_solver.
        by rewrite !decide_True by set_solver. }
    apply list_fmap_ext. intros i iden Hi. apply Hiden.
    by eapply list_elem_of_lookup_2.
  - lia.
  - rewrite drop_0. apply Forall_forall. intros iden Hin. by apply Hiden.
Qed.

(** ** The first identification of every group *)

Section keep_first_spec.
Context {T : Type}.
Variable strptime : string → string → option Z.
Variables fmt1 fmt2 : string.
Implicit Types s : Store T.

#[local] Abbreviation st' := (stamp_total strptime fmt1 fmt2).
#[local] Abbreviation parse' iden :=
  (parse_created_at strptime fmt1 fmt2 (iden_created_at iden)).

Lemma parse_stamp (iden : Identification) (cat : Z) :
  parse' iden = Done cat →
  stamp strptime fmt1 fmt2 iden = Done (st' iden)
  ∧ st' iden = set_iden_time cat iden.
Proof. unfold stamp, stamp_total. by intros ->. Qed.

Lemma stamp_parse (iden : Identification) :
  stamp strptime fmt1 fmt2 iden = Done (st' iden) →
  ∃ cat, parse' iden = Done cat.
Proof.
  unfold stamp. destruct (parse' iden) as [cat|e]; simpl; [eauto | done].
Qed.

Lemma same_group_stamp_l (a b : Identification) :
  same_group (st' a) b ↔ same_group a b.
Proof.
  unfold same_group.
  destruct (stamp_total_fields strptime fmt1 fmt2 a) as (_ & -> & -> & _).
  done.
Qed.

Lemma same_group_sym (a b : Identification) : same_group a b → same_group b a.
Proof. by intros [? ?]. Qed.

(** What [keep_index = 0] keeps: one record per group, an earliest one,
    stamped with its time. *)
Lemma keep_first_spec s s' :
  NoDup (iden_id <$> identifications s) →
  keep_one_identification_per_user_per_observation strptime fmt1 fmt2 0 s
  = Done s' →
  observations s' = observations s
  ∧ taxa s' = taxa s
  ∧ (∀ i', i' ∈ identifications s' →
       ∃ i cat, i ∈ identifications s ∧ parse' i = Done cat
                ∧ i' = set_iden_time cat i)
  ∧ (∀ j, j ∈ identifications s →
       ∃ i', i' ∈ identifications s' ∧ same_group i' j)
  ∧ (∀ i1 i2, i1 ∈ identifications s' → i2 ∈ identifications s' →
       same_group i1 i2 → i1 = i2)
  ∧ (∀ i' j cat, i' ∈ identifications s' → j ∈ identifications s →
       same_group i' j → parse' j = Done cat → (time_of i' ≤ cat)%Z)
  ∧ (∀ a b ta tb, a ∈ identifications s → b ∈ identifications s →
       same_group a b → parse' a = Done ta → parse' b = Done tb →
       (ta < tb)%Z → iden_id b ∉ iden_id <$> identifications s').
Proof.
  intros Hnd Hrun.
  destruct (keep_first_inv _ _ _ _ _ Hrun) as [Hp Hres].
  destruct (keep_first_Done strptime fmt1 fmt2 s Hp Hres)
    as (keep & Hrun' & Hmem).
  rewrite Hrun' in Hrun. injection Hrun as <-. simpl.
  set (idens := identifications s) in *.
  assert (∀ i, i ∈ idens →
            iden_id (st' i) ∈ keep ↔
            head (sort_by_time (st' <$> group_of i idens)) = Some (st' i))
    as Hsel.
  { intros i Hi. rewrite Hmem. split.
    - intros (j & w & Hj & Hw & Hid).
      destruct (group_winner strptime fmt1 fmt2 j idens Hj)
        as (i0 & Hi0 & Hsame & Hhead & _).
      rewrite Hhead in Hw. injection Hw as <-.
      destruct (stamp_total_fields strptime fmt1 fmt2 i) as (Hidi & _).
      destruct (stamp_total_fields strptime fmt1 fmt2 i0) as (Hidi0 & _).
      assert (i = i0) as <-.
      { eapply (NoDup_fmap_eq iden_id idens); [done..|congruence]. }
      by rewrite (group_of_same i j).
    - intros Hhead. by exists i, (st' i). }
  assert (∀ i', i' ∈ filter (λ iden, iden_id iden ∈ keep) (st' <$> idens) ↔
            ∃ i, i ∈ idens ∧ i' = st' i
                 ∧ head (sort_by_time (st' <$> group_of i idens))
                   = Some (st' i)) as Hsurv.
  { intros i'. rewrite list_elem_of_filter, list_elem_of_fmap. split.
    - intros (Hk & i & -> & Hi). exists i. split_and!; [done..|].
      by apply Hsel.
    - intros (i & Hi & -> & Hhead). split; [by apply Hsel | by exists i]. }
  assert (∀ i' j cat, i' ∈ filter (λ iden, iden_id iden ∈ keep) (st' <$> idens)
            → j ∈ idens → same_group i' j → parse' j = Done cat →
            (time_of i' ≤ cat)%Z) as Hmin.
  { intros i' j cat (i & Hi & -> & Hhead)%Hsurv Hj Hsame Hcat.
    destruct (group_winner strptime fmt1 fmt2 i idens Hi)
      as (i0 & Hi0 & _ & Hhead0 & Hle).
    rewrite Hhead0 in Hhead. injection Hhead as Heq. rewrite <- Heq.
    destruct (stamp_total_time strptime fmt1 fmt2 j cat Hcat) as [_ <-].
    apply Hle; [done|]. apply same_group_sym.
    by apply (proj1 (same_group_stamp_l _ _)). }
  split_and!; [done|done| | | |done|].
  - intros i' (i & Hi & -> & _)%Hsurv.
    destruct (stamp_parse i (Hp i Hi)) as [cat Hcat].
    exists i, cat. split_and!; [done..|]. by apply parse_stamp.
  - intros j Hj.
    destruct (group_winner strptime fmt1 fmt2 j idens Hj)
      as (i0 & Hi0 & Hsame & Hhead & _).
    exists (st' i0). split; [|by apply (proj2 (same_group_stamp_l _ _))].
    apply Hsurv. exists i0. split_and!; [done..|].
    by rewrite (group_of_same i0 j).
  - intros i1 i2 (a & Ha & -> & Hheada)%Hsurv (b & Hb & -> & Hheadb)%Hsurv
      Hsame.
    apply (proj1 (same_group_stamp_l _ _)), same_group_sym,
      (proj1 (same_group_stamp_l _ _)), same_group_sym in Hsame.
    rewrite (group_of_same a b) in Hheada by done. congruence.
  - intros a b ta tb Ha Hb Hsame Hta Htb Hlt
      (i' & Hid & Hi')%list_elem_of_fmap.
    pose proof Hi' as (i & Hi & -> & _)%Hsurv.
    destruct (stamp_total_fields strptime fmt1 fmt2 i) as (Hidi & _).
    assert (i = b) as ->.
    { eapply (NoDup_fmap_eq iden_id idens); [done..|congruence]. }
    assert (time_of (st' b) ≤ ta)%Z as Hle.
    { eapply (Hmin _ a); [done..| |done].
      apply (proj2 (same_group_stamp_l _ _)). by apply same_group_sym. }
    destruct (stamp_total_time strptime fmt1 fmt2 b tb Htb) as [_ Heq].
    lia.
Qed.

Lemma keep_first_completes s :
  (∀ iden, iden ∈ identifications s → ∃ cat, parse' iden = Done cat) →
  (∀ iden, iden ∈ identifications s →
     iden_observation_id iden ∈ ob_id <$> observations s) →
  ∃ s', keep_one_identification_per_user_per_observation strptime
          fmt1 fmt2 0 s = Done s'.
Proof.
  intros Hp Hres.
  destruct (keep_first_Done strptime fmt1 fmt2 s) as (keep & -> & _);
    [|done|eauto].
  intros iden [cat Hcat]%Hp. by apply parse_stamp in Hcat as [? _].
Qed.

End keep_first_spec.

(** ** The two loops that remove while they iterate

    Both loops are given [length l] steps.  That is enough: more fuel gives
    the same outcome, since the list never grows and the index moves on at
    every step. *)

Lemma list_remove_length (x : Identification) (l l' : list Identification) :
  list_remove x l = Done l' → length l = S (length l').
Proof.
  revert l'. induction l as [|y l IH]; intros l'; simpl; [done|].
  destruct (iden_eqb y x); [by intros [= <-]|].
  intros (r & Hr & [= <-])%bind_Done. simpl. f_equal. by apply IH.
Qed.

Lemma sanity_scan_fuel {T : Type} (taxon_index : gmap pyid T)
    (ob_index : gmap pyid Observation) (fuel fuel' i : nat)
    (l : list Identification) :
  length l ≤ i + fuel → fuel ≤ fuel' →
  sanity_scan taxon_index ob_index fuel' i l
  = sanity_scan taxon_index ob_index fuel i l.
Proof.
  revert fuel' i l. induction fuel as [|fuel IH]; intros fuel' i l Hlen Hle.
  - destruct fuel' as [|fuel']; simpl; [done|].
    by rewrite (proj2 (lookup_ge_None l i)) by lia.
  - destruct fuel' as [|fuel']; [lia|]. simpl.
    destruct (l !! i) as [iden|]; [|done].
    destruct (decide (is_Some (taxon_index !! iden_taxon_id iden))); simpl.
    + destruct (decide (is_Some (ob_index !! iden_observation_id iden))); simpl.
      * apply IH; lia.
      * destruct (list_remove iden l) as [l2|e] eqn:Hl2; simpl; [|done].
        apply list_remove_length in Hl2. apply IH; lia.
    + destruct (list_remove iden l) as [l1|e] eqn:Hl1; simpl; [|done].
      apply list_remove_length in Hl1.
      destruct (decide (is_Some (ob_index !! iden_observation_id iden))); simpl.
      * apply IH; lia.
      * destruct (list_remove iden l1) as [l2|e] eqn:Hl2; simpl; [|done].
        apply list_remove_length in Hl2. apply IH; lia.
Qed.

Lemma remap_scan_fuel (m : Old.Remapping) (ranks : gmap pyid pyval)
    (fuel fuel' i : nat) (l : list Identification) :
  length l ≤ i + fuel → fuel ≤ fuel' →
  Old.remap_scan m ranks fuel' i l = Old.remap_scan m ranks fuel i l.
Proof.
  revert fuel' i l. induction fuel as [|fuel IH]; intros fuel' i l Hlen Hle.
  - destruct fuel' as [|fuel']; simpl; [done|].
    by rewrite (proj2 (lookup_ge_None l i)) by lia.
  - destruct fuel' as [|fuel']; [lia|]. simpl.
    destruct (l !! i) as [iden|]; [|done].
    destruct (decide (iden_taxon_id iden ∈ Old.taxa_ids_at_lower_rank m)).
    + destruct (Old.taxon_id_to_remapped_taxon m !! iden_taxon_id iden);
        [|done].
      apply IH; [rewrite length_insert|]; lia.
    + destruct (decide (is_Some (ranks !! iden_taxon_id iden))).
      * apply IH; lia.
      * destruct (list_remove iden l) as [l'|e] eqn:Hl'; simpl; [|done].
        apply list_remove_length in Hl'. apply IH; lia.
Qed.

(** The remap loop after a removal: in [Examples.three_level_dangling] the
    identification of the unknown taxon 99 is removed, the identification of
    species 3 that follows it is then skipped, and it still names taxon 3
    when the species taxon is deleted. *)
Lemma remap_loop_skips_after_removal :
  ∃ s', Old.set_rank_level_as_leaf_level (VInt 20) Examples.three_level_dangling
        = Done s'
        ∧ identifications s' = [Examples.identification 2 1 2 3 "200" true]
        ∧ Old.taxon_id <$> taxa s' = [IdInt 2; IdInt 1].
Proof. eexists. split; [vm_compute; reflexivity|]. by split. Qed.

(** * The claims *)

(** ** Idempotence *)

(** C7: running [remove_non_active_taxa], [remove_obs_with_no_photos] or
    [enforce_min_identifications] a second time, right after a first run with
    the same argument, returns the store of the first run: the observations,
    identifications and taxa and the three index maps are unchanged. *)
Theorem filters_idempotent (s : Store Old.Taxon) (min_identifications : Z) :
  Old.remove_non_active_taxa (Old.remove_non_active_taxa s)
  = Old.remove_non_active_taxa s
  ∧ Old.remove_obs_with_no_photos (Old.remove_obs_with_no_photos s)
    = Old.remove_obs_with_no_photos s
  ∧ ∀ s1, enforce_min_identifications min_identifications s = Done s1 →
          enforce_min_identifications min_identifications s1 = Done s1.
Proof.
  split_and!.
  - apply remove_non_active_taxa_idem.
  - apply remove_obs_with_no_photos_idem.
  - apply enforce_min_identifications_idem.
Qed.

Lemma filters_idempotent_witness :
  ∃ s1, enforce_min_identifications 2 Examples.small = Done s1
        ∧ enforce_min_identifications 2 s1 = Done s1.
Proof.
  eexists. split.
  - vm_compute. reflexivity.
  - apply (proj2 (proj2 (filters_idempotent Examples.small 2))).
    vm_compute. reflexivity.
Defined.

(** ** The photos *)

(** C3 (as amended): no pipeline operation removes a photo.  Every operation
    that completes, the observation-removing ones included, leaves
    [observation_photos] as it was; the photos of removed observations stay in
    the store. *)
Theorem observation_photos_unchanged (strptime : string → string → option Z)
    (random_sample : list pyid → nat → list pyid) (op : Pipeline.operation)
    (s s' : Store Old.Taxon) :
  Pipeline.run strptime random_sample op s = Done s' →
  observation_photos s' = observation_photos s.
Proof. apply run_photos. Qed.

Lemma observation_photos_unchanged_witness :
  observations (keep_specific_observations [] Examples.small) = []
  ∧ observation_photos (keep_specific_observations [] Examples.small)
    = observation_photos Examples.small.
Proof.
  split; [reflexivity|].
  apply (observation_photos_unchanged Examples.strptime Examples.random_sample
           (Pipeline.KeepSpecificObservations []) Examples.small).
  reflexivity.
Defined.

(** C3 as stated fails: [keep_specific_observations] with an empty keep list
    removes observation 1 of the store [Examples.small], whose photos all
    resolved, and the photo of observation 1 is still there. *)
Lemma observation_photos_counterexample :
  photos_resolve Examples.small
  ∧ Pipeline.run Examples.strptime Examples.random_sample
      (Pipeline.KeepSpecificObservations []) Examples.small
    = Done (keep_specific_observations [] Examples.small)
  ∧ observations (keep_specific_observations [] Examples.small) = []
  ∧ observation_photos (keep_specific_observations [] Examples.small)
    = [Examples.photo 1]
  ∧ ¬ photos_resolve (keep_specific_observations [] Examples.small).
Proof.
  split_and!; try reflexivity.
  - intros photo Hin. simpl in Hin. apply list_elem_of_singleton in Hin as ->.
    simpl. set_solver.
  - intros Hres. specialize (Hres (Examples.photo 1)). simpl in Hres.
    apply elem_of_nil in Hres; [done | set_solver].
Qed.

(** ** Construction *)

(** C2 (the code departs from it): the sanity pass of both builders leaves a
    dangling identification behind.  Given two adjacent identifications of
    observations 99 and 98, which do not exist, construction completes and the
    second one is still in [identifications]. *)
Theorem sanity_pass_keeps_dangling_identification :
  (∃ s, Old.__init__ Examples.float_of_string [Examples.observation 1 (Some 10%Z)]
          [] Examples.dangling_pair [Examples.taxon 10 "" 10] [] = Done s
        ∧ identifications s = [Examples.identification 2 98 1 10 "200" true]
        ∧ ob_id_to_ob s !! IdInt 98 = None)
  ∧ (∃ s, Tax.__init__ [Examples.observation 1 None] [] Examples.dangling_pair
            [Examples.tax_taxon 10 "10"] [] = Done s
          ∧ identifications s = [Examples.identification 2 98 1 10 "200" true]
          ∧ ob_id_to_ob s !! IdInt 98 = None).
Proof.
  split; (eexists; split; [vm_compute; reflexivity|]); split; reflexivity.
Qed.

(** C10: on every store that the constructor of [dataset_old.py] returns,
    [create_flat_taxonomy] with its default argument, the string ['10'],
    removes every taxon and every identification, and empties their index
    maps: a float [rank_level] is never equal to a string. *)
Theorem create_flat_taxonomy_default_removes_everything
    (float_of_string : string → option Q) (obs : list Observation)
    (photos : list ObservationPhoto) (idens : list Identification)
    (taxa0 : list Old.Taxon) (users0 : list pyid) (s : Store Old.Taxon) :
  Old.__init__ float_of_string obs photos idens taxa0 users0 = Done s →
  Forall has_float_rank (taxa s)
  ∧ taxa (Old.create_flat_taxonomy Old.default_leaf_rank_level s) = []
  ∧ identifications (Old.create_flat_taxonomy Old.default_leaf_rank_level s) = []
  ∧ taxon_id_to_taxon (Old.create_flat_taxonomy Old.default_leaf_rank_level s)
    = ∅
  ∧ iden_id_to_iden (Old.create_flat_taxonomy Old.default_leaf_rank_level s)
    = ∅.
Proof.
  intros Hs%init_float_ranks. split; [done|].
  unfold Old.default_leaf_rank_level.
  by rewrite create_flat_taxonomy_string_leaf.
Qed.

Lemma create_flat_taxonomy_default_witness :
  ∃ s, Old.__init__ Examples.float_of_string
         [Examples.observation 1 (Some 10%Z)] [Examples.photo 1]
         [Examples.identification 1 1 1 10 "100" true]
         [Examples.taxon 10 "1" 10] [] = Done s
       ∧ length (taxa s) = 1
       ∧ length (identifications s) = 1
       ∧ taxa (Old.create_flat_taxonomy Old.default_leaf_rank_level s) = []
       ∧ identifications
           (Old.create_flat_taxonomy Old.default_leaf_rank_level s) = [].
Proof.
  destruct (Old.__init__ _ _ _ _ _ _) as [s|e] eqn:Hinit;
    [|vm_compute in Hinit; discriminate].
  exists s. split; [done|].
  destruct (create_flat_taxonomy_default_removes_everything _ _ _ _ _ _ _ Hinit)
    as (_ & Htaxa & Hidens & _).
  vm_compute in Hinit. injection Hinit as <-. by split_and!.
Defined.

(** ** Referential integrity *)

(** C1 (as amended): every pipeline operation preserves referential
    integrity.  On a store in which every identification's [observation_id]
    and [taxon_id] resolve (and, for [set_rank_level_as_leaf_level], whose
    taxon ids are pairwise distinct), an operation that completes returns a
    store in which they resolve again. *)
Theorem referential_integrity_preserved
    (strptime : string → string → option Z)
    (random_sample : list pyid → nat → list pyid) (op : Pipeline.operation)
    (s s' : Store Old.Taxon) :
  referential_integrity Old.taxon_id s →
  (∀ leaf, op = Pipeline.SetRankLevelAsLeafLevel leaf →
           NoDup (Old.taxon_id <$> taxa s)) →
  Pipeline.run strptime random_sample op s = Done s' →
  referential_integrity Old.taxon_id s'.
Proof. apply run_integrity. Qed.

Lemma referential_integrity_preserved_witness :
  ∃ s', Pipeline.run Examples.strptime Examples.random_sample
          (Pipeline.SetRankLevelAsLeafLevel (VInt 20)) Examples.three_level
        = Done s'
        ∧ iden_taxon_id <$> identifications s' = [IdInt 2; IdInt 2; IdInt 1]
        ∧ Old.taxon_id <$> taxa s' = [IdInt 2; IdInt 1]
        ∧ referential_integrity Old.taxon_id s'.
Proof.
  destruct (Pipeline.run _ _ _ _) as [s'|e] eqn:Hrun;
    [|vm_compute in Hrun; discriminate].
  exists s'. split; [done|].
  assert (referential_integrity Old.taxon_id Examples.three_level) as Hs.
  { intros iden Hin. simpl in *. set_solver. }
  assert (NoDup (Old.taxon_id <$> taxa Examples.three_level)) as Hnd.
  { simpl. repeat constructor; set_solver. }
  assert (referential_integrity Old.taxon_id s') as Hs'.
  { exact (referential_integrity_preserved _ _ _ _ _ Hs (λ _ _, Hnd) Hrun). }
  vm_compute in Hrun. injection Hrun as <-. by split_and!.
Defined.

(** C1 as stated fails.  In [Examples.duplicate_taxon_ids] every
    identification resolves, and after [set_rank_level_as_leaf_level(20)] the
    identification still names taxon 5, which the taxa no longer hold.  And an
    operation does not repair a store that was already broken:
    [keep_current_identifications] keeps the identification of the unknown
    taxon 99 in [Examples.dangling_taxon]. *)
Lemma referential_integrity_counterexample :
  (referential_integrity Old.taxon_id Examples.duplicate_taxon_ids
   ∧ ∃ s', Pipeline.run Examples.strptime Examples.random_sample
             (Pipeline.SetRankLevelAsLeafLevel (VInt 20))
             Examples.duplicate_taxon_ids = Done s'
           ∧ iden_taxon_id <$> identifications s' = [IdInt 5]
           ∧ Old.taxon_id <$> taxa s' = [IdInt 1]
           ∧ ¬ referential_integrity Old.taxon_id s')
  ∧ (∃ s', Pipeline.run Examples.strptime Examples.random_sample
             Pipeline.KeepCurrentIdentifications Examples.dangling_taxon
           = Done s'
           ∧ iden_taxon_id <$> identifications s' = [IdInt 99]
           ∧ taxa s' = []
           ∧ ¬ referential_integrity Old.taxon_id s').
Proof.
  split; [split|].
  - intros iden Hin. simpl in *. set_solver.
  - eexists. split; [vm_compute; reflexivity|].
    split; [reflexivity|]. split; [reflexivity|].
    intros Hs.
    destruct (Hs (Examples.identification 1 1 1 5 "100" true)) as [_ Htax];
      [simpl; set_solver|].
    simpl in Htax. set_solver.
  - eexists. split; [vm_compute; reflexivity|].
    split; [reflexivity|]. split; [reflexivity|].
    intros Hs.
    destruct (Hs (Examples.identification 1 1 1 99 "100" true)) as [_ Htax];
      [simpl; set_solver|].
    simpl in Htax. set_solver.
Qed.

(** ** The rank collapse *)



(** ** Current identifications *)



(** ** One identification per user and observation *)



(** ** The priors *)




(** ** The class labels *)

Lemma od_get_lookup {K V : Type} `{EqDecision K} (d : odict K V) (i : nat)
    (k : K) (v : V) :
  NoDup (od_keys d) → d !! i = Some (k, v) → od_get k d = Some v.
Proof.
  revert i. induction d as [|[k' v'] d IH]; intros i Hnd Hi; [done|].
  simpl in *. apply NoDup_cons in Hnd as [Hk' Hnd]. destruct i as [|i].
  - injection Hi as -> ->. by rewrite decide_True.
  - rewrite decide_False; [by eapply IH|]. intros ->. apply Hk'.
    apply list_elem_of_fmap. exists (k', v). split; [done|].
    by eapply list_elem_of_lookup_2.
Qed.

(** C9 (as amended): [create_dataset] of [dataset_old.py] gives the i-th key
    of the priors mapping the label i, sets [num_classes] to the number of
    entries and [global_class_priors] to the list of the prior values in label
    order.  [create_dataset] of [dataset_tax.py] also sets [num_classes] to the
    number of entries, but it labels each taxon of the store with the [key]
    column of its taxonomy row and passes the priors mapping on as it is. *)
Theorem create_dataset_label_order :
  (∀ (leaf_taxa_priors : odict pyid float) (s : Store Old.Taxon) (d : Old.Dataset),
     NoDup (od_keys leaf_taxa_priors) →
     Old.create_dataset leaf_taxa_priors s = Done d →
     Old.num_classes (Old.dataset d) = length leaf_taxa_priors
     ∧ Old.inat_taxon_id_to_class_label (Old.dataset d)
       = imap (λ label taxon_id, (taxon_id, label)) (od_keys leaf_taxa_priors)
     ∧ Old.global_class_priors (Old.dataset d) = od_values leaf_taxa_priors
     ∧ ∀ (i : nat) (taxon_id : pyid) (prior : float),
         leaf_taxa_priors !! i = Some (taxon_id, prior) →
         od_get taxon_id (Old.inat_taxon_id_to_class_label (Old.dataset d))
         = Some i
         ∧ Old.global_class_priors (Old.dataset d) !! i = Some prior)
  ∧ (∀ (leaf_taxa_priors : odict pyid float) (s : Store Tax.Taxon)
       (d : Tax.Dataset),
       Tax.create_dataset leaf_taxa_priors s = Done d →
       Tax.num_classes (Tax.dataset d) = length leaf_taxa_priors
       ∧ foldlM Tax.add_label [] (taxa s)
         = Done (Tax.inat_taxon_id_to_class_label (Tax.dataset d))
       ∧ Tax.global_class_priors (Tax.dataset d) = leaf_taxa_priors).
Proof.
  split; [|apply tax_create_dataset_info].
  intros priors s d Hnd Hrun.
  destruct (create_dataset_info priors s d Hnd Hrun) as (Hn & Hlabels & Hpriors).
  split_and!; [done..|]. intros i k p Hi. rewrite Hlabels, Hpriors. split.
  - apply (od_get_lookup _ i).
    + unfold od_keys. rewrite fmap_imap.
      rewrite (imap_ext _ (const id)) by done.
      by rewrite imap_const, list_fmap_id.
    + unfold odict in *. rewrite list_lookup_imap. unfold od_keys.
      by rewrite list_lookup_fmap, Hi.
  - unfold odict in *. unfold od_values. by rewrite list_lookup_fmap, Hi.
Qed.

Lemma create_dataset_label_order_witness :
  ∃ d, Old.create_dataset [(IdInt 10, 1%float)] Examples.small = Done d
       ∧ Old.num_classes (Old.dataset d) = 1
       ∧ Old.inat_taxon_id_to_class_label (Old.dataset d) = [(IdInt 10, 0)]
       ∧ Old.global_class_priors (Old.dataset d) = [1%float].
Proof.
  destruct (Old.create_dataset _ _) as [d|e] eqn:Hrun;
    [|vm_compute in Hrun; discriminate].
  exists d. split; [done|].
  destruct (proj1 create_dataset_label_order [(IdInt 10, 1%float)] Examples.small d)
    as (Hn & Hlabels & Hpriors & _); [|done|].
  - simpl. repeat constructor. set_solver.
  - by rewrite Hn, Hlabels, Hpriors.
Defined.

(** C9 as stated fails for [dataset_tax.py]: with the priors mapping
    [{5 : 1.0}] and a taxonomy row of taxon 5 with key 9, the label of taxon 5
    is the key 9, not the position 0 that [dataset_old.py] assigns, and
    [global_class_priors] is the mapping itself rather than the list of its
    values. *)
Lemma create_dataset_label_order_counterexample :
  ∃ d, Tax.create_dataset [(IdInt 5, 1%float)] Examples.tax_store = Done d
       ∧ od_get 5%Z (Tax.inat_taxon_id_to_class_label (Tax.dataset d))
         = Some (Some "9")
       ∧ od_get (IdInt 5) (Old.enumerate_labels [(IdInt 5, 1%float)]) = Some 0
       ∧ Tax.py_str (Some "9") ≠ "0"
       ∧ Tax.global_class_priors (Tax.dataset d) = [(IdInt 5, 1%float)]
       ∧ od_values [(IdInt 5, 1%float)] = [1%float].
Proof.
  eexists. split; [vm_compute; reflexivity|]. by split_and!.
Qed.

(** * Further properties *)

Lemma ids_unique_NoDup (ids : list pyid) : ids_unique ids ↔ NoDup ids.
Proof.
  unfold ids_unique. rewrite bool_decide_spec.
  rewrite <-size_list_to_set_NoDup. split; intros; congruence.
Qed.

Lemma assert_unique_ids_NoDup {T : Type} (s s' : Store T) :
  assert_unique_ids s = Done s' →
  s' = s ∧ NoDup (iden_id <$> identifications s)
  ∧ NoDup (ob_id <$> observations s).
Proof.
  unfold assert_unique_ids.
  destruct (ids_unique (iden_id <$> identifications s)) eqn:H1; [|done].
  destruct (ids_unique (ob_id <$> observations s)) eqn:H2; [|done].
  intros [= <-]. split; [done|]. split; apply ids_unique_NoDup; by rewrite ?H1, ?H2.
Qed.

Lemma check_taxa_observations float_of_string (s : Store Old.Taxon) :
  observations (Old.check_taxa float_of_string s) = observations s
  ∧ ob_id_to_ob (Old.check_taxa float_of_string s) = ob_id_to_ob s
  ∧ observation_photos (Old.check_taxa float_of_string s)
    = observation_photos s
  ∧ users (Old.check_taxa float_of_string s) = users s.
Proof.
  unfold Old.check_taxa.
  destruct (Old.convert_taxa _ _ _) as [all taxa_to_keep].
  by case_decide.
Qed.

Lemma old_init_Done float_of_string obs photos idens taxa0 users0
    (s : Store Old.Taxon) :
  Old.__init__ float_of_string obs photos idens taxa0 users0 = Done s →
  let s0 := {| observations := obs; observation_photos := photos;
               identifications := idens; taxa := taxa0; users := users0;
               taxon_id_to_taxon := index_by Old.taxon_id taxa0;
               ob_id_to_ob := index_by ob_id obs;
               iden_id_to_iden := index_by iden_id idens |} in
  let s1 := Old.check_taxa float_of_string s0 in
  sanity_scan (taxon_id_to_taxon s1) (ob_id_to_ob s1)
    (length (identifications s1)) 0 (identifications s1)
  = Done (identifications s)
  ∧ observations s = obs ∧ taxa s = taxa s1
  ∧ taxon_id_to_taxon s = taxon_id_to_taxon s1
  ∧ ob_id_to_ob s = index_by ob_id obs
  ∧ observation_photos s = photos
  ∧ NoDup (iden_id <$> identifications s) ∧ NoDup (ob_id <$> obs).
Proof.
  intros Hinit s0 s1. unfold Old.__init__, Old._sanity_check_data in Hinit.
  fold s0 s1 in Hinit.
  apply bind_Done in Hinit as (l & Hscan & Hassert).
  apply assert_unique_ids_NoDup in Hassert as (-> & Hi & Ho). simpl in *.
  destruct (check_taxa_observations float_of_string s0) as (Hobs & Hix & Hph & _).
  fold s1 in Hobs, Hix, Hph. rewrite Hobs in Ho.
  split; [done|]. rewrite Hobs, Hix, Hph. by split_and!.
Qed.

Lemma tax_init_Done obs photos idens taxa0 users0 (s : Store Tax.Taxon) :
  Tax.__init__ obs photos idens taxa0 users0 = Done s →
  sanity_scan (index_by Tax.taxon_id taxa0) (index_by ob_id obs)
    (length idens) 0 idens
  = Done (identifications s)
  ∧ observations s = obs ∧ taxa s = taxa0
  ∧ taxon_id_to_taxon s = index_by Tax.taxon_id taxa0
  ∧ ob_id_to_ob s = index_by ob_id obs
  ∧ observation_photos s = photos
  ∧ NoDup (iden_id <$> identifications s) ∧ NoDup (ob_id <$> obs).
Proof.
  intros Hinit. unfold Tax.__init__, Tax._sanity_check_data in Hinit.
  simpl in Hinit.
  apply bind_Done in Hinit as (l & Hscan & Hassert).
  apply assert_unique_ids_NoDup in Hassert as (-> & Hi & Ho). simpl in *.
  by split_and!.
Qed.

(** ** The sanity pass *)

Lemma py_eqb_refl (v : pyval) : py_eqb v v = true.
Proof.
  destruct v as [|b|z|q|s]; unfold py_eqb; simpl; try done.
  - by apply Qeq_bool_iff.
  - by apply Qeq_bool_iff.
  - by apply Qeq_bool_iff.
  - by apply String.eqb_refl.
Qed.

Lemma iden_eqb_refl (a : Identification) : iden_eqb a a = true.
Proof.
  unfold iden_eqb. rewrite py_eqb_refl.
  by rewrite !bool_decide_eq_true_2.
Qed.

Lemma iden_eqb_refs (a b : Identification) :
  iden_eqb a b = true →
  iden_id a = iden_id b
  ∧ iden_observation_id a = iden_observation_id b
  ∧ iden_taxon_id a = iden_taxon_id b.
Proof.
  unfold iden_eqb. rewrite !andb_true_iff, !bool_decide_eq_true. naive_solver.
Qed.

Lemma list_remove_Done (x : Identification) (l l' : list Identification) :
  list_remove x l = Done l' ↔
  ∃ l1 y l2, l = l1 ++ y :: l2 ∧ l' = l1 ++ l2 ∧ iden_eqb y x = true
             ∧ Forall (λ z, iden_eqb z x = false) l1.
Proof.
  revert l'. induction l as [|y l IH]; intros l'; simpl.
  - split; [done|]. intros (l1 & y & l2 & Hl & _). by destruct l1.
  - destruct (iden_eqb y x) eqn:Hy.
    + split.
      * intros [= <-]. exists [], y, l. by split_and!.
      * intros (l1 & z & l2 & Hl & -> & Hz & Hl1).
        destruct l1 as [|w l1]; simplify_eq/=; [done|].
        apply Forall_cons in Hl1 as [Hw _]. congruence.
    + rewrite bind_Done. split.
      * intros (r & (l1 & z & l2 & -> & -> & Hz & Hl1)%IH & [= <-]).
        exists (y :: l1), z, l2. split_and!; try done. by constructor.
      * intros (l1 & z & l2 & Hl & -> & Hz & Hl1).
        destruct l1 as [|w l1]; simplify_eq/=; [congruence|].
        apply Forall_cons in Hl1 as [Hw Hl1].
        exists (l1 ++ l2). split; [|done]. apply IH. by exists l1, z, l2.
Qed.

Lemma list_remove_Raise (x : Identification) (l : list Identification) :
  Forall (λ z, iden_eqb z x = false) l → list_remove x l = Raise ValueError.
Proof.
  induction 1 as [|y l Hy _ IH]; simpl; [done|]. by rewrite Hy, IH.
Qed.

Section sanity_scan.
Context {T : Type}.
Variables (taxon_index : gmap pyid T) (ob_index : gmap pyid Observation).

#[local] Abbreviation valid iden :=
  (is_Some (taxon_index !! iden_taxon_id iden)
   ∧ is_Some (ob_index !! iden_observation_id iden)).

Lemma list_remove_invalid (x : Identification) (l l' : list Identification) :
  ¬ valid x → list_remove x l = Done l' →
  l' `sublist_of` l
  ∧ filter (λ iden, valid iden) l' = filter (λ iden, valid iden) l.
Proof.
  intros Hx (l1 & y & l2 & -> & -> & (_ & Ho & Ht)%iden_eqb_refs & _)%list_remove_Done.
  split.
  - apply sublist_app; [done|]. by apply sublist_cons.
  - rewrite !filter_app, filter_cons_False; [done|]. by rewrite Ho, Ht.
Qed.

Lemma sanity_scan_valid (fuel i : nat) (l l' : list Identification) :
  sanity_scan taxon_index ob_index fuel i l = Done l' →
  l' `sublist_of` l
  ∧ filter (λ iden, valid iden) l' = filter (λ iden, valid iden) l.
Proof.
  revert i l. induction fuel as [|fuel IH]; intros i l; simpl.
  { by intros [= <-]. }
  destruct (l !! i) as [iden|]; [|by intros [= <-]].
  intros (l1 & H1 & (l2 & H2 & Hrest)%bind_Done)%bind_Done.
  apply IH in Hrest as [Hsub Hfil].
  assert (l1 `sublist_of` l
          ∧ filter (λ iden, valid iden) l1 = filter (λ iden, valid iden) l)
    as [Hsub1 Hfil1].
  { destruct (decide (is_Some (taxon_index !! iden_taxon_id iden))).
    - by simplify_eq.
    - eapply list_remove_invalid; [|done]. tauto. }
  assert (l2 `sublist_of` l1
          ∧ filter (λ iden, valid iden) l2 = filter (λ iden, valid iden) l1)
    as [Hsub2 Hfil2].
  { destruct (decide (is_Some (ob_index !! iden_observation_id iden))).
    - by simplify_eq.
    - eapply list_remove_invalid; [|done]. tauto. }
  split; [by repeat (etrans; [done|])|congruence].
Qed.

End sanity_scan.

Lemma convert_taxa_ids float_of_string (obs_taxon_ids : list (option pyid))
    (l : list Old.Taxon) :
  Old.taxon_id <$> (Old.convert_taxa float_of_string obs_taxon_ids l).1
  = Old.taxon_id <$> l.
Proof.
  induction l as [|taxon l IH]; simpl; [done|].
  destruct (Old.convert_taxa _ _ l) as [all taxa_to_keep]. simpl in IH.
  destruct (Old.py_float _ _); [case_decide|]; simpl; by f_equal.
Qed.

Lemma check_taxa_index float_of_string (s : Store Old.Taxon) (k : pyid) :
  taxon_id_to_taxon s = index_by Old.taxon_id (taxa s) →
  is_Some (taxon_id_to_taxon (Old.check_taxa float_of_string s) !! k)
  ↔ k ∈ Old.taxon_id <$> taxa (Old.check_taxa float_of_string s).
Proof.
  intros Hix. unfold Old.check_taxa.
  pose proof (convert_taxa_ids float_of_string
                (ob_community_taxon_id <$> observations s) (taxa s)) as Hids.
  destruct (Old.convert_taxa _ _ _) as [all taxa_to_keep]. cbn [fst] in Hids.
  case_decide; cbn [taxon_id_to_taxon taxa].
  - apply index_by_is_Some.
  - rewrite lookup_fmap, fmap_is_Some, Hix, Hids. apply index_by_is_Some.
Qed.

Lemma check_taxa_identifications float_of_string (s : Store Old.Taxon)
    (P : Identification → Prop) `{!∀ x, Decision (P x)} :
  let s1 := Old.check_taxa float_of_string s in
  identifications s1 `sublist_of` identifications s
  ∧ filter (λ iden, is_Some (taxon_id_to_taxon s1 !! iden_taxon_id iden)
                    ∧ P iden) (identifications s1)
    = filter (λ iden, is_Some (taxon_id_to_taxon s1 !! iden_taxon_id iden)
                      ∧ P iden) (identifications s).
Proof.
  unfold Old.check_taxa.
  destruct (Old.convert_taxa _ _ _) as [all taxa_to_keep].
  case_decide; simpl; [|done]. split; [apply sublist_filter|].
  rewrite list_filter_filter. apply filter_ext_in. tauto.
Qed.

(** X1: the sanity pass of both builders only ever removes dangling
    identifications and never reorders.  The identifications of a constructed
    store are a sublist of the ones given, and the given identifications
    whose [taxon_id] is the id of a surviving taxon and whose
    [observation_id] is the id of an observation are all still there, as
    often and in the same order. *)
Theorem sanity_pass_keeps_valid_identifications :
  (∀ float_of_string obs photos idens taxa0 users0 (s : Store Old.Taxon),
     Old.__init__ float_of_string obs photos idens taxa0 users0 = Done s →
     identifications s `sublist_of` idens
     ∧ filter (λ iden, iden_taxon_id iden ∈ Old.taxon_id <$> taxa s
                       ∧ iden_observation_id iden ∈ ob_id <$> obs)
              (identifications s)
       = filter (λ iden, iden_taxon_id iden ∈ Old.taxon_id <$> taxa s
                         ∧ iden_observation_id iden ∈ ob_id <$> obs) idens)
  ∧ (∀ obs photos idens taxa0 users0 (s : Store Tax.Taxon),
       Tax.__init__ obs photos idens taxa0 users0 = Done s →
       identifications s `sublist_of` idens
       ∧ filter (λ iden, iden_taxon_id iden ∈ Tax.taxon_id <$> taxa0
                         ∧ iden_observation_id iden ∈ ob_id <$> obs)
                (identifications s)
         = filter (λ iden, iden_taxon_id iden ∈ Tax.taxon_id <$> taxa0
                           ∧ iden_observation_id iden ∈ ob_id <$> obs) idens).
Proof.
  split.
  - intros fos obs photos idens taxa0 users0 s Hinit.
    apply old_init_Done in Hinit
      as (Hscan & _ & Htaxa & _ & _ & _ & _ & _).
    set (s0 := {| observations := obs; observation_photos := photos;
                  identifications := idens; taxa := taxa0; users := users0;
                  taxon_id_to_taxon := index_by Old.taxon_id taxa0;
                  ob_id_to_ob := index_by ob_id obs;
                  iden_id_to_iden := index_by iden_id idens |}) in *.
    apply sanity_scan_valid in Hscan as [Hsub Hfil].
    destruct (check_taxa_identifications fos s0
                (λ iden, is_Some (ob_id_to_ob (Old.check_taxa fos s0)
                                    !! iden_observation_id iden)))
      as [Hsub0 Hfil0].
    split; [by etrans|].
    assert (∀ iden,
      (iden_taxon_id iden ∈ Old.taxon_id <$> taxa s
       ∧ iden_observation_id iden ∈ ob_id <$> obs)
      ↔ (is_Some (taxon_id_to_taxon (Old.check_taxa fos s0)
                    !! iden_taxon_id iden)
         ∧ is_Some (ob_id_to_ob (Old.check_taxa fos s0)
                      !! iden_observation_id iden))) as Hiff.
    { intros iden. rewrite Htaxa, check_taxa_index by done.
      destruct (check_taxa_observations fos s0) as (_ & -> & _).
      simpl. by rewrite index_by_is_Some. }
    rewrite (filter_ext_in _ _ (identifications s) (λ iden _, Hiff iden)).
    rewrite (filter_ext_in _ _ idens (λ iden _, Hiff iden)).
    by rewrite Hfil, Hfil0.
  - intros obs photos idens taxa0 users0 s Hinit.
    apply tax_init_Done in Hinit as (Hscan & _).
    apply sanity_scan_valid in Hscan as [Hsub Hfil]. split; [done|].
    assert (∀ iden,
      (iden_taxon_id iden ∈ Tax.taxon_id <$> taxa0
       ∧ iden_observation_id iden ∈ ob_id <$> obs)
      ↔ (is_Some (index_by Tax.taxon_id taxa0 !! iden_taxon_id iden)
         ∧ is_Some (index_by ob_id obs !! iden_observation_id iden))) as Hiff.
    { intros iden. by rewrite !index_by_is_Some. }
    rewrite (filter_ext_in _ _ (identifications s) (λ iden _, Hiff iden)).
    rewrite (filter_ext_in _ _ idens (λ iden _, Hiff iden)).
    done.
Qed.

Lemma sanity_pass_keeps_valid_identifications_witness :
  ∃ s, Tax.__init__ [Examples.observation 1 None] []
         (Examples.identification 5 1 9 5 "500" true :: Cases.four_unknown)
         [Examples.tax_taxon 5 "9"] [] = Done s
       ∧ identifications s
           `sublist_of`
           (Examples.identification 5 1 9 5 "500" true :: Cases.four_unknown)
       ∧ Examples.identification 5 1 9 5 "500" true ∈ identifications s.
Proof.
  destruct (Tax.__init__ [Examples.observation 1 None] []
              (Examples.identification 5 1 9 5 "500" true
               :: Cases.four_unknown)
              [Examples.tax_taxon 5 "9"] [])
    as [s|e] eqn:Hrun; [|vm_compute in Hrun; discriminate].
  destruct (proj2 sanity_pass_keeps_valid_identifications _ _ _ _ _ _ Hrun)
    as [Hsub Hvalid].
  exists s. split; [done|]. split; [done|].
  assert (Examples.identification 5 1 9 5 "500" true
          ∈ filter (λ iden,
                      iden_taxon_id iden
                      ∈ Tax.taxon_id <$> [Examples.tax_taxon 5 "9"]
                      ∧ iden_observation_id iden
                        ∈ ob_id <$> [Examples.observation 1 None])
                   (identifications s)) as Hin.
  { rewrite Hvalid. apply list_elem_of_filter. split.
    - simpl. set_solver.
    - by left. }
  by apply list_elem_of_filter in Hin as [_ ?].
Defined.

Section sanity_scan_steps.
Context {T : Type}.
Variables (taxon_index : gmap pyid T) (ob_index : gmap pyid Observation).

(** The scan walks over identifications that resolve without touching the
    list. *)
Lemma sanity_scan_skip (fuel : nat) (pre1 pre2 rest : list Identification) :
  Forall (λ iden, is_Some (taxon_index !! iden_taxon_id iden)
                  ∧ is_Some (ob_index !! iden_observation_id iden)) pre2 →
  sanity_scan taxon_index ob_index (length pre2 + fuel) (length pre1)
    (pre1 ++ pre2 ++ rest)
  = sanity_scan taxon_index ob_index fuel (length pre1 + length pre2)
      (pre1 ++ pre2 ++ rest).
Proof.
  revert pre1. induction pre2 as [|x pre2 IH]; intros pre1 Hvalid.
  { simpl. by rewrite Nat.add_0_r. }
  apply Forall_cons in Hvalid as [[Ht Ho] Hvalid]. simpl.
  rewrite list_lookup_middle by done.
  rewrite decide_True by done. simpl. rewrite decide_True by done. simpl.
  specialize (IH (pre1 ++ [x]) Hvalid).
  rewrite length_app, <-!(assoc_L (++)) in IH. simpl in IH.
  rewrite Nat.add_1_r in IH. rewrite IH. f_equal. lia.
Qed.

Lemma list_remove_here (pre rest : list Identification) (x : Identification) :
  Forall (λ z, iden_eqb z x = false) pre →
  list_remove x (pre ++ x :: rest) = Done (pre ++ rest).
Proof.
  intros Hpre. apply list_remove_Done. exists pre, x, rest.
  split_and!; try done. apply iden_eqb_refl.
Qed.

End sanity_scan_steps.

Lemma iden_eqb_false_id (z x : Identification) :
  iden_id z ≠ iden_id x → iden_eqb z x = false.
Proof.
  intros Hne. destruct (iden_eqb z x) eqn:Heq; [|done].
  by apply iden_eqb_refs in Heq as [? _].
Qed.

Lemma NoDup_ids_middle (pre rest : list Identification) (x : Identification) :
  NoDup (iden_id <$> pre ++ x :: rest) →
  Forall (λ z, iden_eqb z x = false) pre
  ∧ Forall (λ z, iden_eqb z x = false) rest
  ∧ NoDup (iden_id <$> pre ++ rest).
Proof.
  rewrite !fmap_app, fmap_cons. intros Hnd.
  apply NoDup_app in Hnd as (Hpre & Hdisj & Hrest).
  apply NoDup_cons in Hrest as [Hx Hrest].
  split_and!.
  - apply Forall_forall. intros z Hz. apply iden_eqb_false_id. intros Heq.
    apply (Hdisj (iden_id z)); [by apply list_elem_of_fmap_2|].
    rewrite Heq. by left.
  - apply Forall_forall. intros z Hz. apply iden_eqb_false_id. intros Heq.
    apply Hx. rewrite <-Heq. by apply list_elem_of_fmap_2.
  - apply NoDup_app. split_and!; [done| |done].
    intros k Hk Hk'. apply (Hdisj k Hk). by right.
Qed.

Lemma sanity_scan_doubly_dangling {T : Type} (taxon_index : gmap pyid T)
    (ob_index : gmap pyid Observation) (pre rest : list Identification)
    (iden : Identification) :
  NoDup (iden_id <$> pre ++ iden :: rest) →
  Forall (λ i, is_Some (taxon_index !! iden_taxon_id i)
               ∧ is_Some (ob_index !! iden_observation_id i)) pre →
  ¬ is_Some (taxon_index !! iden_taxon_id iden) →
  ¬ is_Some (ob_index !! iden_observation_id iden) →
  sanity_scan taxon_index ob_index (length (pre ++ iden :: rest)) 0
    (pre ++ iden :: rest)
  = Raise ValueError.
Proof.
  intros (Hpre & Hrest & _)%NoDup_ids_middle Hvalid Ht Ho.
  rewrite length_app.
  pose proof (sanity_scan_skip taxon_index ob_index
                (length (iden :: rest)) [] pre (iden :: rest) Hvalid) as Hskip.
  simpl in Hskip. simpl. rewrite Hskip.
  rewrite (list_lookup_middle pre rest iden (length pre)) by done.
  rewrite decide_False by done. rewrite list_remove_here by done. simpl.
  rewrite decide_False by done.
  rewrite list_remove_Raise; [done|]. by apply Forall_app.
Qed.

Lemma convert_taxa_all float_of_string (obs_taxon_ids : list (option pyid))
    (l : list Old.Taxon) :
  Forall (λ taxon, (∃ q, Old.py_float float_of_string (Old.rank_level taxon)
                         = Done q)
                   ∧ Some (Old.taxon_id taxon) ∈ obs_taxon_ids) l →
  length (Old.convert_taxa float_of_string obs_taxon_ids l).2 = length l.
Proof.
  induction 1 as [|taxon l [[q Hq] Hin] _ IH]; simpl; [done|].
  destruct (Old.convert_taxa _ _ l) as [all taxa_to_keep]. simpl in IH.
  rewrite Hq, decide_True by done. simpl. by rewrite IH.
Qed.

Lemma check_taxa_no_drop float_of_string (s : Store Old.Taxon) :
  Forall (λ taxon, (∃ q, Old.py_float float_of_string (Old.rank_level taxon)
                         = Done q)
                   ∧ Some (Old.taxon_id taxon)
                     ∈ ob_community_taxon_id <$> observations s) (taxa s) →
  identifications (Old.check_taxa float_of_string s) = identifications s
  ∧ ∀ k, is_Some (taxon_id_to_taxon (Old.check_taxa float_of_string s) !! k)
         ↔ is_Some (taxon_id_to_taxon s !! k).
Proof.
  intros Hall%convert_taxa_all. unfold Old.check_taxa.
  destruct (Old.convert_taxa _ _ _) as [all taxa_to_keep]. simpl in Hall.
  rewrite decide_False by lia. simpl. split; [done|].
  intros k. by rewrite lookup_fmap, fmap_is_Some.
Qed.

(** X2: an identification that dangles on both sides ends
    construction with a [ValueError].  When the identifications before it all
    resolve and the ids are pairwise distinct, the first [remove] takes the
    record out and the second [remove] no longer finds it.  In
    [dataset_old.py] this needs the taxon pass to have kept every taxon
    (every [rank_level] numeric, every taxon the community taxon of an
    observation); otherwise the record has already been filtered out. *)
Theorem sanity_pass_raises_on_doubly_dangling :
  (∀ obs photos pre iden rest taxa0 users0,
     NoDup (iden_id <$> pre ++ iden :: rest) →
     Forall (λ i, iden_taxon_id i ∈ Tax.taxon_id <$> taxa0
                  ∧ iden_observation_id i ∈ ob_id <$> obs) pre →
     iden_taxon_id iden ∉ Tax.taxon_id <$> taxa0 →
     iden_observation_id iden ∉ ob_id <$> obs →
     Tax.__init__ obs photos (pre ++ iden :: rest) taxa0 users0
     = Raise ValueError)
  ∧ (∀ float_of_string obs photos pre iden rest taxa0 users0,
       Forall (λ taxon,
                 (∃ q, Old.py_float float_of_string (Old.rank_level taxon)
                       = Done q)
                 ∧ Some (Old.taxon_id taxon) ∈ ob_community_taxon_id <$> obs)
              taxa0 →
       NoDup (iden_id <$> pre ++ iden :: rest) →
       Forall (λ i, iden_taxon_id i ∈ Old.taxon_id <$> taxa0
                    ∧ iden_observation_id i ∈ ob_id <$> obs) pre →
       iden_taxon_id iden ∉ Old.taxon_id <$> taxa0 →
       iden_observation_id iden ∉ ob_id <$> obs →
       Old.__init__ float_of_string obs photos (pre ++ iden :: rest) taxa0
         users0
       = Raise ValueError).
Proof.
  split.
  - intros obs photos pre iden rest taxa0 users0 Hnd Hpre Ht Ho.
    unfold Tax.__init__, Tax._sanity_check_data. simpl.
    rewrite sanity_scan_doubly_dangling; try done.
    + eapply Forall_impl; [done|]. intros i. by rewrite !index_by_is_Some.
    + by rewrite index_by_is_Some.
    + by rewrite index_by_is_Some.
  - intros fos obs photos pre iden rest taxa0 users0 Hall Hnd Hpre Ht Ho.
    unfold Old.__init__, Old._sanity_check_data.
    set (s0 := {| observations := obs; observation_photos := photos;
                  identifications := pre ++ iden :: rest; taxa := taxa0;
                  users := users0;
                  taxon_id_to_taxon := index_by Old.taxon_id taxa0;
                  ob_id_to_ob := index_by ob_id obs;
                  iden_id_to_iden := index_by iden_id (pre ++ iden :: rest) |}).
    destruct (check_taxa_no_drop fos s0 Hall) as [Hidens Hix].
    destruct (check_taxa_observations fos s0) as (_ & Hobs & _).
    rewrite Hidens, Hobs. simpl.
    rewrite sanity_scan_doubly_dangling; try done.
    + eapply Forall_impl; [done|]. intros i.
      rewrite Hix. cbn [taxon_id_to_taxon s0]. by rewrite !index_by_is_Some.
    + rewrite Hix. cbn [taxon_id_to_taxon s0]. by rewrite index_by_is_Some.
    + by rewrite index_by_is_Some.
Qed.

Lemma sanity_pass_raises_on_doubly_dangling_witness :
  Tax.__init__ [Examples.observation 1 None] []
    (Examples.identification 5 1 9 5 "500" true :: Examples.dangling_pair)
    [Examples.tax_taxon 5 "9"] [] = Raise ValueError.
Proof.
  apply (proj1 sanity_pass_raises_on_doubly_dangling
           [Examples.observation 1 None] []
           [Examples.identification 5 1 9 5 "500" true]
           (Examples.identification 1 99 1 10 "100" true)
           [Examples.identification 2 98 1 10 "200" true]
           [Examples.tax_taxon 5 "9"] []).
  - simpl. repeat constructor; set_solver.
  - repeat constructor; simpl; set_solver.
  - simpl. set_solver.
  - simpl. set_solver.
Defined.

Lemma sublist_fmap {A B : Type} (f : A → B) (l1 l2 : list A) :
  l1 `sublist_of` l2 → (f <$> l1) `sublist_of` (f <$> l2).
Proof.
  induction 1; simpl; [done|by apply sublist_skip|by apply sublist_cons].
Qed.

Lemma odd_positions_sublist {A : Type} (l : list A) :
  odd_positions l `sublist_of` l.
Proof.
  induction l as [l IH] using (induction_ltof1 _ length).
  destruct l as [|x [|y l]]; simpl; [done|apply sublist_nil_l|].
  apply sublist_cons, sublist_skip, IH. unfold ltof. simpl. lia.
Qed.

Lemma sanity_scan_alternates {T : Type} (taxon_index : gmap pyid T)
    (ob_index : gmap pyid Observation) (fuel : nat)
    (kept rem : list Identification) :
  length rem ≤ fuel →
  NoDup (iden_id <$> kept ++ rem) →
  Forall (λ i, ¬ is_Some (taxon_index !! iden_taxon_id i)
               ∧ is_Some (ob_index !! iden_observation_id i)) rem →
  sanity_scan taxon_index ob_index fuel (length kept) (kept ++ rem)
  = Done (kept ++ odd_positions rem).
Proof.
  revert kept rem. induction fuel as [|fuel IH]; intros kept rem Hlen Hnd Hrem.
  { destruct rem; simpl in *; [done|lia]. }
  destruct rem as [|x rem].
  { simpl. by rewrite lookup_ge_None_2 by (rewrite length_app; simpl; lia). }
  apply Forall_cons in Hrem as [[Ht Ho] Hrem].
  cbn [sanity_scan]. rewrite list_lookup_middle by done.
  pose proof (NoDup_ids_middle _ _ _ Hnd) as (Hkept & _ & Hnd').
  rewrite decide_False by done. rewrite list_remove_here by done. simpl.
  rewrite decide_True by done. simpl.
  destruct rem as [|y rem].
  - rewrite app_nil_r. destruct fuel; simpl; [done|].
    by rewrite lookup_ge_None_2 by lia.
  - specialize (IH (kept ++ [y]) rem).
    rewrite length_app, <-(assoc_L (++)) in IH. simpl in IH.
    rewrite Nat.add_1_r in IH. rewrite IH.
    + by rewrite <-(assoc_L (++)).
    + simpl in Hlen. lia.
    + done.
    + by apply Forall_cons in Hrem as [_ ?].
Qed.

(** X3: when every identification names an unknown taxon (and a known
    observation, with pairwise distinct ids), the sanity pass of
    [dataset_tax.py] removes the identifications at the positions 0, 2, 4, ...
    and keeps the ones at the positions 1, 3, 5, ...: each removal moves the
    next record under the iterator, which then steps over it. *)
Theorem sanity_pass_removes_every_second_dangling obs photos idens taxa0 users0 :
  NoDup (ob_id <$> obs) →
  NoDup (iden_id <$> idens) →
  Forall (λ i, (iden_taxon_id i ∉ Tax.taxon_id <$> taxa0)
               ∧ iden_observation_id i ∈ ob_id <$> obs) idens →
  ∃ s, Tax.__init__ obs photos idens taxa0 users0 = Done s
       ∧ identifications s = odd_positions idens.
Proof.
  intros Hobs Hnd Hall. unfold Tax.__init__, Tax._sanity_check_data. simpl.
  rewrite (sanity_scan_alternates _ _ (length idens) [] idens); try done.
  - simpl. unfold assert_unique_ids. cbn [identifications observations].
    assert (ids_unique (iden_id <$> odd_positions idens) = true) as ->.
    { apply Is_true_true, ids_unique_NoDup.
      eapply sublist_NoDup; [done|].
      apply sublist_fmap, odd_positions_sublist. }
    assert (ids_unique (ob_id <$> obs) = true) as ->.
    { by apply Is_true_true, ids_unique_NoDup. }
    by eexists.
  - eapply Forall_impl; [done|]. intros i. by rewrite !index_by_is_Some.
Qed.

Lemma sanity_pass_removes_every_second_dangling_witness :
  ∃ s, Tax.__init__ [Examples.observation 1 None] [] Cases.four_unknown
         [Examples.tax_taxon 5 "9"] [] = Done s
       ∧ identifications s
         = [Examples.identification 2 1 2 99 "200" true;
            Examples.identification 4 1 4 99 "400" true].
Proof.
  apply (sanity_pass_removes_every_second_dangling
           [Examples.observation 1 None] [] Cases.four_unknown
           [Examples.tax_taxon 5 "9"] []).
  - simpl. repeat constructor; set_solver.
  - simpl. repeat constructor; set_solver.
  - unfold Cases.four_unknown. repeat constructor; simpl; set_solver.
Defined.

(** X4: a store that the constructor of either builder returns has
    pairwise distinct observation ids and pairwise distinct identification
    ids, and holds the observations and photos it was given. *)
Theorem construction_asserts_unique_ids :
  (∀ float_of_string obs photos idens taxa0 users0 (s : Store Old.Taxon),
     Old.__init__ float_of_string obs photos idens taxa0 users0 = Done s →
     observations s = obs ∧ observation_photos s = photos
     ∧ NoDup (ob_id <$> observations s)
     ∧ NoDup (iden_id <$> identifications s))
  ∧ (∀ obs photos idens taxa0 users0 (s : Store Tax.Taxon),
       Tax.__init__ obs photos idens taxa0 users0 = Done s →
       observations s = obs ∧ observation_photos s = photos
       ∧ NoDup (ob_id <$> observations s)
       ∧ NoDup (iden_id <$> identifications s)).
Proof.
  split.
  - intros fos obs photos idens taxa0 users0 s Hinit.
    apply old_init_Done in Hinit as (_ & -> & _ & _ & _ & -> & Hi & Ho).
    done.
  - intros obs photos idens taxa0 users0 s Hinit.
    apply tax_init_Done in Hinit as (_ & -> & _ & _ & _ & -> & Hi & Ho).
    done.
Qed.

Lemma construction_asserts_unique_ids_witness :
  ∃ s, Old.__init__ Examples.float_of_string
         [Examples.observation 1 (Some 10%Z)] [Examples.photo 1]
         [Examples.identification 1 1 1 10 "100" true;
          Examples.identification 2 1 2 10 "200" true]
         [Examples.taxon 10 "1" 10] [] = Done s
       ∧ observations s = [Examples.observation 1 (Some 10%Z)]
       ∧ NoDup (iden_id <$> identifications s).
Proof.
  destruct (Old.__init__ Examples.float_of_string
              [Examples.observation 1 (Some 10%Z)] [Examples.photo 1]
              [Examples.identification 1 1 1 10 "100" true;
               Examples.identification 2 1 2 10 "200" true]
              [Examples.taxon 10 "1" 10] [])
    as [s|e] eqn:Hrun; [|vm_compute in Hrun; discriminate].
  destruct (proj1 construction_asserts_unique_ids _ _ _ _ _ _ _ Hrun)
    as (Hobs & _ & _ & Hnd).
  by exists s.
Defined.

Lemma convert_taxa_keep float_of_string (obs_taxon_ids : list (option pyid))
    (l : list Old.Taxon) (taxon : Old.Taxon) :
  taxon ∈ (Old.convert_taxa float_of_string obs_taxon_ids l).2
  ↔ ∃ taxon0 q, taxon0 ∈ l
      ∧ Old.py_float float_of_string (Old.rank_level taxon0) = Done q
      ∧ Some (Old.taxon_id taxon0) ∈ obs_taxon_ids
      ∧ taxon = Old.set_rank_level (VFloat q) taxon0.
Proof.
  induction l as [|t l IH]; simpl.
  { split; [by intros ?%elem_of_nil|]. by intros (? & ? & ?%elem_of_nil & _). }
  destruct (Old.convert_taxa _ _ l) as [all taxa_to_keep]. simpl in IH.
  destruct (Old.py_float _ (Old.rank_level t)) as [q|e] eqn:Hq; simpl.
  - case_decide as Hin; simpl.
    + rewrite elem_of_cons, IH. split.
      * intros [->|(t0 & q0 & Ht0 & ?)].
        -- exists t, q. split_and!; try done. by left.
        -- exists t0, q0. split; [by right|done].
      * intros (t0 & q0 & [->|Ht0]%elem_of_cons & Hq0 & Hin0 & ->).
        -- left. congruence.
        -- right. by exists t0, q0.
    + rewrite IH. split.
      * intros (t0 & q0 & Ht0 & ?). exists t0, q0. split; [by right|done].
      * intros (t0 & q0 & [->|Ht0]%elem_of_cons & Hq0 & Hin0 & ->); [done|].
        by exists t0, q0.
  - rewrite IH. split.
    + intros (t0 & q0 & Ht0 & ?). exists t0, q0. split; [by right|done].
    + intros (t0 & q0 & [->|Ht0]%elem_of_cons & Hq0 & Hin0 & ->);
        [congruence|].
      by exists t0, q0.
Qed.

Lemma check_taxa_taxa float_of_string (s : Store Old.Taxon) :
  taxa (Old.check_taxa float_of_string s)
  = (Old.convert_taxa float_of_string
       (ob_community_taxon_id <$> observations s) (taxa s)).2.
Proof.
  unfold Old.check_taxa.
  destruct (Old.convert_taxa _ _ _) as [all taxa_to_keep] eqn:Hconv.
  apply convert_taxa_spec in Hconv as (_ & _ & _ & Hall).
  case_decide as Hlen; simpl; [done|]. apply Hall.
  destruct (decide (length taxa_to_keep = length (taxa s))); [done|].
  by destruct Hlen.
Qed.

(** X5: the taxa of a store built by the constructor of [dataset_old.py]
    are exactly the given taxa whose [rank_level] converts to a float and
    whose id is the [community_taxon_id] of at least one observation, with
    the [rank_level] replaced by that float.  A taxon that only
    identifications name is dropped. *)
Theorem construction_keeps_community_taxa float_of_string obs photos idens
    taxa0 users0 (s : Store Old.Taxon) :
  Old.__init__ float_of_string obs photos idens taxa0 users0 = Done s →
  ∀ taxon, taxon ∈ taxa s
    ↔ ∃ taxon0 q, taxon0 ∈ taxa0
        ∧ Old.py_float float_of_string (Old.rank_level taxon0) = Done q
        ∧ Some (Old.taxon_id taxon0) ∈ ob_community_taxon_id <$> obs
        ∧ taxon = Old.set_rank_level (VFloat q) taxon0.
Proof.
  intros Hinit taxon.
  apply old_init_Done in Hinit as (_ & _ & -> & _).
  rewrite check_taxa_taxa. simpl. apply convert_taxa_keep.
Qed.

Lemma construction_keeps_community_taxa_witness :
  ∃ s, Old.__init__ Examples.float_of_string
         [Examples.observation 1 (Some 10%Z)] [] []
         [Examples.taxon 10 "1" 10; Examples.taxon 11 "1" 10] [] = Done s
       ∧ (Cases.float_taxon 10 (Some "1") 10 ∈ taxa s
          ↔ ∃ taxon0 q,
              taxon0 ∈ [Examples.taxon 10 "1" 10; Examples.taxon 11 "1" 10]
              ∧ Old.py_float Examples.float_of_string (Old.rank_level taxon0)
                = Done q
              ∧ Some (Old.taxon_id taxon0)
                ∈ ob_community_taxon_id <$> [Examples.observation 1 (Some 10%Z)]
              ∧ Cases.float_taxon 10 (Some "1") 10
                = Old.set_rank_level (VFloat q) taxon0).
Proof.
  destruct (Old.__init__ Examples.float_of_string
              [Examples.observation 1 (Some 10%Z)] [] []
              [Examples.taxon 10 "1" 10; Examples.taxon 11 "1" 10] [])
    as [s|e] eqn:Hrun; [|vm_compute in Hrun; discriminate].
  exists s. split; [done|].
  apply (construction_keeps_community_taxa _ _ _ _ _ _ _ Hrun).
Defined.

(** ** What no operation does *)

Lemma mapM_stamp_fixed_part strptime (fmt1 fmt2 : string)
    (l l' : list Identification) :
  mapM_result (stamp strptime fmt1 fmt2) l = Done l' →
  iden_fixed_part <$> l' = iden_fixed_part <$> l.
Proof.
  intros Hall%mapM_result_inv.
  induction Hall as [|x y l l' Hxy _ IH]; simpl; [done|].
  apply stamp_Done in Hxy as (cat & _ & ->). by f_equal.
Qed.

Lemma list_remove_sublist (x : Identification) (l l' : list Identification) :
  list_remove x l = Done l' → l' `sublist_of` l.
Proof.
  intros (l1 & y & l2 & -> & -> & _)%list_remove_Done.
  apply sublist_app; [done|]. by apply sublist_cons.
Qed.

Lemma remap_scan_fixed_part (m : Old.Remapping) (ranks : gmap pyid pyval)
    (fuel i : nat) (l l' : list Identification) :
  Old.remap_scan m ranks fuel i l = Done l' →
  (iden_fixed_part <$> l') `sublist_of` (iden_fixed_part <$> l).
Proof.
  revert i l. induction fuel as [|fuel IH]; intros i l; simpl.
  { by intros [= <-]. }
  destruct (l !! i) as [iden|] eqn:Hi; [|by intros [= <-]].
  case_decide.
  - destruct (Old.taxon_id_to_remapped_taxon m !! iden_taxon_id iden)
      as [target|]; [|done].
    intros Hrest%IH. rewrite list_fmap_insert in Hrest.
    rewrite list_insert_id in Hrest; [done|].
    by rewrite list_lookup_fmap, Hi.
  - case_decide; [apply IH|].
    intros (l1 & Hl1%list_remove_sublist & Hrest%IH)%bind_Done.
    etrans; [done|]. by apply sublist_fmap.
Qed.

Lemma replace_observations_shrinks {T : Type} (obs : list Observation)
    (s : Store T) :
  obs `sublist_of` observations s →
  observations (replace_observations obs s) `sublist_of` observations s
  ∧ taxa (replace_observations obs s) `sublist_of` taxa s
  ∧ (iden_fixed_part <$> identifications (replace_observations obs s))
      `sublist_of` (iden_fixed_part <$> identifications s)
  ∧ users (replace_observations obs s) = users s.
Proof.
  intros Hsub. simpl. split_and!; try done.
  apply sublist_fmap, sublist_filter.
Qed.

Lemma drop_not_remapped_users (leaf : pyval) (ks : gset pyid)
    (s s1 : Store Old.Taxon) :
  Old.drop_not_remapped leaf ks s = Done s1 → users s1 = users s.
Proof.
  unfold Old.drop_not_remapped. case_decide; [|by intros [= <-]].
  destruct (py_num leaf); [|done]. case_decide; [|done]. by intros [= <-].
Qed.

Lemma run_shrinks strptime random_sample (op : Pipeline.operation)
    (s s' : Store Old.Taxon) :
  Pipeline.run strptime random_sample op s = Done s' →
  observations s' `sublist_of` observations s
  ∧ taxa s' `sublist_of` taxa s
  ∧ (iden_fixed_part <$> identifications s')
      `sublist_of` (iden_fixed_part <$> identifications s)
  ∧ users s' = users s.
Proof.
  destruct op as [ids|keep_index| | | |n|n|leaf|leaf]; simpl.
  - intros [= <-]. apply replace_observations_shrinks, sublist_filter.
  - intros (groups & keep & stamped & _ & _ & Hst & ->)%keep_one_Done. simpl.
    split_and!; try done.
    rewrite <-(mapM_stamp_fixed_part _ _ _ _ _ Hst).
    apply sublist_fmap, sublist_filter.
  - intros ->%keep_current_identifications_Done. simpl.
    split_and!; try done. apply sublist_fmap, sublist_filter.
  - intros [= <-]. apply replace_observations_shrinks, sublist_filter.
  - intros [= <-]. simpl. split_and!; try done; [apply sublist_filter|].
    apply sublist_fmap, sublist_filter.
  - intros [_ ->]%enforce_min_identifications_Done.
    apply replace_observations_shrinks, sublist_filter.
  - unfold enforce_max_observations. destruct n as [m|]; [|by intros [= <-]].
    case_decide; [by intros [= <-]|]. case_decide; [done|].
    intros [= <-]. apply replace_observations_shrinks, sublist_filter.
  - unfold Old.set_rank_level_as_leaf_level.
    intros (m & _ & (s1 & Hdrop & (idens & Hscan & [= <-])%bind_Done)%bind_Done)
      %bind_Done.
    pose proof (drop_not_remapped_users _ _ _ _ Hdrop) as Husers.
    apply drop_not_remapped_Done in Hdrop as (Hobs & Htaxa & Hidens).
    apply remap_scan_fixed_part in Hscan. simpl.
    rewrite Hobs, Htaxa, Husers. rewrite Hidens in Hscan.
    split_and!; try done.
    + etrans; apply sublist_filter.
    + etrans; [done|]. apply sublist_fmap, sublist_filter.
  - intros [= <-]. simpl. split_and!; try done; [apply sublist_filter|].
    apply sublist_fmap, sublist_filter.
Qed.

Lemma fixed_part_ids (l : list Identification) :
  iden_id <$> l = (λ p, p.1.1.1.1.1.1) <$> (iden_fixed_part <$> l).
Proof. by rewrite <-list_fmap_compose. Qed.

(** X6: no pipeline operation adds, reorders or duplicates records.
    After an operation that completes, the observations and the taxa are
    sublists of what they were, and so are the identifications once their
    [taxon_id] and [time] are left aside, the only two keys that an
    operation ever rewrites; [users] is untouched.  So observation ids and
    identification ids that were pairwise distinct stay so. *)
Theorem operations_only_remove (strptime : string → string → option Z)
    (random_sample : list pyid → nat → list pyid) (op : Pipeline.operation)
    (s s' : Store Old.Taxon) :
  Pipeline.run strptime random_sample op s = Done s' →
  observations s' `sublist_of` observations s
  ∧ taxa s' `sublist_of` taxa s
  ∧ (iden_fixed_part <$> identifications s')
      `sublist_of` (iden_fixed_part <$> identifications s)
  ∧ users s' = users s
  ∧ (NoDup (ob_id <$> observations s) → NoDup (ob_id <$> observations s'))
  ∧ (NoDup (iden_id <$> identifications s) →
     NoDup (iden_id <$> identifications s')).
Proof.
  intros (Hobs & Htaxa & Hidens & Husers)%run_shrinks.
  split_and!; try done.
  - intros Hnd. eapply sublist_NoDup; [done|]. by apply sublist_fmap.
  - intros Hnd. eapply sublist_NoDup; [done|].
    rewrite !fixed_part_ids. by apply sublist_fmap.
Qed.

Lemma operations_only_remove_witness :
  ∃ s', Pipeline.run Examples.strptime Examples.random_sample
          (Pipeline.EnforceMinIdentifications 2) Cases.three_observations
        = Done s'
        ∧ observations s' `sublist_of` observations Cases.three_observations
        ∧ (iden_fixed_part <$> identifications s')
            `sublist_of`
            (iden_fixed_part <$> identifications Cases.three_observations)
        ∧ NoDup (iden_id <$> identifications s').
Proof.
  destruct (Pipeline.run Examples.strptime Examples.random_sample
              (Pipeline.EnforceMinIdentifications 2)
              Cases.three_observations)
    as [s'|e] eqn:Hrun; [|vm_compute in Hrun; discriminate].
  destruct (operations_only_remove _ _ _ _ _ Hrun)
    as (Hobs & _ & Hidens & _ & _ & Hnd).
  exists s'. split_and!; [done..|].
  apply Hnd. simpl. repeat constructor; set_solver.
Defined.

(** ** The observation filters *)

Lemma filter_filter_impl {A : Type} (P Q : A → Prop) `{!∀ x, Decision (P x)}
    `{!∀ x, Decision (Q x)} (l : list A) :
  (∀ x, x ∈ l → P x → Q x) → filter P (filter Q l) = filter P l.
Proof.
  intros HPQ. rewrite list_filter_filter. apply filter_ext_in.
  intros x Hx. split; [tauto|]. intros HP. split; [done|by apply HPQ].
Qed.

Lemma replace_observations_twice {T : Type} (obs1 obs2 : list Observation)
    (s : Store T) :
  obs2 ⊆ obs1 →
  replace_observations obs2 (replace_observations obs1 s)
  = replace_observations obs2 s.
Proof.
  intros Hsub. unfold replace_observations. simpl.
  rewrite filter_filter_impl; [done|].
  intros iden _. rewrite !index_by_is_Some.
  intros (ob & -> & Hob)%list_elem_of_fmap.
  apply list_elem_of_fmap_2. by apply Hsub.
Qed.

(** X7: keeping the observations of a list [A] and then those of a
    list [B] is keeping the observations of the ids that are in both, and the
    order of the two calls does not matter. *)
Theorem keep_specific_observations_compose {T : Type} (A B : list pyid)
    (s : Store T) :
  keep_specific_observations B (keep_specific_observations A s)
  = keep_specific_observations (filter (λ k, k ∈ B) A) s
  ∧ keep_specific_observations B (keep_specific_observations A s)
    = keep_specific_observations A (keep_specific_observations B s).
Proof.
  assert (∀ (A B : list pyid),
    keep_specific_observations B (keep_specific_observations A s)
    = replace_observations
        (filter (λ ob, ob_id ob ∈ A ∧ ob_id ob ∈ B) (observations s)) s)
    as Hboth.
  { intros A' B'. unfold keep_specific_observations at 1 2.
    cbn [observations replace_observations].
    rewrite list_filter_filter.
    rewrite (filter_ext_in _ (λ ob, ob_id ob ∈ A' ∧ ob_id ob ∈ B'))
      by (intros ob _; rewrite !elem_of_list_to_set; tauto).
    apply replace_observations_twice.
    intros ob [[? _] ?]%list_elem_of_filter.
    apply list_elem_of_filter. by rewrite elem_of_list_to_set. }
  split.
  - rewrite Hboth. unfold keep_specific_observations. f_equal.
    apply filter_ext_in. intros ob _.
    rewrite elem_of_list_to_set, list_elem_of_filter. tauto.
  - rewrite !Hboth. f_equal. apply filter_ext_in. tauto.
Qed.

Lemma group_by_observation_KeyError (obs : list Observation)
    (idens : list Identification) (iden : Identification) :
  iden ∈ idens → iden_observation_id iden ∉ ob_id <$> obs →
  group_by_observation obs idens = Raise KeyError.
Proof.
  intros Hin Hdangling. rewrite group_by_observation_spec.
  case_decide as Hall; [|done].
  rewrite Forall_forall in Hall. apply Hall in Hin.
  rewrite elem_of_first_occurrences in Hin. done.
Qed.

(** X8: the three methods that group the identifications by
    observation raise a [KeyError] as soon as one identification belongs to
    an observation that the store does not hold, whatever their arguments:
    [enforce_min_identifications] and
    [keep_one_identification_per_user_per_observation] for any such
    identification, [keep_current_identifications] for a current one. *)
Theorem grouping_raises_KeyError {T : Type}
    (strptime : string → string → option Z) (fmt1 fmt2 : string)
    (keep_index min_identifications : Z) (s : Store T)
    (iden : Identification) :
  iden ∈ identifications s →
  iden_observation_id iden ∉ ob_id <$> observations s →
  enforce_min_identifications min_identifications s = Raise KeyError
  ∧ keep_one_identification_per_user_per_observation strptime fmt1 fmt2
      keep_index s = Raise KeyError
  ∧ (is_current iden → keep_current_identifications s = Raise KeyError).
Proof.
  intros Hin Hdangling. split_and!.
  - unfold enforce_min_identifications.
    by rewrite (group_by_observation_KeyError _ _ iden).
  - unfold keep_one_identification_per_user_per_observation.
    by rewrite (group_by_observation_KeyError _ _ iden).
  - intros Hcur. unfold keep_current_identifications.
    cbn [observations identifications replace_identifications].
    rewrite (group_by_observation_KeyError _ _ iden); [done| |done].
    by apply list_elem_of_filter.
Qed.

Lemma grouping_raises_KeyError_witness :
  enforce_min_identifications 1 Cases.unknown_observation = Raise KeyError
  ∧ keep_one_identification_per_user_per_observation Examples.strptime
      Pipeline.first_format Pipeline.second_format 0
      Cases.unknown_observation = Raise KeyError
  ∧ keep_current_identifications Cases.unknown_observation = Raise KeyError.
Proof.
  destruct (grouping_raises_KeyError Examples.strptime Pipeline.first_format
              Pipeline.second_format 0 1 Cases.unknown_observation
              (Examples.identification 1 9 1 10 "100" true))
    as (Hmin & Hone & Hcur).
  - simpl. set_solver.
  - simpl. set_solver.
  - split_and!; [done..|]. by apply Hcur.
Defined.

Lemma idens_of_observation_kept (P : pyid → Prop) `{!∀ k, Decision (P k)}
    (k : pyid) (idens : list Identification) :
  P k →
  idens_of_observation k (filter (λ iden, P (iden_observation_id iden)) idens)
  = idens_of_observation k idens.
Proof.
  intros HP. unfold idens_of_observation. apply filter_filter_impl.
  by intros iden _ ->.
Qed.

(** X9: when [enforce_min_identifications] completes, it keeps exactly
    the observations that have at least [min_identifications]
    identifications, and exactly the identifications of those observations;
    so every observation kept still has its identifications, at least
    [min_identifications] of them. *)
Theorem enforce_min_identifications_post {T : Type} (min_identifications : Z)
    (s s' : Store T) :
  enforce_min_identifications min_identifications s = Done s' →
  observations s'
  = filter (λ ob, (min_identifications
                   ≤ Z.of_nat (length (idens_of_observation (ob_id ob)
                                         (identifications s))))%Z)
           (observations s)
  ∧ identifications s'
    = filter (λ iden, (min_identifications
                       ≤ Z.of_nat (length (idens_of_observation
                                             (iden_observation_id iden)
                                             (identifications s))))%Z)
             (identifications s)
  ∧ ∀ ob, ob ∈ observations s' →
      idens_of_observation (ob_id ob) (identifications s')
      = idens_of_observation (ob_id ob) (identifications s)
      ∧ (min_identifications
         ≤ Z.of_nat (length (idens_of_observation (ob_id ob)
                               (identifications s'))))%Z.
Proof.
  intros [Hres ->]%enforce_min_identifications_Done.
  cbn [observations identifications replace_observations].
  assert (filter (λ iden, is_Some (index_by ob_id
                    (filter (λ ob, (min_identifications
                       ≤ Z.of_nat (length (idens_of_observation (ob_id ob)
                                             (identifications s))))%Z)
                       (observations s))
                    !! iden_observation_id iden)) (identifications s)
          = filter (λ iden, (min_identifications
                       ≤ Z.of_nat (length (idens_of_observation
                                             (iden_observation_id iden)
                                             (identifications s))))%Z)
                   (identifications s)) as Hidens.
  { apply filter_ext_in. intros iden Hin. rewrite index_by_is_Some. split.
    - intros (ob & -> & [? _]%list_elem_of_filter)%list_elem_of_fmap. done.
    - intros Henough.
      destruct (proj1 (list_elem_of_fmap _ _ _) (Hres iden Hin))
        as (ob & Hid & Hob).
      rewrite Hid. apply list_elem_of_fmap_2, list_elem_of_filter.
      by rewrite <-Hid. }
  rewrite Hidens. split; [done|]. split; [done|].
  intros ob [Hob _]%list_elem_of_filter.
  pose proof (idens_of_observation_kept
                (λ k, (min_identifications
                       ≤ Z.of_nat (length (idens_of_observation k
                                             (identifications s))))%Z)
                (ob_id ob) (identifications s) Hob) as Hkept.
  cbn beta in Hkept. by rewrite Hkept.
Qed.

Lemma enforce_min_identifications_post_witness :
  ∃ s', enforce_min_identifications 2 Cases.three_observations = Done s'
        ∧ observations s' = [Examples.observation 1 (Some 10%Z)]
        ∧ identifications s'
          = [Examples.identification 1 1 1 10 "100" true;
             Examples.identification 2 1 2 10 "200" true].
Proof.
  destruct (enforce_min_identifications 2 Cases.three_observations)
    as [s'|e] eqn:Hrun; [|vm_compute in Hrun; discriminate].
  destruct (enforce_min_identifications_post 2 Cases.three_observations s'
              Hrun) as (Hobs & Hidens & _).
  exists s'. split; [done|]. by rewrite Hobs, Hidens.
Defined.

Lemma length_filter_sample {A : Type} (f : A → pyid) (l : list A)
    (t : list pyid) :
  NoDup (f <$> l) → NoDup t → t ⊆ f <$> l →
  length (filter (λ x, f x ∈ t) l) = length t.
Proof.
  intros Hl Ht Hsub.
  rewrite <-(length_fmap f). apply Permutation_length, NoDup_Permutation.
  - apply (sublist_NoDup _ (f <$> l)); [done|].
    apply sublist_fmap, sublist_filter.
  - done.
  - intros k. rewrite list_elem_of_fmap. split.
    + by intros (x & -> & [? _]%list_elem_of_filter).
    + intros Hk. destruct (proj1 (list_elem_of_fmap _ _ _) (Hsub k Hk))
        as (x & -> & Hx).
      exists x. split; [done|]. by apply list_elem_of_filter.
Qed.

(** X10: on a store with pairwise distinct observation ids,
    [enforce_max_observations(m)] with [0 <= m < len(observations)] keeps
    exactly [m] observations, the ones whose id [random.sample] drew, in
    their original order, and the identifications of these observations.
    What is used of [random.sample] is that it draws [m] distinct ids of the
    population. *)
Theorem enforce_max_observations_exact {T : Type}
    (random_sample : list pyid → nat → list pyid) (m : Z) (s : Store T) :
  let sample := random_sample (ob_id <$> observations s) (Z.to_nat m) in
  (0 ≤ m < Z.of_nat (length (observations s)))%Z →
  NoDup (ob_id <$> observations s) →
  NoDup sample → sample ⊆ ob_id <$> observations s →
  length sample = Z.to_nat m →
  ∃ s', enforce_max_observations random_sample (Some m) s = Done s'
        ∧ observations s'
          = filter (λ ob, ob_id ob ∈ sample) (observations s)
        ∧ Z.of_nat (length (observations s')) = m
        ∧ identifications s'
          = filter (λ iden, iden_observation_id iden ∈ sample)
                   (identifications s).
Proof.
  intros sample Hm Hnd Hsample Hsub Hlen.
  unfold enforce_max_observations.
  rewrite decide_False by lia. rewrite decide_False by lia.
  eexists. split; [done|]. fold sample.
  cbn [observations identifications replace_observations].
  split; [done|]. split.
  - rewrite (length_filter_sample ob_id) by done. lia.
  - apply filter_ext_in. intros iden _. rewrite index_by_is_Some. split.
    + by intros (ob & -> & [? _]%list_elem_of_filter)%list_elem_of_fmap.
    + intros Hin. destruct (proj1 (list_elem_of_fmap _ _ _) (Hsub _ Hin))
        as (ob & Hid & Hob).
      rewrite Hid. apply list_elem_of_fmap_2, list_elem_of_filter.
      by rewrite <-Hid.
Qed.

Lemma enforce_max_observations_exact_witness :
  ∃ s', enforce_max_observations Examples.random_sample (Some 2%Z)
          Cases.three_observations = Done s'
        ∧ observations s'
          = [Examples.observation 1 (Some 10%Z);
             Examples.observation 2 (Some 10%Z)]
        ∧ Z.of_nat (length (observations s')) = 2%Z
        ∧ identifications s' = identifications Cases.three_observations.
Proof.
  destruct (enforce_max_observations_exact Examples.random_sample 2
              Cases.three_observations)
    as (s' & Hrun & Hobs & Hlen & Hidens).
  - simpl. lia.
  - simpl. repeat constructor; set_solver.
  - simpl. repeat constructor; set_solver.
  - simpl. set_solver.
  - done.
  - exists s'. split; [done|]. split; [|split]; [|done|].
    + by rewrite Hobs.
    + by rewrite Hidens.
Defined.

(** ** The taxonomy operations *)

(** X11: [create_flat_taxonomy] keeps the taxa whose [rank_level] equals
    the leaf level as numbers (the float 10.0 equals the int 10) and the
    identifications whose [taxon_id] is the id of a taxon kept.  Whatever the
    store was, every identification then names a taxon of the store, and a
    second call changes nothing. *)
Theorem create_flat_taxonomy_post (leaf_rank_level : pyval)
    (s : Store Old.Taxon) :
  let s' := Old.create_flat_taxonomy leaf_rank_level s in
  (∀ taxon, taxon ∈ taxa s'
     ↔ taxon ∈ taxa s ∧ py_eqb (Old.rank_level taxon) leaf_rank_level = true)
  ∧ (∀ iden, iden ∈ identifications s'
       ↔ iden ∈ identifications s
         ∧ iden_taxon_id iden ∈ Old.taxon_id <$> taxa s')
  ∧ (∀ taxon z, taxon ∈ taxa s →
       Old.rank_level taxon = VFloat (inject_Z z) →
       leaf_rank_level = VInt z → taxon ∈ taxa s')
  ∧ Old.create_flat_taxonomy leaf_rank_level s' = s'.
Proof.
  intros s'. subst s'. unfold Old.create_flat_taxonomy, Old.replace_taxa.
  cbn [taxa identifications]. split_and!.
  - intros taxon. rewrite list_elem_of_filter. rewrite Is_true_true. tauto.
  - intros iden. rewrite list_elem_of_filter, index_by_is_Some. tauto.
  - intros taxon z Hin Hrank ->. apply list_elem_of_filter. split; [|done].
    rewrite Hrank. unfold py_eqb. simpl. apply Is_true_true.
    by apply Qeq_bool_iff.
  - rewrite filter_idem, filter_idem. done.
Qed.

Lemma create_flat_taxonomy_post_witness :
  Cases.float_taxon 3 (Some "2") 10
  ∈ taxa (Old.create_flat_taxonomy (VInt 10) Cases.two_level)
  ∧ Old.create_flat_taxonomy (VInt 10)
      (Old.create_flat_taxonomy (VInt 10) Cases.two_level)
    = Old.create_flat_taxonomy (VInt 10) Cases.two_level.
Proof.
  pose proof (create_flat_taxonomy_post (VInt 10) Cases.two_level) as H.
  cbv zeta in H. destruct H as (_ & _ & Hkeep & Hidem).
  split; [|done].
  apply (Hkeep _ 10%Z); [simpl; set_solver|done..].
Defined.

(** X12: referential integrity is established, not only preserved, by
    [create_flat_taxonomy] followed by an observation filter: on any store,
    after [create_flat_taxonomy] and then [remove_obs_with_no_photos],
    [keep_specific_observations] or a completed
    [enforce_min_identifications], every identification names an observation
    and a taxon of the store. *)
Theorem integrity_established (leaf_rank_level : pyval) (s : Store Old.Taxon) :
  let s1 := Old.create_flat_taxonomy leaf_rank_level s in
  referential_integrity Old.taxon_id (Old.remove_obs_with_no_photos s1)
  ∧ (∀ ids, referential_integrity Old.taxon_id
              (keep_specific_observations ids s1))
  ∧ (∀ n s2, enforce_min_identifications n s1 = Done s2 →
             referential_integrity Old.taxon_id s2).
Proof.
  intros s1.
  assert (∀ obs, referential_integrity Old.taxon_id
                   (replace_observations obs s1)) as Hrepl.
  { intros obs iden. cbn [identifications observations taxa
                          replace_observations].
    intros [Hob Hin]%list_elem_of_filter. split.
    - by apply index_by_is_Some.
    - subst s1. unfold Old.create_flat_taxonomy, Old.replace_taxa in Hin |- *.
      cbn [identifications taxa] in Hin |- *.
      apply list_elem_of_filter in Hin as [Ht _]. by apply index_by_is_Some. }
  split_and!.
  - apply Hrepl.
  - intros ids. apply Hrepl.
  - intros n s2 [_ ->]%enforce_min_identifications_Done. apply Hrepl.
Qed.

Lemma integrity_established_witness :
  ∃ s2, enforce_min_identifications 1
          (Old.create_flat_taxonomy (VInt 10) Examples.dangling_taxon)
        = Done s2
        ∧ referential_integrity Old.taxon_id s2
        ∧ ¬ referential_integrity Old.taxon_id Examples.dangling_taxon.
Proof.
  destruct (enforce_min_identifications 1
              (Old.create_flat_taxonomy (VInt 10) Examples.dangling_taxon))
    as [s2|e] eqn:Hrun; [|vm_compute in Hrun; discriminate].
  pose proof (integrity_established (VInt 10) Examples.dangling_taxon) as H.
  cbv zeta in H. destruct H as (_ & _ & Hmin).
  exists s2. split; [done|]. split; [by apply (Hmin 1%Z)|].
  intros Hri.
  destruct (Hri (Examples.identification 1 1 1 99 "100" true)) as [_ Hin].
  - simpl. set_solver.
  - simpl in Hin. set_solver.
Defined.

(** ** The rank collapse, in general *)

Lemma foldlM_Done_each {A B : Type} (f : B → A → result B) (l : list A)
    (acc b : B) (x : A) :
  foldlM f acc l = Done b → x ∈ l → ∃ b1 b2, f b1 x = Done b2.
Proof.
  revert acc. induction l as [|y l IH]; intros acc; simpl.
  { by intros _ ?%elem_of_nil. }
  intros (acc' & Hy & Hrest)%bind_Done [->|Hx]%elem_of_cons; eauto.
Qed.

Lemma foldlM_Raise {A B : Type} (e : exn) (f : B → A → result B)
    (l : list A) (acc : B) (x : A) :
  (∀ b y, y ∈ l → (∃ b', f b y = Done b') ∨ f b y = Raise e) →
  x ∈ l → (∀ b, f b x = Raise e) →
  foldlM f acc l = Raise e.
Proof.
  revert acc. induction l as [|y l IH]; intros acc Hstep Hx Hraise.
  { by apply elem_of_nil in Hx. }
  simpl. apply elem_of_cons in Hx as [->|Hx]; [by rewrite Hraise|].
  destruct (Hstep acc y) as [[b' ->]| ->]; [by left| |done].
  simpl. apply IH; [|done..]. intros b z Hz. apply Hstep. by right.
Qed.

Lemma remap_taxon_py_lt (idx : gmap pyid Old.Taxon) (ranks : gmap pyid pyval)
    (leaf : pyval) (m m' : Old.Remapping) (taxon : Old.Taxon) :
  Old.remap_taxon idx ranks leaf m taxon = Done m' →
  ∃ b, py_lt (Old.rank_level taxon) leaf = Done b.
Proof.
  unfold Old.remap_taxon.
  destruct (py_lt (Old.rank_level taxon) leaf) as [b|e]; [eauto|done].
Qed.

(** X13: when [set_rank_level_as_leaf_level] completes, no taxon below
    the leaf level is left: every taxon of the result is a taxon of the
    store whose [rank_level] is not lower than the leaf level.  On a store
    with pairwise distinct taxon ids in which every identification resolves,
    every identification of the result then names such a taxon. *)
Theorem set_rank_level_as_leaf_level_post (leaf_rank_level : pyval)
    (s s' : Store Old.Taxon) :
  Old.set_rank_level_as_leaf_level leaf_rank_level s = Done s' →
  (∀ taxon, taxon ∈ taxa s' →
     taxon ∈ taxa s
     ∧ py_lt (Old.rank_level taxon) leaf_rank_level = Done false)
  ∧ (referential_integrity Old.taxon_id s →
     NoDup (Old.taxon_id <$> taxa s) →
     ∀ iden, iden ∈ identifications s' →
       ∃ taxon, taxon ∈ taxa s'
         ∧ Old.taxon_id taxon = iden_taxon_id iden
         ∧ py_lt (Old.rank_level taxon) leaf_rank_level = Done false).
Proof.
  intros Hrun.
  assert (∀ taxon, taxon ∈ taxa s' →
            taxon ∈ taxa s
            ∧ py_lt (Old.rank_level taxon) leaf_rank_level = Done false)
    as Htaxa.
  { pose proof Hrun as Hrun'. unfold Old.set_rank_level_as_leaf_level in Hrun'.
    apply bind_Done in Hrun' as (m & Hm & Hrest).
    apply bind_Done in Hrest as (s1 & Hdrop & Hrest).
    apply bind_Done in Hrest as (idens & _ & [= <-]).
    apply drop_not_remapped_Done in Hdrop as (_ & Htaxa1 & _).
    pose proof (remapping_spec _ _ _ Hm) as (Hlower & _).
    intros taxon. cbn [taxa]. rewrite Htaxa1.
    intros [Hnl [_ Hin]%list_elem_of_filter]%list_elem_of_filter.
    split; [done|].
    destruct (foldlM_Done_each _ _ _ _ taxon Hm Hin) as (m1 & m2 & Hstep).
    apply remap_taxon_py_lt in Hstep as [[] Hb]; [|done].
    destruct Hnl. apply Hlower. by exists taxon. }
  split; [done|].
  intros Hri Hnd iden Hin.
  pose proof (set_rank_level_as_leaf_level_integrity _ _ _ Hri Hnd Hrun)
    as Hri'.
  destruct (Hri' iden Hin) as [_ (taxon & Hid & Htaxon)%list_elem_of_fmap].
  exists taxon. split_and!; [done..|]. by apply Htaxa.
Qed.

Lemma set_rank_level_as_leaf_level_post_witness :
  ∃ s', Old.set_rank_level_as_leaf_level (VInt 20) Cases.two_level = Done s'
        ∧ (∀ taxon, taxon ∈ taxa s' →
             py_lt (Old.rank_level taxon) (VInt 20) = Done false)
        ∧ (∀ iden, iden ∈ identifications s' →
             ∃ taxon, taxon ∈ taxa s'
               ∧ Old.taxon_id taxon = iden_taxon_id iden
               ∧ py_lt (Old.rank_level taxon) (VInt 20) = Done false).
Proof.
  destruct (Old.set_rank_level_as_leaf_level (VInt 20) Cases.two_level)
    as [s'|e] eqn:Hrun; [|vm_compute in Hrun; discriminate].
  destruct (set_rank_level_as_leaf_level_post (VInt 20) Cases.two_level s'
              Hrun) as [Htaxa Hidens].
  exists s'. split; [done|]. split.
  - intros taxon Hin. by apply Htaxa.
  - apply Hidens.
    + intros iden Hin. simpl in *. set_solver.
    + simpl. repeat constructor; set_solver.
Defined.

Lemma find_higher_ancestor_outcome (txs : list Old.Taxon) (leaf : pyval)
    (ancestry_ids : list string) :
  Forall has_float_rank txs → is_Some (py_num leaf) →
  (∃ found, Old.find_higher_ancestor (index_by Old.taxon_id txs)
              (Old.rank_level <$> index_by Old.taxon_id txs) leaf ancestry_ids
            = Done found)
  ∨ Old.find_higher_ancestor (index_by Old.taxon_id txs)
      (Old.rank_level <$> index_by Old.taxon_id txs) leaf ancestry_ids
    = Raise ValueError.
Proof.
  intros Hfloat [x Hleaf].
  induction ancestry_ids as [|c rest IH]; simpl; [eauto|].
  destruct (int_of_string c) as [z|]; [|by right].
  rewrite lookup_fmap.
  destruct (index_by Old.taxon_id txs !! IdInt z) as [ancestor|] eqn:Hanc;
    simpl; [|done].
  apply index_by_lookup_Some in Hanc as [Hin _].
  rewrite Forall_forall in Hfloat. destruct (Hfloat _ Hin) as [q Hq].
  rewrite Hq. unfold py_ge. simpl. rewrite Hleaf. simpl.
  destruct (Qle_bool x q); [eauto|done].
Qed.

Lemma py_lt_numeric (taxon : Old.Taxon) (leaf : pyval) :
  has_float_rank taxon → is_Some (py_num leaf) →
  ∃ b, py_lt (Old.rank_level taxon) leaf = Done b.
Proof.
  intros [q Hq] [x Hleaf]. rewrite Hq. unfold py_lt. simpl. rewrite Hleaf.
  eauto.
Qed.

Lemma remap_taxon_outcome (txs : list Old.Taxon) (leaf : pyval)
    (m : Old.Remapping) (taxon : Old.Taxon) :
  Forall has_float_rank txs → is_Some (py_num leaf) → taxon ∈ txs →
  (∃ m', Old.remap_taxon (index_by Old.taxon_id txs)
           (Old.rank_level <$> index_by Old.taxon_id txs) leaf m taxon
         = Done m')
  ∨ Old.remap_taxon (index_by Old.taxon_id txs)
      (Old.rank_level <$> index_by Old.taxon_id txs) leaf m taxon
    = Raise ValueError.
Proof.
  intros Hfloat Hleaf Hin. unfold Old.remap_taxon.
  rewrite Forall_forall in Hfloat.
  destruct (py_lt_numeric taxon leaf (Hfloat _ Hin) Hleaf) as [b ->]. simpl.
  destruct b; [|eauto].
  destruct (Old.ancestry taxon) as [a|]; [|eauto].
  destruct (find_higher_ancestor_outcome txs leaf (reverse (split_on "/" a)))
    as [[found ->]| ->]; [by apply Forall_forall|done| |by right].
  simpl. destruct found; eauto.
Qed.

(** X14: an ancestry whose last component is not an integer ends
    [set_rank_level_as_leaf_level] with a [ValueError], for a taxon below the
    leaf level: [int] is applied to the components from the last one on.
    The empty ancestry [''] is such an ancestry, since [''.split('/')] is
    [['']]; only an ancestry of [None] counts as "no ancestors".  Here the
    rank levels are floats, as the constructor leaves them, and the leaf
    level is a number. *)
Theorem set_rank_level_as_leaf_level_bad_ancestry (leaf_rank_level : pyval)
    (s : Store Old.Taxon) (taxon : Old.Taxon) (a c : string) :
  Forall has_float_rank (taxa s) →
  is_Some (py_num leaf_rank_level) →
  taxon ∈ taxa s →
  py_lt (Old.rank_level taxon) leaf_rank_level = Done true →
  Old.ancestry taxon = Some a →
  last (split_on "/" a) = Some c →
  int_of_string c = None →
  Old.set_rank_level_as_leaf_level leaf_rank_level s = Raise ValueError.
Proof.
  intros Hfloat Hleaf Hin Hlower Hanc Hlast Hint.
  unfold Old.set_rank_level_as_leaf_level.
  rewrite (foldlM_Raise ValueError _ _ _ taxon); [done| |done|].
  - intros m y Hy. by apply remap_taxon_outcome.
  - intros m. unfold Old.remap_taxon. rewrite Hlower, Hanc. simpl.
    destruct (reverse (split_on "/" a)) as [|c' rest] eqn:Hrev.
    { apply (f_equal reverse) in Hrev. rewrite reverse_involutive in Hrev.
      by rewrite Hrev in Hlast. }
    assert (c' = c) as ->.
    { apply (f_equal reverse) in Hrev. rewrite reverse_involutive in Hrev.
      rewrite Hrev, reverse_cons, last_snoc in Hlast. congruence. }
    simpl. by rewrite Hint.
Qed.

Lemma set_rank_level_as_leaf_level_bad_ancestry_witness :
  Old.set_rank_level_as_leaf_level (VInt 20) Cases.empty_ancestry
  = Raise ValueError.
Proof.
  apply (set_rank_level_as_leaf_level_bad_ancestry (VInt 20)
           Cases.empty_ancestry (Cases.float_taxon 3 (Some "") 10) "" "").
  - simpl. repeat constructor. by eexists.
  - by eexists.
  - simpl. set_solver.
  - by vm_compute.
  - done.
  - by vm_compute.
  - by vm_compute.
Defined.

(** X15: a leaf level that is not a number, such as the string ['10']
    that is the default of [create_flat_taxonomy], ends
    [set_rank_level_as_leaf_level] with a [TypeError] on every store that
    holds a taxon, once the rank levels are floats: the first comparison
    [taxon['rank_level'] < leaf_rank_level] fails. *)
Theorem set_rank_level_as_leaf_level_leaf_type (leaf_rank_level : pyval)
    (s : Store Old.Taxon) :
  py_num leaf_rank_level = None →
  taxa s ≠ [] →
  Forall has_float_rank (taxa s) →
  Old.set_rank_level_as_leaf_level leaf_rank_level s = Raise TypeError.
Proof.
  intros Hleaf Hne Hfloat. unfold Old.set_rank_level_as_leaf_level.
  destruct (taxa s) as [|taxon rest]; [done|].
  apply Forall_cons in Hfloat as [[q Hq] _]. cbn [foldlM].
  assert (∀ idx ranks m,
            Old.remap_taxon idx ranks leaf_rank_level m taxon
            = Raise TypeError) as ->; [|done].
  intros idx ranks m. unfold Old.remap_taxon. rewrite Hq. unfold py_lt.
  simpl. by rewrite Hleaf.
Qed.

Lemma set_rank_level_as_leaf_level_leaf_type_witness :
  Old.set_rank_level_as_leaf_level (VStr "10") Cases.two_level
  = Raise TypeError.
Proof.
  apply (set_rank_level_as_leaf_level_leaf_type (VStr "10") Cases.two_level).
  - done.
  - done.
  - simpl. repeat constructor; by eexists.
Defined.

(** ** The prior estimator and the interchange structure *)

Lemma estimate_taxa_priors_KeyError (include_taxa_ids : option (list pyid))
    (s : Store Old.Taxon) (iden : Identification) :
  iden ∈ identifications s →
  ob_id_to_ob s !! iden_observation_id iden = None →
  Old.estimate_taxa_priors include_taxa_ids s = Raise KeyError.
Proof.
  intros Hin Hnone. unfold Old.estimate_taxa_priors.
  rewrite (foldlM_Raise KeyError _ _ _ iden); [done| |done|].
  - intros acc y _. unfold Old.community_label.
    destruct (ob_id_to_ob s !! iden_observation_id y) as [ob|]; [|by right].
    left. destruct (ob_community_taxon_id ob); [case_decide|]; eauto.
  - intros acc. unfold Old.community_label. by rewrite Hnone.
Qed.

Lemma estimate_taxa_priors_cases (include_taxa_ids : option (list pyid))
    (s : Store Old.Taxon) :
  (∃ ks, NoDup ks
     ∧ (∀ k, k ∈ ks ↔ k ∈ working_set include_taxa_ids s)
     ∧ (∀ iden, iden ∈ identifications s →
          is_Some (ob_id_to_ob s !! iden_observation_id iden))
     ∧ Old.estimate_taxa_priors include_taxa_ids s
       = Done (od_table ks
                 (λ k, py_float_of_int (smoothed_count s k)
                       / py_float_of_int (sum_Z (smoothed_count s <$> ks)))%float))
  ∨ (Old.estimate_taxa_priors include_taxa_ids s = Raise KeyError
     ∧ ∃ iden, iden ∈ identifications s
         ∧ ob_id_to_ob s !! iden_observation_id iden = None).
Proof.
  destruct (decide (Forall (λ iden, is_Some (ob_id_to_ob s
                                      !! iden_observation_id iden))
                      (identifications s))) as [Hall|Hnot].
  - rewrite Forall_forall in Hall. left.
    destruct (estimate_taxa_priors_table include_taxa_ids s Hall)
      as (ks & ? & ? & ?).
    by exists ks.
  - right. apply not_Forall_Exists in Hnot; [|apply _].
    apply Exists_exists in Hnot as (iden & Hin & Hnone).
    apply eq_None_not_Some in Hnone.
    split; [by eapply estimate_taxa_priors_KeyError|eauto].
Qed.

(** X16: [estimate_taxa_priors] raises a [KeyError] when an
    identification belongs to an observation that [ob_id_to_ob] does not
    hold, and it raises in no other case and nothing else: the division by
    the total cannot fail, since nothing is divided when the total is 0. *)
Theorem estimate_taxa_priors_outcome (include_taxa_ids : option (list pyid))
    (s : Store Old.Taxon) :
  (∀ iden, iden ∈ identifications s →
     ob_id_to_ob s !! iden_observation_id iden = None →
     Old.estimate_taxa_priors include_taxa_ids s = Raise KeyError)
  ∧ (∀ e, Old.estimate_taxa_priors include_taxa_ids s = Raise e →
       e = KeyError
       ∧ ∃ iden, iden ∈ identifications s
           ∧ ob_id_to_ob s !! iden_observation_id iden = None).
Proof.
  split; [intros iden; apply estimate_taxa_priors_KeyError|].
  intros e He.
  destruct (estimate_taxa_priors_cases include_taxa_ids s)
    as [(ks & _ & _ & _ & Hrun)|[Hrun Hiden]]; [congruence|].
  split; [congruence|done].
Qed.

Lemma estimate_taxa_priors_outcome_witness :
  Old.estimate_taxa_priors None Cases.unknown_observation = Raise KeyError.
Proof.
  apply (proj1 (estimate_taxa_priors_outcome None Cases.unknown_observation)
           (Examples.identification 1 9 1 10 "100" true)).
  - simpl. set_solver.
  - by vm_compute.
Defined.

(** ** Insertion-ordered dicts, by key and by lookup *)

Section odict_facts.
Context {K V : Type} `{EqDecision K}.
Implicit Types (d : odict K V) (k : K) (v : V).

Lemma od_get_set d k k' v :
  od_get k' (od_set k v d) = if decide (k' = k) then Some v else od_get k' d.
Proof.
  induction d as [|[k0 v0] d IH]; simpl.
  - by destruct (decide (k' = k)).
  - destruct (decide (k = k0)) as [->|Hne]; simpl.
    + by destruct (decide (k' = k0)).
    + destruct (decide (k' = k0)) as [->|Hne'].
      * by rewrite decide_False by done.
      * done.
Qed.

Lemma od_get_None d k : od_get k d = None ↔ k ∉ od_keys d.
Proof.
  unfold od_keys. induction d as [|[k0 v0] d IH]; simpl.
  - split; [by intros _ ?%elem_of_nil|done].
  - destruct (decide (k = k0)) as [->|Hne].
    + split; [done|]. intros []. by left.
    + rewrite IH. rewrite not_elem_of_cons. tauto.
Qed.

Lemma od_get_is_Some d k : is_Some (od_get k d) ↔ k ∈ od_keys d.
Proof.
  rewrite <-not_eq_None_Some, od_get_None.
  split; [|tauto]. intros Hnn.
  destruct (od_get k d) eqn:Hget.
  - apply dec_stable. tauto.
  - apply dec_stable. tauto.
Qed.

End odict_facts.

Lemma od_keys_set {V : Type} (d : odict pyid V) (k : pyid) (v : V) :
  od_keys (od_set k v d) = add_new (od_keys d) k.
Proof.
  unfold add_new, od_keys. induction d as [|[k0 v0] d IH]; [done|].
  cbn [od_set]. destruct (decide (k = k0)) as [->|Hne].
  - clear IH. rewrite !fmap_cons. cbn [fst].
    case_decide as Hin; [done|]. destruct Hin. by left.
  - rewrite !fmap_cons. cbn [fst]. rewrite IH. clear IH.
    destruct (decide (k ∈ d.*1)) as [Hin|Hin].
    + case_decide as Hin'; [done|]. destruct Hin'. by right.
    + case_decide as Hin'; [|done].
      by apply elem_of_cons in Hin' as [?|?].
Qed.

Lemma od_keys_foldl_set {A V : Type} (f : A → pyid)
    (h : odict pyid V → A → V) (d : odict pyid V) (l : list A) :
  od_keys (foldl (λ d x, od_set (f x) (h d x) d) d l)
  = foldl add_new (od_keys d) (f <$> l).
Proof.
  revert d. induction l as [|x l IH]; intros d; simpl; [done|].
  by rewrite IH, od_keys_set.
Qed.

(** ** The pieces of [create_dataset] *)

Lemma collect_workers_spec (idens : list Identification) :
  od_keys (collect_workers idens)
  = first_occurrences (iden_user_id <$> idens)
  ∧ ∀ u w, od_get u (collect_workers idens) = Some w → w = u.
Proof.
  unfold collect_workers, first_occurrences.
  assert (∀ (d : odict pyid pyid),
    (∀ u w, od_get u d = Some w → w = u) →
    od_keys (foldl (λ d iden, match od_get (iden_user_id iden) d with
                              | None => od_set (iden_user_id iden)
                                          (iden_user_id iden) d
                              | Some _ => d
                              end) d idens)
    = foldl add_new (od_keys d) (iden_user_id <$> idens)
    ∧ ∀ u w, od_get u (foldl (λ d iden,
                 match od_get (iden_user_id iden) d with
                 | None => od_set (iden_user_id iden) (iden_user_id iden) d
                 | Some _ => d
                 end) d idens) = Some w → w = u) as Hgen.
  { induction idens as [|iden idens IH]; intros d Hd; [done|].
    rewrite fmap_cons. cbn [foldl].
    destruct (od_get (iden_user_id iden) d) as [w|] eqn:Hget.
    - destruct (IH d Hd) as [-> Hval]. split; [|done].
      f_equal. unfold add_new. rewrite decide_True; [done|].
      apply od_get_is_Some. by rewrite Hget.
    - destruct (IH (od_set (iden_user_id iden) (iden_user_id iden) d))
        as [-> Hval].
      + intros u w. rewrite od_get_set. case_decide; [congruence|apply Hd].
      + by rewrite od_keys_set. }
  apply (Hgen []). by intros u w.
Qed.

Lemma od_get_empty_table {V : Type} (v : V) (obs : list Observation)
    (d : odict pyid V) (k : pyid) :
  od_get k (foldl (λ d ob, od_set (ob_id ob) v d) d obs)
  = if decide (k ∈ ob_id <$> obs) then Some v else od_get k d.
Proof.
  revert d. induction obs as [|ob obs IH]; intros d.
  { cbn [foldl]. case_decide as Hin; [|done]. by apply elem_of_nil in Hin. }
  rewrite fmap_cons. cbn [foldl]. rewrite IH, od_get_set. clear IH.
  destruct (decide (k = ob_id ob)) as [->|Hne].
  - rewrite (decide_True (P := ob_id ob ∈ ob_id ob :: _)) by (by left).
    by case_decide.
  - destruct (decide (k ∈ ob_id <$> obs)) as [Hin|Hin].
    + by rewrite decide_True by (by right).
    + rewrite decide_False; [done|]. by intros [?|?]%elem_of_cons.
Qed.

Lemma collect_urls_fold (ids : list pyid) (photos : list ObservationPhoto)
    (d : odict pyid (list (option string))) (g : pyid → list (option string))
    (k : pyid) :
  (∀ k, od_get k d = if decide (k ∈ ids) then Some (g k) else None) →
  od_get k (foldl (λ d ob_image,
              match od_get (photo_observation_id ob_image) d with
              | Some urls =>
                  od_set (photo_observation_id ob_image)
                    (urls ++ [native_original_image_url ob_image]) d
              | None => d
              end) d photos)
  = if decide (k ∈ ids)
    then Some (g k ++ urls_of_observation k photos) else None.
Proof.
  revert d g. induction photos as [|photo photos IH]; intros d g Hd.
  { cbn [foldl]. rewrite Hd. case_decide; [|done].
    unfold urls_of_observation. by rewrite filter_nil, app_nil_r. }
  cbn [foldl]. rewrite (Hd (photo_observation_id photo)).
  destruct (decide (photo_observation_id photo ∈ ids)) as [Hin|Hin].
  - rewrite (IH _ (λ k', if decide (k' = photo_observation_id photo)
                         then g k' ++ [native_original_image_url photo]
                         else g k')).
    + case_decide; [|done]. f_equal. unfold urls_of_observation.
      rewrite filter_cons.
      destruct (decide (k = photo_observation_id photo)) as [->|Hne].
      * rewrite decide_True by done. rewrite fmap_cons.
        by rewrite <-(assoc_L (++)).
      * rewrite decide_False; [done|]. by intros <-.
    + intros k'. rewrite od_get_set, Hd.
      destruct (decide (k' = photo_observation_id photo)) as [->|Hne];
        [by rewrite decide_True by done|done].
  - rewrite (IH d g Hd). case_decide as Hk; [|done]. f_equal.
    unfold urls_of_observation. rewrite filter_cons.
    rewrite decide_False; [done|]. by intros <-.
Qed.

Lemma collect_urls_get (obs : list Observation)
    (photos : list ObservationPhoto) (k : pyid) :
  od_get k (Old.collect_urls obs photos)
  = if decide (k ∈ ob_id <$> obs)
    then Some (urls_of_observation k photos) else None.
Proof.
  unfold Old.collect_urls.
  rewrite (collect_urls_fold (ob_id <$> obs) photos _ (λ _, [])); [done|].
  intros k'. by rewrite od_get_empty_table.
Qed.

Lemma urls_of_observation_nil (k : pyid) (photos : list ObservationPhoto) :
  urls_of_observation k photos = [] ↔ k ∉ photo_observation_id <$> photos.
Proof.
  unfold urls_of_observation. split.
  - intros Hnil%fmap_nil_inv (photo & -> & Hin)%list_elem_of_fmap.
    by apply (filter_nil_not_elem_of _ _ photo) in Hnil.
  - intros Hnot. rewrite filter_none; [done|].
    apply Forall_forall. intros photo Hin <-.
    apply Hnot. by apply list_elem_of_fmap_2.
Qed.

Lemma add_image_outcome (obs : list Observation)
    (photos : list ObservationPhoto) (d : odict pyid Old.Image)
    (ob : Observation) :
  ob ∈ obs →
  Old.add_image (Old.collect_urls obs photos) d ob
  = match urls_of_observation (ob_id ob) photos with
    | [] => Raise IndexError
    | url :: urls =>
        Done (od_set (ob_id ob)
                {| Old.image_id := ob_id ob;
                   Old.image_created_at := ob_created_at ob;
                   Old.image_url := url;
                   Old.image_urls := url :: urls |} d)
    end.
Proof.
  intros Hin. unfold Old.add_image. rewrite collect_urls_get.
  rewrite decide_True by (by apply list_elem_of_fmap_2).
  by destruct (urls_of_observation _ _).
Qed.

Lemma foldlM_add_image (obs : list Observation)
    (photos : list ObservationPhoto) (l : list Observation)
    (d : odict pyid Old.Image) :
  l ⊆ obs →
  (∀ ob, ob ∈ l → ob_id ob ∈ photo_observation_id <$> photos) →
  ∃ images,
    foldlM (Old.add_image (Old.collect_urls obs photos)) d l = Done images
    ∧ od_keys images = foldl add_new (od_keys d) (ob_id <$> l)
    ∧ ∀ k image, od_get k images = Some image →
        od_get k d = Some image
        ∨ ∃ ob, ob ∈ l ∧ ob_id ob = k
            ∧ Old.image_id image = k
            ∧ Old.image_created_at image = ob_created_at ob
            ∧ Old.image_urls image = urls_of_observation k photos
            ∧ head (Old.image_urls image) = Some (Old.image_url image).
Proof.
  revert d. induction l as [|ob l IH]; intros d Hsub Hphotos.
  { exists d. split_and!; [done..|]. intros k image. by left. }
  cbn [foldlM]. rewrite add_image_outcome by (apply Hsub; by left).
  destruct (urls_of_observation (ob_id ob) photos) as [|url urls] eqn:Hurls.
  { apply urls_of_observation_nil in Hurls. destruct Hurls.
    apply Hphotos. by left. }
  simpl.
  destruct (IH (od_set (ob_id ob)
                  {| Old.image_id := ob_id ob;
                     Old.image_created_at := ob_created_at ob;
                     Old.image_url := url;
                     Old.image_urls := url :: urls |} d))
    as (images & -> & Hkeys & Hget).
  { intros x Hx. apply Hsub. by right. }
  { intros x Hx. apply Hphotos. by right. }
  exists images. split; [done|]. split.
  - by rewrite Hkeys, od_keys_set.
  - intros k image [Hin|(ob' & Hob' & ?)]%Hget.
    + rewrite od_get_set in Hin. case_decide as Hk; [|by left].
      right. injection Hin as <-. subst k. exists ob. simpl.
      split_and!; try done. by left.
    + right. exists ob'. split; [by right|done].
Qed.

Lemma foldlM_add_anno (labels : odict pyid nat) (idens : list Identification)
    (acc : list Old.Anno) :
  (∀ iden, iden ∈ idens → iden_taxon_id iden ∈ od_keys labels) →
  foldlM (Old.add_anno labels) acc idens
  = Done (acc ++ ((λ iden, anno_of (default 0 (od_get (iden_taxon_id iden)
                                                 labels)) iden) <$> idens)).
Proof.
  revert acc. induction idens as [|iden idens IH]; intros acc Hin.
  { simpl. by rewrite app_nil_r. }
  cbn [foldlM].
  destruct (proj2 (od_get_is_Some labels (iden_taxon_id iden))) as [label Hl].
  { apply Hin. by left. }
  assert (Old.add_anno labels acc iden = Done (acc ++ [anno_of label iden]))
    as ->.
  { unfold Old.add_anno. by rewrite Hl. }
  simpl. rewrite IH by (intros x Hx; apply Hin; by right).
  by rewrite <-(assoc_L (++)), Hl.
Qed.

Lemma enumerate_labels_keys (leaf_taxa_priors : odict pyid float) :
  od_keys (Old.enumerate_labels leaf_taxa_priors)
  = first_occurrences (od_keys leaf_taxa_priors).
Proof.
  unfold Old.enumerate_labels.
  rewrite (od_keys_foldl_set (λ item : nat * pyid, item.2)
             (λ _ item, item.1)).
  unfold first_occurrences. f_equal. apply list_eq. intros i.
  rewrite list_lookup_fmap, list_lookup_imap.
  by destruct (od_keys leaf_taxa_priors !! i).
Qed.

Lemma create_dataset_cases (leaf_taxa_priors : odict pyid float)
    (s : Store Old.Taxon) :
  (∀ ob, ob ∈ observations s →
     ob_id ob ∉ photo_observation_id <$> observation_photos s →
     Old.create_dataset leaf_taxa_priors s = Raise IndexError)
  ∧ ((∀ ob, ob ∈ observations s →
        ob_id ob ∈ photo_observation_id <$> observation_photos s) →
     (∀ iden, iden ∈ identifications s →
        iden_taxon_id iden ∉ od_keys leaf_taxa_priors →
        Old.create_dataset leaf_taxa_priors s = Raise AssertionError)
     ∧ ((∀ iden, iden ∈ identifications s →
           iden_taxon_id iden ∈ od_keys leaf_taxa_priors) →
        ∃ d, Old.create_dataset leaf_taxa_priors s = Done d)).
Proof.
  split; [|intros Hphotos; split].
  - intros ob Hin Hnone. unfold Old.create_dataset.
    rewrite (foldlM_Raise IndexError _ _ _ ob); [done| |done|].
    + intros d y Hy. rewrite add_image_outcome by done.
      destruct (urls_of_observation _ _); eauto.
    + intros d. rewrite add_image_outcome by done.
      by rewrite (proj2 (urls_of_observation_nil _ _) Hnone).
  - intros iden Hin Hnone. unfold Old.create_dataset.
    destruct (foldlM_add_image (observations s) (observation_photos s)
                (observations s) []) as (images & -> & _); [done..|].
    simpl.
    rewrite (foldlM_Raise AssertionError _ _ _ iden); [done| |done|].
    + intros acc y _. unfold Old.add_anno.
      destruct (od_get _ _); eauto.
    + intros acc. unfold Old.add_anno.
      rewrite (proj2 (od_get_None _ _)); [done|].
      by rewrite enumerate_labels_keys, elem_of_first_occurrences.
  - intros Hkeys. unfold Old.create_dataset.
    destruct (foldlM_add_image (observations s) (observation_photos s)
                (observations s) []) as (images & -> & _); [done..|].
    simpl. rewrite foldlM_add_anno; [simpl; eauto|].
    intros iden Hin.
    rewrite enumerate_labels_keys, elem_of_first_occurrences. by apply Hkeys.
Qed.

(** X17: the three outcomes of [create_dataset] of
    [dataset_old.py].  An observation without a photo ends it with an
    [IndexError], whatever the priors are.  When every observation has a
    photo, an identification whose [taxon_id] is not a key of the priors ends
    it with the [AssertionError] of [assert False].  Otherwise it returns a
    dataset. *)
Theorem create_dataset_outcome (leaf_taxa_priors : odict pyid float)
    (s : Store Old.Taxon) :
  (∀ ob, ob ∈ observations s →
     ob_id ob ∉ photo_observation_id <$> observation_photos s →
     Old.create_dataset leaf_taxa_priors s = Raise IndexError)
  ∧ ((∀ ob, ob ∈ observations s →
        ob_id ob ∈ photo_observation_id <$> observation_photos s) →
     (∀ iden, iden ∈ identifications s →
        iden_taxon_id iden ∉ od_keys leaf_taxa_priors →
        Old.create_dataset leaf_taxa_priors s = Raise AssertionError)
     ∧ ((∀ iden, iden ∈ identifications s →
           iden_taxon_id iden ∈ od_keys leaf_taxa_priors) →
        ∃ d, Old.create_dataset leaf_taxa_priors s = Done d)).
Proof. apply create_dataset_cases. Qed.

Lemma od_get_Some_lookup {V : Type} (d : odict pyid V) (k : pyid) (v : V) :
  od_get k d = Some v → ∃ i, d !! i = Some (k, v).
Proof.
  induction d as [|[k0 v0] d IH]; simpl; [done|].
  destruct (decide (k = k0)) as [->|Hne].
  - intros [= ->]. by exists 0.
  - intros [i Hi]%IH. by exists (S i).
Qed.

Lemma create_dataset_outcome_witness :
  Old.create_dataset [(IdInt 10, 1%float)] Cases.three_observations
  = Raise IndexError
  ∧ Old.create_dataset [] Examples.small = Raise AssertionError
  ∧ ∃ d, Old.create_dataset [(IdInt 10, 1%float)] Examples.small = Done d.
Proof.
  destruct (create_dataset_outcome [(IdInt 10, 1%float)]
              Cases.three_observations) as [Hindex _].
  destruct (create_dataset_outcome [] Examples.small) as [_ Hassert].
  destruct (create_dataset_outcome [(IdInt 10, 1%float)] Examples.small)
    as [_ Hdone].
  split_and!.
  - apply (Hindex (Examples.observation 2 (Some 10%Z))); simpl; set_solver.
  - destruct Hassert as [Hassert _].
    { intros ob Hin. simpl in *. set_solver. }
    apply (Hassert (Examples.identification 1 1 1 10 "100" true));
      simpl; set_solver.
  - destruct Hdone as [_ Hdone].
    { intros ob Hin. simpl in *. set_solver. }
    apply Hdone. intros iden Hin. simpl in *. set_solver.
Defined.

Lemma enumerate_labels_decode (leaf_taxa_priors : odict pyid float) (k : pyid)
    (label : nat) :
  NoDup (od_keys leaf_taxa_priors) →
  od_get k (Old.enumerate_labels leaf_taxa_priors) = Some label →
  od_keys leaf_taxa_priors !! label = Some k.
Proof.
  intros Hnd. rewrite enumerate_labels_NoDup by done.
  intros [i Hi]%od_get_Some_lookup. unfold odict in *.
  rewrite list_lookup_imap in Hi.
  destruct (od_keys leaf_taxa_priors !! i) as [k'|] eqn:Hk; [|done].
  simpl in Hi. by simplify_eq.
Qed.

Lemma create_dataset_Done (leaf_taxa_priors : odict pyid float)
    (s : Store Old.Taxon) (d : Old.Dataset) :
  Old.create_dataset leaf_taxa_priors s = Done d →
  (∀ ob, ob ∈ observations s →
     ob_id ob ∈ photo_observation_id <$> observation_photos s)
  ∧ (∀ iden, iden ∈ identifications s →
       iden_taxon_id iden ∈ od_keys leaf_taxa_priors).
Proof.
  intros Hrun.
  destruct (create_dataset_cases leaf_taxa_priors s) as [Hindex Hrest].
  assert (∀ ob, ob ∈ observations s →
            ob_id ob ∈ photo_observation_id <$> observation_photos s)
    as Hphotos.
  { intros ob Hin.
    destruct (decide (ob_id ob
                      ∈ photo_observation_id <$> observation_photos s))
      as [|Hnot]; [done|].
    rewrite (Hindex ob Hin Hnot) in Hrun. done. }
  split; [done|]. destruct (Hrest Hphotos) as [Hassert _].
  intros iden Hin.
  destruct (decide (iden_taxon_id iden ∈ od_keys leaf_taxa_priors))
    as [|Hnot]; [done|].
  rewrite (Hassert iden Hin Hnot) in Hrun. done.
Qed.

Lemma create_dataset_value (leaf_taxa_priors : odict pyid float)
    (s : Store Old.Taxon) :
  (∀ ob, ob ∈ observations s →
     ob_id ob ∈ photo_observation_id <$> observation_photos s) →
  (∀ iden, iden ∈ identifications s →
     iden_taxon_id iden ∈ od_keys leaf_taxa_priors) →
  ∃ images,
    Old.create_dataset leaf_taxa_priors s
    = Done {| Old.dataset :=
                {| Old.num_classes :=
                     length (Old.enumerate_labels leaf_taxa_priors);
                   Old.inat_taxon_id_to_class_label :=
                     Old.enumerate_labels leaf_taxa_priors;
                   Old.global_class_priors := od_values leaf_taxa_priors |};
              Old.workers := collect_workers (identifications s);
              Old.images := images;
              Old.annos :=
                (λ iden, anno_of (default 0 (od_get (iden_taxon_id iden)
                                     (Old.enumerate_labels leaf_taxa_priors)))
                                 iden) <$> identifications s |}
    ∧ od_keys images = first_occurrences (ob_id <$> observations s)
    ∧ ∀ k image, od_get k images = Some image →
        ∃ ob, ob ∈ observations s ∧ ob_id ob = k
          ∧ Old.image_id image = k
          ∧ Old.image_created_at image = ob_created_at ob
          ∧ Old.image_urls image
            = urls_of_observation k (observation_photos s)
          ∧ head (Old.image_urls image) = Some (Old.image_url image).
Proof.
  intros Hphotos Hkeys. unfold Old.create_dataset.
  destruct (foldlM_add_image (observations s) (observation_photos s)
              (observations s) []) as (images & -> & Hik & Hig);
    [done..|].
  exists images. simpl. rewrite foldlM_add_anno.
  2:{ intros iden Hin.
      rewrite enumerate_labels_keys, elem_of_first_occurrences.
      by apply Hkeys. }
  simpl. split; [done|]. split; [done|].
  intros k image [?|(ob & ?)]%Hig; [done|]. by exists ob.
Qed.

(** X18: what a dataset of [dataset_old.py] holds.  There is one
    annotation per identification, in the order of the identifications, with
    the identification's id, observation, user and [created_at], and its
    label is the position of the identification's [taxon_id] among the keys
    of the priors.  The workers are the users of the identifications, each
    once, in the order of their first identification.  The images are keyed
    by the observation ids in the order of the observations; an image holds
    the urls of the photos of its observation in the order of the photos, and
    its [url] is the first of them. *)
Theorem create_dataset_contents (leaf_taxa_priors : odict pyid float)
    (s : Store Old.Taxon) (d : Old.Dataset) :
  NoDup (od_keys leaf_taxa_priors) →
  Old.create_dataset leaf_taxa_priors s = Done d →
  Forall2 (λ iden anno,
             anno = anno_of (Old.anno_label anno) iden
             ∧ od_keys leaf_taxa_priors !! Old.anno_label anno
               = Some (iden_taxon_id iden))
          (identifications s) (Old.annos d)
  ∧ od_keys (Old.workers d)
    = first_occurrences (iden_user_id <$> identifications s)
  ∧ (∀ u w, od_get u (Old.workers d) = Some w → w = u)
  ∧ od_keys (Old.images d) = first_occurrences (ob_id <$> observations s)
  ∧ (∀ k image, od_get k (Old.images d) = Some image →
       ∃ ob, ob ∈ observations s ∧ ob_id ob = k
         ∧ Old.image_id image = k
         ∧ Old.image_created_at image = ob_created_at ob
         ∧ Old.image_urls image
           = urls_of_observation k (observation_photos s)
         ∧ head (Old.image_urls image) = Some (Old.image_url image)).
Proof.
  intros Hnd Hrun.
  destruct (create_dataset_Done _ _ _ Hrun) as [Hphotos Hkeys].
  destruct (create_dataset_value _ _ Hphotos Hkeys)
    as (images & Hrun' & Hik & Hig).
  rewrite Hrun' in Hrun. injection Hrun as <-. simpl.
  destruct (collect_workers_spec (identifications s)) as [Hwk Hwv].
  split_and!; [|done..].
  apply Forall2_fmap_r, Forall_Forall2_diag, Forall_forall.
  intros iden Hin. simpl. split; [done|].
  destruct (proj2 (od_get_is_Some (Old.enumerate_labels leaf_taxa_priors)
                     (iden_taxon_id iden))) as [label Hl].
  { rewrite enumerate_labels_keys, elem_of_first_occurrences.
    by apply Hkeys. }
  rewrite Hl. simpl. by apply enumerate_labels_decode.
Qed.

Lemma create_dataset_contents_witness :
  ∃ d, Old.create_dataset [(IdInt 10, 1%float)] Examples.small = Done d
       ∧ Forall2 (λ iden anno,
                    anno = anno_of (Old.anno_label anno) iden
                    ∧ [IdInt 10] !! Old.anno_label anno
                      = Some (iden_taxon_id iden))
                 (identifications Examples.small) (Old.annos d)
       ∧ od_keys (Old.workers d) = [IdInt 1; IdInt 2]
       ∧ od_keys (Old.images d) = [IdInt 1].
Proof.
  destruct (Old.create_dataset [(IdInt 10, 1%float)] Examples.small)
    as [d|e] eqn:Hrun; [|vm_compute in Hrun; discriminate].
  destruct (create_dataset_contents [(IdInt 10, 1%float)] Examples.small d)
    as (Hannos & Hworkers & _ & Himages & _).
  - simpl. repeat constructor; set_solver.
  - done.
  - exists d. split; [done|]. split; [done|].
    by rewrite Hworkers, Himages.
Defined.

Lemma estimate_taxa_priors_Done_keys (include_taxa_ids : option (list pyid))
    (s : Store Old.Taxon) (priors : odict pyid float) :
  Old.estimate_taxa_priors include_taxa_ids s = Done priors →
  NoDup (od_keys priors)
  ∧ ∀ k, k ∈ od_keys priors ↔ k ∈ working_set include_taxa_ids s.
Proof.
  intros Hrun.
  destruct (estimate_taxa_priors_cases include_taxa_ids s)
    as [(ks & Hnd & Hks & _ & Hrun')|[Hrun' _]]; [|congruence].
  rewrite Hrun' in Hrun. injection Hrun as <-.
  by rewrite od_keys_table.
Qed.

(** X19: the priors that [main] estimates on one store with the taxon
    ids of two stores as [include_taxa_ids] have a label for every
    identification of both, so [create_dataset] raises no [AssertionError]
    on either: when every observation of the two stores has a photo, both
    datasets are built, and they have the same class labels and the same
    priors.  The priors of [estimate_taxa_priors()] alone do the same for the
    store they were estimated on. *)
Theorem priors_cover_both_datasets (s1 s2 : Store Old.Taxon)
    (priors : odict pyid float) :
  (Old.estimate_taxa_priors
     (Some (iden_taxon_id <$> identifications s1 ++ identifications s2)) s1
   = Done priors
   ∨ (Old.estimate_taxa_priors None s1 = Done priors ∧ s2 = s1)) →
  (∀ ob, ob ∈ observations s1 →
     ob_id ob ∈ photo_observation_id <$> observation_photos s1) →
  (∀ ob, ob ∈ observations s2 →
     ob_id ob ∈ photo_observation_id <$> observation_photos s2) →
  ∃ d1 d2,
    Old.create_dataset priors s1 = Done d1
    ∧ Old.create_dataset priors s2 = Done d2
    ∧ Old.dataset d1 = Old.dataset d2
    ∧ Old.num_classes (Old.dataset d1) = length priors
    ∧ length (Old.annos d1) = length (identifications s1)
    ∧ length (Old.annos d2) = length (identifications s2).
Proof.
  intros Hpriors Hph1 Hph2.
  assert (NoDup (od_keys priors)
          ∧ (∀ iden, iden ∈ identifications s1 →
               iden_taxon_id iden ∈ od_keys priors)
          ∧ (∀ iden, iden ∈ identifications s2 →
               iden_taxon_id iden ∈ od_keys priors))
    as (Hnd & Hk1 & Hk2).
  { destruct Hpriors as [Hrun|[Hrun ->]];
      apply estimate_taxa_priors_Done_keys in Hrun as [Hnd Hks];
      (split; [done|]); unfold working_set in Hks.
    - split; intros iden Hin; apply Hks; apply elem_of_union; right;
        apply elem_of_list_to_set, list_elem_of_fmap_2, elem_of_app;
        [by left|by right].
    - split; intros iden Hin; apply Hks;
        by apply elem_of_list_to_set, list_elem_of_fmap_2. }
  destruct (create_dataset_value priors s1 Hph1 Hk1) as (im1 & Hrun1 & _).
  destruct (create_dataset_value priors s2 Hph2 Hk2) as (im2 & Hrun2 & _).
  eexists _, _. split; [exact Hrun1|]. split; [exact Hrun2|]. simpl.
  rewrite !length_fmap. split_and!; try done.
  rewrite enumerate_labels_NoDup by done.
  rewrite length_imap. unfold od_keys. by rewrite length_fmap.
Qed.

Lemma priors_cover_both_datasets_witness :
  ∃ priors d1 d2,
    Old.estimate_taxa_priors
      (Some (iden_taxon_id
             <$> identifications Cases.train ++ identifications Cases.test))
      Cases.train = Done priors
    ∧ Old.create_dataset priors Cases.train = Done d1
    ∧ Old.create_dataset priors Cases.test = Done d2
    ∧ Old.dataset d1 = Old.dataset d2
    ∧ Old.num_classes (Old.dataset d1) = 2%nat.
Proof.
  destruct (Old.estimate_taxa_priors
              (Some (iden_taxon_id <$> identifications Cases.train
                                       ++ identifications Cases.test))
              Cases.train) as [priors|e] eqn:Hpriors;
    [|vm_compute in Hpriors; discriminate].
  destruct (priors_cover_both_datasets Cases.train Cases.test priors)
    as (d1 & d2 & Hd1 & Hd2 & Hsame & Hnum & _).
  - by left.
  - intros ob Hin. simpl in *. set_solver.
  - intros ob Hin. simpl in *. set_solver.
  - exists priors, d1, d2. split_and!; [done..|].
    rewrite Hnum. vm_compute in Hpriors. by injection Hpriors as <-.
Defined.

(** ** The labels of [dataset_tax.py] *)

Lemma foldlM_snoc {A B : Type} (f : B → A → result B) (acc : B) (l : list A)
    (x : A) :
  foldlM f acc (l ++ [x]) = acc' ← foldlM f acc l; f acc' x.
Proof.
  rewrite foldlM_app. destruct (foldlM f acc l) as [acc'|e]; simpl; [|done].
  by destruct (f acc' x).
Qed.

(** The label of an int id is the [key] of the last taxon with that id. *)
Lemma foldlM_add_label (l : list Tax.Taxon) (d : odict Z (option string))
    (z : Z) (label : option string) :
  foldlM Tax.add_label [] l = Done d →
  od_get z d = Some label →
  ∃ pre taxon post, l = pre ++ taxon :: post
    ∧ py_int (Tax.taxon_id taxon) = Done z
    ∧ Tax.key taxon = label
    ∧ Forall (λ t, py_int (Tax.taxon_id t) ≠ Done z) post.
Proof.
  revert d. induction l as [|x l IH] using rev_ind; intros d.
  { by intros [= <-]. }
  rewrite foldlM_snoc. intros (d1 & Hd1 & Hx)%bind_Done.
  unfold Tax.add_label in Hx. apply bind_Done in Hx as (zx & Hzx & [= <-]).
  rewrite od_get_set. destruct (decide (z = zx)) as [->|Hne].
  - intros [= <-]. exists l, x, []. by split_and!.
  - intros (pre & taxon & post & -> & Hz & Hkey & Hpost)%(IH d1 Hd1).
    exists pre, taxon, (post ++ [x]). split_and!; try done.
    + by rewrite <-(assoc_L (++)).
    + apply Forall_app. split; [done|]. apply Forall_singleton. congruence.
Qed.

Lemma foldlM_tax_add_anno (labels : odict Z (option string))
    (idens : list Identification) (acc annos : list Tax.Anno) :
  foldlM (Tax.add_anno labels) acc idens = Done annos →
  ∃ new, annos = acc ++ new
    ∧ Forall2 (λ iden anno,
                 ∃ z label, py_int (iden_taxon_id iden) = Done z
                   ∧ od_get z labels = Some label
                   ∧ anno = {| Tax.anno_label := Tax.py_str label;
                               Tax.anno_image_id := iden_observation_id iden;
                               Tax.anno_worker_id := iden_user_id iden;
                               Tax.anno_created_at := iden_created_at iden;
                               Tax.anno_id := iden_id iden |})
              idens new.
Proof.
  revert acc. induction idens as [|iden idens IH]; intros acc.
  { intros [= <-]. exists []. by rewrite app_nil_r. }
  cbn [foldlM]. intros (acc' & Hstep & Hrest)%bind_Done.
  unfold Tax.add_anno in Hstep.
  apply bind_Done in Hstep as (z & Hz & Hstep).
  destruct (od_get z labels) as [label|] eqn:Hl; [|done].
  injection Hstep as <-.
  apply IH in Hrest as (new & -> & Hnew).
  eexists (_ :: new). split; [by rewrite <-(assoc_L (++))|].
  constructor; [|done]. by exists z, label.
Qed.

(** X20: in a dataset of [dataset_tax.py], there is one annotation per
    identification, in order, and taxon ids are matched after [int]: the
    label of an identification is [str] of the [key] of the last taxon whose
    [taxon_id] is the same integer as the identification's [taxon_id], so the
    string ['5'] of a csv row meets the int [5].  There is one image per
    observation id. *)
Theorem tax_create_dataset_labels (leaf_taxa_priors : odict pyid float)
    (s : Store Tax.Taxon) (d : Tax.Dataset) :
  Tax.create_dataset leaf_taxa_priors s = Done d →
  Forall2 (λ iden anno,
             Tax.anno_id anno = iden_id iden
             ∧ Tax.anno_image_id anno = iden_observation_id iden
             ∧ Tax.anno_worker_id anno = iden_user_id iden
             ∧ Tax.anno_created_at anno = iden_created_at iden
             ∧ ∃ z pre taxon post,
                 py_int (iden_taxon_id iden) = Done z
                 ∧ taxa s = pre ++ taxon :: post
                 ∧ py_int (Tax.taxon_id taxon) = Done z
                 ∧ Forall (λ t, py_int (Tax.taxon_id t) ≠ Done z) post
                 ∧ Tax.anno_label anno = Tax.py_str (Tax.key taxon))
          (identifications s) (Tax.annos d)
  ∧ od_keys (Tax.images d) = first_occurrences (ob_id <$> observations s)
  ∧ od_keys (Tax.workers d)
    = first_occurrences (iden_user_id <$> identifications s).
Proof.
  unfold Tax.create_dataset.
  intros (labels & Hlabels & (annos & Hannos & [= <-])%bind_Done)%bind_Done.
  simpl. split_and!.
  - apply foldlM_tax_add_anno in Hannos as (new & -> & Hnew). simpl.
    eapply Forall2_impl; [done|]. simpl.
    intros iden anno (z & label & Hz & Hl & ->). simpl.
    split_and!; try done.
    destruct (foldlM_add_label _ _ _ _ Hlabels Hl)
      as (pre & taxon & post & Htaxa & Hzt & <- & Hpost).
    by exists z, pre, taxon, post.
  - rewrite (od_keys_foldl_set ob_id
               (λ _ ob, {| Tax.image_id := ob_id ob |})). done.
  - apply collect_workers_spec.
Qed.

Lemma tax_create_dataset_labels_witness :
  ∃ d, Tax.create_dataset [] Cases.tax_labels = Done d
       ∧ Tax.anno_label <$> Tax.annos d = ["8"%string]
       ∧ od_keys (Tax.images d) = [IdInt 1]
       ∧ od_keys (Tax.workers d) = [IdInt 7].
Proof.
  destruct (Tax.create_dataset [] Cases.tax_labels)
    as [d|e] eqn:Hrun; [|vm_compute in Hrun; discriminate].
  destruct (tax_create_dataset_labels [] Cases.tax_labels d Hrun)
    as (Hannos & Himages & Hworkers).
  exists d. split; [done|]. split; [|by rewrite Himages, Hworkers].
  cbn [identifications Cases.tax_labels Examples.store] in Hannos.
  apply Forall2_cons_inv_l in Hannos
    as (anno & rest & (_ & _ & _ & _ & z & pre & taxon & post & Hz & Htaxa
                       & Hzt & Hpost & Hlabel) & ->%Forall2_nil_inv_l & ->).
  simpl. f_equal. rewrite Hlabel. clear Hlabel.
  injection Hz as <-.
  change (taxa Cases.tax_labels)
    with [Examples.tax_taxon 5 "9"; Examples.tax_taxon 5 "8"] in Htaxa.
  destruct pre as [|t1 [|t2 pre]]; simplify_list_eq;
    [|done|by destruct pre].
  apply Forall_cons in Hpost as [Hbad _]. by destruct Hbad.
Defined.

(** [int] on an id fails in two ways: on a string that spells no integer and
    on [None]. *)
Lemma py_int_Raise (k : pyid) (e : exn) :
  py_int k = Raise e →
  (e = ValueError ∧ ∃ str, k = IdStr str ∧ int_of_string str = None)
  ∨ (e = TypeError ∧ k = IdNone).
Proof.
  destruct k as [z|str|num den|]; simpl; [done| |done|].
  - destruct (int_of_string str) eqn:Hstr; [done|].
    intros [= <-]. left. eauto.
  - intros [= <-]. by right.
Qed.

Lemma foldlM_Raise_inv {A B : Type} (f : B → A → result B) (l : list A)
    (acc : B) (e : exn) :
  foldlM f acc l = Raise e → ∃ b x, x ∈ l ∧ f b x = Raise e.
Proof.
  revert acc. induction l as [|x l IH]; intros acc; simpl; [done|].
  destruct (f acc x) as [acc'|e'] eqn:Hx; simpl.
  - intros (b & y & Hy & Hraise)%IH. exists b, y. split; [by right|done].
  - intros [= ->]. exists acc, x. split; [by left|done].
Qed.

(** Every taxon whose id converts has a label under that integer. *)
Lemma foldlM_add_label_Some (l : list Tax.Taxon)
    (acc d : odict Z (option string)) (taxon : Tax.Taxon) (z : Z) :
  foldlM Tax.add_label acc l = Done d →
  is_Some (od_get z acc) ∨ (taxon ∈ l ∧ py_int (Tax.taxon_id taxon) = Done z) →
  is_Some (od_get z d).
Proof.
  revert acc. induction l as [|x l IH]; intros acc; simpl.
  { intros [= <-] [?|[[]%elem_of_nil _]]. done. }
  intros (acc' & Hx & Hrest)%bind_Done Hz.
  unfold Tax.add_label in Hx. apply bind_Done in Hx as (zx & Hzx & [= <-]).
  apply (IH _ Hrest). rewrite od_get_set.
  destruct (decide (z = zx)) as [->|Hne]; [by left|].
  destruct Hz as [?|[[->|?]%elem_of_cons Htaxon]]; [by left| |by right].
  congruence.
Qed.



(** ** One identification per user and observation, for any [keep_index] *)

Lemma mapM_result_elem {A B : Type} (f : A → result B) (l : list A)
    (l' : list B) (x : A) :
  mapM_result f l = Done l' → x ∈ l → ∃ y, f x = Done y ∧ y ∈ l'.
Proof.
  intros HF%mapM_result_inv [i Hi]%list_elem_of_lookup.
  destruct (Forall2_lookup_l _ _ _ _ _ HF Hi) as (y & Hy & Hxy).
  exists y. split; [done|]. by eapply list_elem_of_lookup_2.
Qed.

Lemma py_index_elem {A : Type} (l : list A) (i : Z) (x : A) :
  py_index l i = Done x → x ∈ l.
Proof.
  unfold py_index. case_decide; [|done].
  destruct (l !! _) as [y|] eqn:Hy; [|done].
  intros [= <-]. by eapply list_elem_of_lookup_2.
Qed.

Lemma py_index_outcome {A : Type} (l : list A) (i : Z) :
  (∃ x, py_index l i = Done x) ∨ py_index l i = Raise IndexError.
Proof.
  unfold py_index. case_decide; [|by right].
  destruct (l !! _); eauto.
Qed.

Lemma group_of_elem (y j : Identification) (idens : list Identification) :
  y ∈ group_of j idens ↔ y ∈ idens ∧ same_group y j.
Proof.
  unfold group_of, idens_of_user, idens_of_observation, same_group.
  rewrite !list_elem_of_filter. tauto.
Qed.

Section keep_any.
Variable strptime : string → string → option Z.
Variables fmt1 fmt2 : string.
Variable keep_index : Z.

#[local] Abbreviation stt := (stamp_total strptime fmt1 fmt2).
#[local] Abbreviation parsed iden :=
  (stamp strptime fmt1 fmt2 iden = Done (stamp_total strptime fmt1 fmt2 iden)).
#[local] Abbreviation pick l := (py_index (sort_by_time (stt <$> l)) keep_index).

Lemma winner_set_parsed (u : pyid) (l : list Identification) :
  (∀ iden, iden ∈ l → parsed iden) →
  winner_set strptime fmt1 fmt2 keep_index (u, l)
  = w ← pick l; Done {[iden_id w]}.
Proof.
  intros Hp. unfold winner_set. simpl.
  by rewrite (mapM_result_Done _ stt) by by apply Forall_forall.
Qed.

Lemma winners_of_observation_inv (k : pyid) (l : list Identification)
    (Z : gset pyid) :
  (∀ iden, iden ∈ l → parsed iden) →
  winners_of_observation strptime fmt1 fmt2 keep_index (k, l) = Done Z →
  (∀ j, j ∈ l →
     ∃ w, pick (idens_of_user (iden_user_id j) l) = Done w ∧ iden_id w ∈ Z)
  ∧ (∀ kid, kid ∈ Z →
       ∃ j w, j ∈ l ∧ pick (idens_of_user (iden_user_id j) l) = Done w
              ∧ kid = iden_id w).
Proof.
  intros Hp. unfold winners_of_observation. simpl.
  rewrite group_by_user_table.
  intros (Ys & HYs & [= <-])%bind_Done.
  assert (∀ u iden, iden ∈ idens_of_user u l → parsed iden) as Hpu.
  { intros u iden [_ ?]%list_elem_of_filter. by apply Hp. }
  split.
  - intros j Hj.
    destruct (mapM_result_elem _ _ _
                (iden_user_id j, idens_of_user (iden_user_id j) l) HYs)
      as (Y & HY & HinY).
    { unfold od_table. apply list_elem_of_fmap_2' with (iden_user_id j);
        [|done].
      apply elem_of_first_occurrences. by apply list_elem_of_fmap_2. }
    rewrite winner_set_parsed in HY by by eapply Hpu.
    apply bind_Done in HY as (w & Hw & [= <-]).
    exists w. split; [done|]. apply elem_of_union_list.
    exists {[iden_id w]}. split; [done|]. by apply elem_of_singleton.
  - intros kid Hkid.
    apply (mapM_result_union_elem _ _ _ _ HYs) in Hkid
      as (x & Y & (u & -> & Hu)%list_elem_of_fmap & HY & Hkid).
    apply elem_of_first_occurrences, list_elem_of_fmap in Hu
      as (j & -> & Hj).
    rewrite winner_set_parsed in HY by by eapply Hpu.
    apply bind_Done in HY as (w & Hw & [= <-]).
    apply elem_of_singleton in Hkid. by exists j, w.
Qed.

Lemma pick_all_inv (obs : list Observation) (idens : list Identification)
    (keep : gset pyid) :
  (∀ iden, iden ∈ idens → parsed iden) →
  foldlM (pick_for_observation strptime fmt1 fmt2 keep_index) ∅
         (od_table (first_occurrences (ob_id <$> obs))
                   (λ k, idens_of_observation k idens)) = Done keep →
  (∀ j, j ∈ idens → iden_observation_id j ∈ ob_id <$> obs →
     ∃ w, pick (group_of j idens) = Done w ∧ iden_id w ∈ keep)
  ∧ (∀ kid, kid ∈ keep →
       ∃ j w, j ∈ idens ∧ pick (group_of j idens) = Done w
              ∧ kid = iden_id w).
Proof.
  intros Hp.
  rewrite (foldlM_union
             (winners_of_observation strptime fmt1 fmt2 keep_index))
    by apply pick_for_observation_union.
  intros (Zs & HZs & [= <-])%bind_Done.
  assert (∀ k iden, iden ∈ idens_of_observation k idens → parsed iden) as Hpk.
  { intros k iden [_ ?]%list_elem_of_filter. by apply Hp. }
  split.
  - intros j Hj Hob.
    destruct (mapM_result_elem _ _ _
                (iden_observation_id j,
                 idens_of_observation (iden_observation_id j) idens) HZs)
      as (Z & HZ & HinZ).
    { unfold od_table.
      apply list_elem_of_fmap_2' with (iden_observation_id j); [|done].
      by apply elem_of_first_occurrences. }
    apply winners_of_observation_inv in HZ as [Hall _]; [|by eapply Hpk].
    destruct (Hall j) as (w & Hw & Hin); [by apply list_elem_of_filter|].
    exists w. split; [done|]. apply elem_of_union. right.
    apply elem_of_union_list. by exists Z.
  - intros kid [?%elem_of_empty|Hkid]%elem_of_union; [done|].
    apply (mapM_result_union_elem _ _ _ _ HZs) in Hkid
      as (x & Z & (k & -> & Hk)%list_elem_of_fmap & HZ & Hkid).
    apply winners_of_observation_inv in HZ as [_ Hsome]; [|by eapply Hpk].
    destruct (Hsome kid Hkid) as (j & w & [Hobj Hj]%list_elem_of_filter
                                  & Hw & ->).
    exists j, w. unfold group_of. rewrite Hobj. by split_and!.
Qed.

Context {T : Type}.
Implicit Types s : Store T.

Lemma keep_one_inv s s' :
  keep_one_identification_per_user_per_observation strptime fmt1 fmt2
    keep_index s = Done s' →
  (∀ iden, iden ∈ identifications s → parsed iden)
  ∧ (∀ iden, iden ∈ identifications s →
       iden_observation_id iden ∈ ob_id <$> observations s)
  ∧ ∃ keep : gset pyid,
      s' = replace_identifications
             (filter (λ iden, iden_id iden ∈ keep)
                     (stt <$> identifications s)) s
      ∧ (∀ j, j ∈ identifications s →
           ∃ w, pick (group_of j (identifications s)) = Done w
                ∧ iden_id w ∈ keep)
      ∧ (∀ kid, kid ∈ keep →
           ∃ j w, j ∈ identifications s
                  ∧ pick (group_of j (identifications s)) = Done w
                  ∧ kid = iden_id w).
Proof.
  intros (groups & keep & stamped & [Hres ->]%group_by_observation_inv
          & Hkeep & Hst & ->)%keep_one_Done.
  assert (∀ iden, iden ∈ identifications s → parsed iden) as Hp.
  { intros iden Hin.
    destruct (mapM_result_elem _ _ _ iden Hst Hin) as (iden' & Hs & _).
    by apply stamp_parses in Hs as [? _]. }
  split; [done|]. split; [done|]. exists keep.
  apply pick_all_inv in Hkeep as [Hall Hsome]; [|done].
  split_and!; [|by eauto|done].
  rewrite (mapM_result_Done _ stt) in Hst by by apply Forall_forall.
  by injection Hst as <-.
Qed.

(** The records that survive: the stamped records that are the pick of
    their own group. *)
Lemma keep_one_survivors s s' :
  NoDup (iden_id <$> identifications s) →
  keep_one_identification_per_user_per_observation strptime fmt1 fmt2
    keep_index s = Done s' →
  (∀ j, j ∈ identifications s →
     ∃ i0, i0 ∈ identifications s ∧ same_group i0 j
           ∧ pick (group_of j (identifications s)) = Done (stt i0))
  ∧ ∀ i', i' ∈ identifications s'
      ↔ ∃ i, i ∈ identifications s ∧ i' = stt i
             ∧ pick (group_of i (identifications s)) = Done (stt i).
Proof.
  intros Hnd Hrun.
  destruct (keep_one_inv s s' Hrun) as (Hp & Hres & keep & -> & Hall & Hsome).
  set (idens := identifications s) in *.
  assert (∀ j w, j ∈ idens → pick (group_of j idens) = Done w →
            ∃ i0, i0 ∈ idens ∧ same_group i0 j ∧ w = stt i0) as Hwin.
  { intros j w Hj Hw. apply py_index_elem in Hw.
    rewrite elem_of_sort_by_time in Hw.
    apply list_elem_of_fmap in Hw as (i0 & -> & Hi0).
    rewrite group_of_elem in Hi0. destruct Hi0 as [? ?].
    exists i0. by split_and!. }
  assert (∀ j, j ∈ idens →
            ∃ i0, i0 ∈ idens ∧ same_group i0 j
                  ∧ pick (group_of j idens) = Done (stt i0)) as Hpick.
  { intros j Hj. destruct (Hall j Hj) as (w & Hw & _).
    destruct (Hwin j w Hj Hw) as (i0 & ? & ? & ->). by exists i0. }
  split; [done|].
  intros i'. cbn [identifications replace_identifications].
  rewrite list_elem_of_filter, list_elem_of_fmap. split.
  - intros (Hk & i & -> & Hi). exists i. split_and!; [done..|].
    destruct (Hsome _ Hk) as (j & w & Hj & Hw & Hid).
    destruct (Hwin j w Hj Hw) as (i0 & Hi0 & Hsame & ->).
    destruct (stamp_total_fields strptime fmt1 fmt2 i) as (Hidi & _).
    destruct (stamp_total_fields strptime fmt1 fmt2 i0) as (Hidi0 & _).
    assert (i = i0) as <-.
    { eapply (NoDup_fmap_eq iden_id idens); [done..|congruence]. }
    by rewrite (group_of_same i j).
  - intros (i & Hi & -> & Hw). split; [|by exists i].
    destruct (Hall i Hi) as (w & Hw' & Hin). congruence.
Qed.

End keep_any.

(** X22: whatever [keep_index] is, when
    [keep_one_identification_per_user_per_observation] completes on a store
    with pairwise distinct identification ids, it has kept exactly one
    identification of every (observation, user) pair that had any, each with
    its parsed [created_at] as ['time'], and it has left the observations and
    the taxa alone. *)
Theorem keep_one_selects_one_per_group {T : Type}
    (strptime : string → string → option Z) (fmt1 fmt2 : string)
    (keep_index : Z) (s s' : Store T) :
  NoDup (iden_id <$> identifications s) →
  keep_one_identification_per_user_per_observation strptime fmt1 fmt2
    keep_index s = Done s' →
  observations s' = observations s
  ∧ taxa s' = taxa s
  ∧ (∀ i', i' ∈ identifications s' →
       ∃ i cat, i ∈ identifications s
         ∧ parse_created_at strptime fmt1 fmt2 (iden_created_at i) = Done cat
         ∧ i' = set_iden_time cat i)
  ∧ (∀ j, j ∈ identifications s →
       ∃ i', i' ∈ identifications s' ∧ same_group i' j)
  ∧ (∀ i1 i2, i1 ∈ identifications s' → i2 ∈ identifications s' →
       same_group i1 i2 → i1 = i2).
Proof.
  intros Hnd Hrun.
  destruct (keep_one_survivors strptime fmt1 fmt2 keep_index s s' Hnd Hrun)
    as [Hpick Hsurv].
  destruct (keep_one_inv strptime fmt1 fmt2 keep_index s s' Hrun)
    as (Hp & _ & keep & -> & _).
  cbn [observations taxa replace_identifications].
  split; [done|]. split; [done|]. split_and!.
  - intros i' (i & Hi & -> & _)%Hsurv.
    destruct (stamp_parse strptime fmt1 fmt2 i (Hp i Hi)) as [cat Hcat].
    exists i, cat. split_and!; [done..|].
    by apply (parse_stamp strptime fmt1 fmt2).
  - intros j Hj. destruct (Hpick j Hj) as (i0 & Hi0 & Hsame & Hw).
    exists (stamp_total strptime fmt1 fmt2 i0). split.
    + apply Hsurv. exists i0. split_and!; [done..|].
      by rewrite (group_of_same i0 j).
    + by apply (proj2 (same_group_stamp_l strptime fmt1 fmt2 _ _)).
  - intros i1 i2 (a & Ha & -> & Hwa)%Hsurv (b & Hb & -> & Hwb)%Hsurv Hsame.
    apply (proj1 (same_group_stamp_l strptime fmt1 fmt2 _ _)), same_group_sym,
      (proj1 (same_group_stamp_l strptime fmt1 fmt2 _ _)), same_group_sym
      in Hsame.
    rewrite (group_of_same a b) in Hwa by done. congruence.
Qed.

Lemma keep_one_selects_one_per_group_witness :
  ∃ s', keep_one_identification_per_user_per_observation Examples.strptime
          Pipeline.first_format Pipeline.second_format 1
          Cases.three_by_one_user = Done s'
        ∧ identifications s'
          = [set_iden_time 200%Z (Examples.identification 3 1 7 10 "200" true)]
        ∧ (∀ i1 i2, i1 ∈ identifications s' → i2 ∈ identifications s' →
             same_group i1 i2 → i1 = i2).
Proof.
  destruct (keep_one_identification_per_user_per_observation
              Examples.strptime Pipeline.first_format Pipeline.second_format
              1 Cases.three_by_one_user)
    as [s'|e] eqn:Hrun; [|vm_compute in Hrun; discriminate].
  destruct (keep_one_selects_one_per_group Examples.strptime
              Pipeline.first_format Pipeline.second_format 1
              Cases.three_by_one_user s') as (_ & _ & _ & _ & Hone).
  - simpl. repeat constructor; set_solver.
  - done.
  - exists s'. split; [done|]. split; [|done].
    vm_compute in Hrun. by injection Hrun as <-.
Defined.

(** ** The last identification of every group, and the failures *)

Lemma py_index_last {A : Type} (l : list A) :
  py_index l (-1) = match last l with
                    | Some x => Done x
                    | None => Raise IndexError
                    end.
Proof.
  unfold py_index. cbv zeta.
  destruct (decide (0 ≤ -1)%Z) as [|_]; [lia|].
  rewrite last_lookup. destruct l as [|x l]; [done|].
  destruct (decide (0 ≤ Z.of_nat (length (x :: l)) + -1)%Z) as [_|Hneg].
  - replace (Z.to_nat (Z.of_nat (length (x :: l)) + -1))
      with (pred (length (x :: l))) by (simpl length; lia).
    by destruct (_ !! _).
  - simpl length in Hneg. lia.
Qed.

Lemma py_index_Raise {A : Type} (l : list A) (i : Z) :
  ¬ (- Z.of_nat (length l) ≤ i < Z.of_nat (length l))%Z →
  py_index l i = Raise IndexError.
Proof.
  intros Hout. unfold py_index. destruct (decide (0 ≤ i)%Z).
  - rewrite decide_True by done.
    by rewrite lookup_ge_None_2 by lia.
  - by rewrite decide_False by lia.
Qed.

Lemma length_insert_by_time (x : Identification) (l : list Identification) :
  length (insert_by_time x l) = S (length l).
Proof.
  induction l as [|y l IH]; simpl; [done|]. case_decide; simpl; by rewrite ?IH.
Qed.

Lemma length_sort_by_time (l : list Identification) :
  length (sort_by_time l) = length l.
Proof.
  induction l as [|x l IH]; simpl; [done|].
  by rewrite length_insert_by_time, IH.
Qed.

Lemma last_insert_by_time (x : Identification) (l : list Identification) :
  (last (insert_by_time x l) = Some x
   ∧ ∀ y, y ∈ l → (time_of y < time_of x)%Z)
  ∨ (last (insert_by_time x l) = last l
     ∧ ∃ y, y ∈ l ∧ (time_of x ≤ time_of y)%Z).
Proof.
  induction l as [|z l IH]; simpl.
  { left. split; [done|]. by intros y ?%elem_of_nil. }
  case_decide as Hle.
  - right. split; [by destruct l|]. exists z. split; [by left|done].
  - destruct IH as [[Hlast Hall]|[Hlast (y & Hy & Hxy)]].
    + left. split.
      * pose proof (length_insert_by_time x l) as Hlen.
        destruct (insert_by_time x l) as [|a l'] eqn:Hins; [done|].
        by rewrite last_cons_cons.
      * intros y [->|Hy]%elem_of_cons; [lia|by apply Hall].
    + right. split.
      * pose proof (length_insert_by_time x l) as Hlen.
        destruct (insert_by_time x l) as [|a l'] eqn:Hins; [done|].
        rewrite last_cons_cons, Hlast.
        destruct l; [by apply elem_of_nil in Hy|done].
      * exists y. split; [by right|done].
Qed.

(** The last element of the sorted list is a latest element. *)
Lemma last_sort_by_time (l : list Identification) (w : Identification) :
  last (sort_by_time l) = Some w →
  ∀ y, y ∈ l → (time_of y ≤ time_of w)%Z.
Proof.
  revert w. induction l as [|x l IH]; intros w; simpl.
  { by intros _ y ?%elem_of_nil. }
  destruct (last_insert_by_time x (sort_by_time l))
    as [[-> Hall]|[-> (z & Hz & Hxz)]].
  - intros [= <-] y [->|Hy]%elem_of_cons; [lia|].
    apply Z.lt_le_incl, Hall. by apply elem_of_sort_by_time.
  - intros Hw y [->|Hy]%elem_of_cons; [|by apply IH].
    rewrite elem_of_sort_by_time in Hz. specialize (IH w Hw z Hz). lia.
Qed.

Lemma mapM_result_Raise {A B : Type} (e : exn) (f : A → result B)
    (l : list A) (x : A) :
  (∀ y, y ∈ l → (∃ b, f y = Done b) ∨ f y = Raise e) →
  x ∈ l → f x = Raise e →
  mapM_result f l = Raise e.
Proof.
  induction l as [|y l IH]; intros Hstep Hx Hraise.
  { by apply elem_of_nil in Hx. }
  simpl. apply elem_of_cons in Hx as [->|Hx]; [by rewrite Hraise|].
  destruct (Hstep y) as [[b ->]| ->]; [by left| |done].
  simpl. rewrite IH; [done| |done..]. intros z Hz. apply Hstep. by right.
Qed.

Lemma mapM_result_outcome {A B : Type} (e : exn) (f : A → result B)
    (l : list A) :
  (∀ y, y ∈ l → (∃ b, f y = Done b) ∨ f y = Raise e) →
  (∃ bs, mapM_result f l = Done bs) ∨ mapM_result f l = Raise e.
Proof.
  induction l as [|y l IH]; intros Hstep; simpl; [eauto|].
  destruct (Hstep y) as [[b ->]| ->]; [by left| |by right]. simpl.
  destruct IH as [[bs ->]| ->]; [|simpl; eauto|by right].
  intros z Hz. apply Hstep. by right.
Qed.

Lemma py_index_nonempty {A : Type} (l : list A) (i : Z) :
  l ≠ [] → i = 0%Z ∨ i = (-1)%Z → ∃ x, py_index l i = Done x.
Proof.
  intros Hne [-> | ->].
  - rewrite py_index_0. destruct l; [done|]. simpl. eauto.
  - rewrite py_index_last. destruct (last l) eqn:Hlast; [eauto|].
    by apply last_None in Hlast.
Qed.

Section keep_fails.
Variable strptime : string → string → option Z.
Variables fmt1 fmt2 : string.
Variable keep_index : Z.

(** Every entry of the per-user table of an observation is the group of one
    of the identifications. *)
Lemma user_groups_in (idens : list Identification) (k : pyid)
    (y : pyid * list Identification) :
  y ∈ od_table (first_occurrences
                  (iden_user_id <$> idens_of_observation k idens))
        (λ u, idens_of_user u (idens_of_observation k idens)) →
  ∃ j, j ∈ idens ∧ y = (iden_user_id j, group_of j idens).
Proof.
  intros (u & -> & Hu)%list_elem_of_fmap.
  apply elem_of_first_occurrences, list_elem_of_fmap in Hu as (j & -> & Hj).
  apply list_elem_of_filter in Hj as [<- Hj].
  by exists j.
Qed.

(** The two nested loops end with the exception [e] when every group either
    gives its pick or raises [e], and the group of [j] raises [e]. *)
Lemma pick_all_Raise (e : exn) (obs : list Observation)
    (idens : list Identification) (j : Identification) :
  (∀ i, i ∈ idens →
     (∃ Y, winner_set strptime fmt1 fmt2 keep_index
             (iden_user_id i, group_of i idens) = Done Y)
     ∨ winner_set strptime fmt1 fmt2 keep_index
         (iden_user_id i, group_of i idens) = Raise e) →
  j ∈ idens → iden_observation_id j ∈ ob_id <$> obs →
  winner_set strptime fmt1 fmt2 keep_index
    (iden_user_id j, group_of j idens) = Raise e →
  foldlM (pick_for_observation strptime fmt1 fmt2 keep_index) ∅
         (od_table (first_occurrences (ob_id <$> obs))
                   (λ k, idens_of_observation k idens)) = Raise e.
Proof.
  intros Hstep Hj Hob Hbad.
  rewrite (foldlM_union
             (winners_of_observation strptime fmt1 fmt2 keep_index))
    by apply pick_for_observation_union.
  rewrite (mapM_result_Raise e _ _
             (iden_observation_id j,
              idens_of_observation (iden_observation_id j) idens));
    [done| | |].
  - intros y (k & -> & Hk)%list_elem_of_fmap.
    unfold winners_of_observation. simpl. rewrite group_by_user_table.
    destruct (mapM_result_outcome e
                (winner_set strptime fmt1 fmt2 keep_index)
                (od_table (first_occurrences
                             (iden_user_id <$> idens_of_observation k idens))
                   (λ u, idens_of_user u (idens_of_observation k idens))))
      as [[Ys ->]| ->]; [|simpl; eauto|by right].
    intros y (i & Hi & ->)%user_groups_in. by apply Hstep.
  - unfold od_table.
    apply list_elem_of_fmap_2' with (iden_observation_id j); [|done].
    by apply elem_of_first_occurrences.
  - unfold winners_of_observation. simpl. rewrite group_by_user_table.
    rewrite (mapM_result_Raise e _ _ (iden_user_id j, group_of j idens));
      [done| | |done].
    + intros y (i & Hi & ->)%user_groups_in. by apply Hstep.
    + unfold od_table, group_of.
      apply list_elem_of_fmap_2' with (iden_user_id j); [|done].
      apply elem_of_first_occurrences, list_elem_of_fmap_2.
      by apply list_elem_of_filter.
Qed.

Lemma pick_all_total (obs : list Observation) (idens : list Identification) :
  (∀ i, i ∈ idens →
     ∃ Y, winner_set strptime fmt1 fmt2 keep_index
            (iden_user_id i, group_of i idens) = Done Y) →
  ∃ keep,
    foldlM (pick_for_observation strptime fmt1 fmt2 keep_index) ∅
           (od_table (first_occurrences (ob_id <$> obs))
                     (λ k, idens_of_observation k idens)) = Done keep.
Proof.
  intros Hstep.
  rewrite (foldlM_union
             (winners_of_observation strptime fmt1 fmt2 keep_index))
    by apply pick_for_observation_union.
  destruct (mapM_result_total
              (winners_of_observation strptime fmt1 fmt2 keep_index)
              (od_table (first_occurrences (ob_id <$> obs))
                        (λ k, idens_of_observation k idens))) as [Zs ->];
    [|simpl; eauto].
  intros y (k & -> & Hk)%list_elem_of_fmap.
  unfold winners_of_observation. simpl. rewrite group_by_user_table.
  destruct (mapM_result_total (winner_set strptime fmt1 fmt2 keep_index)
              (od_table (first_occurrences
                           (iden_user_id <$> idens_of_observation k idens))
                 (λ u, idens_of_user u (idens_of_observation k idens))))
    as [Ys ->]; [|simpl; eauto].
  intros y (i & Hi & ->)%user_groups_in. by apply Hstep.
Qed.

End keep_fails.

Lemma py_index_in_range {A : Type} (l : list A) (i : Z) :
  (- Z.of_nat (length l) ≤ i < Z.of_nat (length l))%Z →
  ∃ x, py_index l i = Done x.
Proof.
  intros Hin. unfold py_index. cbv zeta.
  destruct (decide (0 ≤ i)%Z).
  - rewrite decide_True by done.
    destruct (lookup_lt_is_Some_2 l (Z.to_nat i)) as [x ->]; [lia|eauto].
  - rewrite decide_True by lia.
    destruct (lookup_lt_is_Some_2 l (Z.to_nat (Z.of_nat (length l) + i)))
      as [x ->]; [lia|eauto].
Qed.

Lemma group_by_observation_resolved (obs : list Observation)
    (idens : list Identification) :
  (∀ iden, iden ∈ idens → iden_observation_id iden ∈ ob_id <$> obs) →
  group_by_observation obs idens
  = Done (od_table (first_occurrences (ob_id <$> obs))
                   (λ k, idens_of_observation k idens)).
Proof.
  intros Hres. rewrite group_by_observation_spec.
  rewrite decide_True; [done|]. apply Forall_forall. intros iden Hin.
  apply elem_of_first_occurrences. by apply Hres.
Qed.

Section keep_outcomes.
Variable strptime : string → string → option Z.
Variables fmt1 fmt2 : string.

#[local] Abbreviation sto := (stamp_total strptime fmt1 fmt2).
#[local] Abbreviation parses' iden :=
  (∃ cat, parse_created_at strptime fmt1 fmt2 (iden_created_at iden)
          = Done cat).

Lemma parses_stamp (iden : Identification) :
  parses' iden → stamp strptime fmt1 fmt2 iden = Done (sto iden).
Proof. intros [cat Hcat]. by apply (parse_stamp strptime fmt1 fmt2 _ cat). Qed.

Lemma stamp_outcome (iden : Identification) :
  (∃ iden', stamp strptime fmt1 fmt2 iden = Done iden')
  ∨ stamp strptime fmt1 fmt2 iden = Raise ValueError.
Proof.
  unfold stamp, parse_created_at.
  destruct (strptime _ fmt1); simpl; [eauto|].
  destruct (strptime _ fmt2); simpl; eauto.
Qed.

Lemma length_sorted_stamped (l : list Identification) :
  length (sort_by_time (sto <$> l)) = length l.
Proof. by rewrite length_sort_by_time, length_fmap. Qed.

Lemma group_of_self (j : Identification) (idens : list Identification) :
  j ∈ idens → j ∈ group_of j idens.
Proof. intros Hj. apply group_of_elem. by split. Qed.

Lemma group_of_subseteq (j : Identification) (idens : list Identification) :
  group_of j idens ⊆ idens.
Proof. intros x Hx. by apply group_of_elem in Hx as [? _]. Qed.

Lemma winner_set_group (keep_index : Z) (idens : list Identification)
    (j : Identification) :
  (∀ iden, iden ∈ idens → parses' iden) →
  winner_set strptime fmt1 fmt2 keep_index (iden_user_id j, group_of j idens)
  = w ← py_index (sort_by_time (sto <$> group_of j idens)) keep_index;
    Done {[iden_id w]}.
Proof.
  intros Hp. apply winner_set_parsed. intros iden Hin.
  by apply parses_stamp, Hp, (group_of_subseteq j).
Qed.

Context {T : Type}.
Implicit Types s : Store T.

(** The operation completes as soon as every identification parses and
    resolves and every user group gives a pick. *)
Lemma keep_one_completes (keep_index : Z) s :
  (∀ iden, iden ∈ identifications s → parses' iden) →
  (∀ iden, iden ∈ identifications s →
     iden_observation_id iden ∈ ob_id <$> observations s) →
  (∀ i, i ∈ identifications s →
     ∃ Y, winner_set strptime fmt1 fmt2 keep_index
            (iden_user_id i, group_of i (identifications s)) = Done Y) →
  ∃ s', keep_one_identification_per_user_per_observation strptime fmt1 fmt2
          keep_index s = Done s'.
Proof.
  intros Hp Hres Hstep.
  destruct (pick_all_total strptime fmt1 fmt2 keep_index (observations s)
              (identifications s) Hstep) as [keep Hkeep].
  eexists. apply keep_one_Done. eexists _, keep, _. split_and!; [|done| |done].
  - by apply group_by_observation_resolved.
  - apply (mapM_result_Done _ sto), Forall_forall. intros iden Hin.
    by apply parses_stamp, Hp.
Qed.

(** The operation raises [e] when every identification resolves, every user
    group gives its pick or raises [e], and the group of [j] raises [e]. *)
Lemma keep_one_Raise (keep_index : Z) (e : exn) s (j : Identification) :
  (∀ iden, iden ∈ identifications s →
     iden_observation_id iden ∈ ob_id <$> observations s) →
  (∀ i, i ∈ identifications s →
     (∃ Y, winner_set strptime fmt1 fmt2 keep_index
             (iden_user_id i, group_of i (identifications s)) = Done Y)
     ∨ winner_set strptime fmt1 fmt2 keep_index
         (iden_user_id i, group_of i (identifications s)) = Raise e) →
  j ∈ identifications s →
  winner_set strptime fmt1 fmt2 keep_index
    (iden_user_id j, group_of j (identifications s)) = Raise e →
  keep_one_identification_per_user_per_observation strptime fmt1 fmt2
    keep_index s = Raise e.
Proof.
  intros Hres Hstep Hj Hbad.
  unfold keep_one_identification_per_user_per_observation.
  rewrite group_by_observation_resolved by done. simpl.
  rewrite (pick_all_Raise strptime fmt1 fmt2 keep_index e _ _ j); auto.
Qed.

End keep_outcomes.

(** X23: [keep_one_identification_per_user_per_observation] with
    [keep_index = -1], on a store with distinct identification ids.  When
    every [created_at] parses under one of the two formats and every
    identification belongs to an observation of the store, the operation
    completes.  When it completes, the time of the record kept is at least
    the time of every record of its (observation, user) group, and a record
    with a strictly later record in its group is dropped. *)
Theorem keep_last_identification_per_group {T : Type}
    (strptime : string → string → option Z) (fmt1 fmt2 : string)
    (s : Store T) :
  NoDup (iden_id <$> identifications s) →
  ((∀ iden, iden ∈ identifications s →
      ∃ cat, parse_created_at strptime fmt1 fmt2 (iden_created_at iden)
             = Done cat) →
   (∀ iden, iden ∈ identifications s →
      iden_observation_id iden ∈ ob_id <$> observations s) →
   ∃ s', keep_one_identification_per_user_per_observation strptime
           fmt1 fmt2 (-1) s = Done s')
  ∧ ∀ s', keep_one_identification_per_user_per_observation strptime
            fmt1 fmt2 (-1) s = Done s' →
      (∀ i' j cat, i' ∈ identifications s' → j ∈ identifications s →
         same_group i' j →
         parse_created_at strptime fmt1 fmt2 (iden_created_at j) = Done cat →
         (cat ≤ time_of i')%Z)
      ∧ (∀ a b ta tb, a ∈ identifications s → b ∈ identifications s →
           same_group a b →
           parse_created_at strptime fmt1 fmt2 (iden_created_at a) = Done ta →
           parse_created_at strptime fmt1 fmt2 (iden_created_at b) = Done tb →
           (ta < tb)%Z → iden_id a ∉ iden_id <$> identifications s').
Proof.
  intros Hnd. split.
  - intros Hp Hres. apply keep_one_completes; [done..|].
    intros i Hi. rewrite winner_set_group by done.
    destruct (py_index_nonempty
                (sort_by_time (stamp_total strptime fmt1 fmt2
                               <$> group_of i (identifications s))) (-1))
      as [w ->]; [|by right|simpl; eauto].
    intros Hnil. apply (f_equal length) in Hnil.
    rewrite length_sorted_stamped in Hnil.
    apply group_of_self in Hi.
    destruct (group_of i (identifications s)); [|done].
    by apply elem_of_nil in Hi.
  - intros s' Hrun.
    destruct (keep_one_survivors strptime fmt1 fmt2 (-1) s s' Hnd Hrun)
      as [_ Hsurv].
    assert (∀ i j cat, i ∈ identifications s → j ∈ identifications s →
              py_index (sort_by_time (stamp_total strptime fmt1 fmt2
                                      <$> group_of i (identifications s)))
                       (-1)
              = Done (stamp_total strptime fmt1 fmt2 i) →
              same_group i j →
              parse_created_at strptime fmt1 fmt2 (iden_created_at j)
              = Done cat →
              (cat ≤ time_of (stamp_total strptime fmt1 fmt2 i))%Z) as Hlate.
    { intros i j cat Hi Hj Hw Hsame Hcat.
      rewrite py_index_last in Hw.
      destruct (last _) as [w|] eqn:Hlast; [|done]. injection Hw as ->.
      destruct (stamp_total_time strptime fmt1 fmt2 j cat Hcat) as [_ <-].
      apply (last_sort_by_time _ _ Hlast), list_elem_of_fmap_2.
      apply group_of_elem. split; [done|]. by apply same_group_sym. }
    split.
    + intros i' j cat (i & Hi & -> & Hw)%Hsurv Hj Hsame Hcat.
      apply (Hlate i j cat); [done..| |done].
      by apply (proj1 (same_group_stamp_l strptime fmt1 fmt2 _ _)).
    + intros a b ta tb Ha Hb Hsame Hta Htb Hlt
        (i' & Hid & (i & Hi & -> & Hw)%Hsurv)%list_elem_of_fmap.
      destruct (stamp_total_fields strptime fmt1 fmt2 i) as (Hidi & _).
      assert (a = i) as <-.
      { eapply (NoDup_fmap_eq iden_id (identifications s)); [done..|].
        congruence. }
      pose proof (Hlate a b tb Ha Hb Hw Hsame Htb) as Hle.
      destruct (stamp_total_time strptime fmt1 fmt2 a ta Hta) as [_ Hta'].
      lia.
Qed.

Lemma keep_last_identification_witness :
  ∃ s', keep_one_identification_per_user_per_observation Examples.strptime
          Pipeline.first_format Pipeline.second_format (-1)
          Cases.three_by_one_user = Done s'
        ∧ (IdInt 2 ∉ iden_id <$> identifications s')
        ∧ (IdInt 3 ∉ iden_id <$> identifications s').
Proof.
  assert (NoDup (iden_id <$> identifications Cases.three_by_one_user))
    as Hnd.
  { simpl. repeat constructor; set_solver. }
  destruct (keep_last_identification_per_group Examples.strptime
              Pipeline.first_format Pipeline.second_format
              Cases.three_by_one_user Hnd) as [Hdone Hspec].
  destruct Hdone as [s' Hrun].
  - intros iden Hin. simpl in Hin.
    repeat (apply elem_of_cons in Hin as [->|Hin]);
      [by eexists..|by apply elem_of_nil in Hin].
  - intros iden Hin. simpl in *. set_solver.
  - destruct (Hspec s' Hrun) as [_ Hdrop]. exists s'. split; [done|]. split.
    + apply (Hdrop (Examples.identification 2 1 7 10 "100" true)
                   (Examples.identification 1 1 7 10 "300" true) 100%Z 300%Z);
        [simpl; set_solver | simpl; set_solver | done | done | done | lia].
    + apply (Hdrop (Examples.identification 3 1 7 10 "200" true)
                   (Examples.identification 1 1 7 10 "300" true) 200%Z 300%Z);
        [simpl; set_solver | simpl; set_solver | done | done | done | lia].
Defined.

(** X24: [keep_index] is used as a Python list index on every
    (observation, user) group.  On a store whose identifications all parse
    and all belong to an observation of the store, the operation completes
    when [keep_index] is a valid index of every group, and it raises
    [IndexError] when it is not a valid index of some group: with
    [keep_index = 1] a single user with one identification of an observation
    is enough. *)
Theorem keep_one_index_range {T : Type}
    (strptime : string → string → option Z) (fmt1 fmt2 : string)
    (keep_index : Z) (s : Store T) :
  (∀ iden, iden ∈ identifications s →
     ∃ cat, parse_created_at strptime fmt1 fmt2 (iden_created_at iden)
            = Done cat) →
  (∀ iden, iden ∈ identifications s →
     iden_observation_id iden ∈ ob_id <$> observations s) →
  let valid (j : Identification) :=
    (- Z.of_nat (length (group_of j (identifications s))) ≤ keep_index
     < Z.of_nat (length (group_of j (identifications s))))%Z in
  ((∀ j, j ∈ identifications s → valid j) →
   ∃ s', keep_one_identification_per_user_per_observation strptime
           fmt1 fmt2 keep_index s = Done s')
  ∧ (∀ j, j ∈ identifications s → ¬ valid j →
       keep_one_identification_per_user_per_observation strptime
         fmt1 fmt2 keep_index s = Raise IndexError).
Proof.
  intros Hp Hres valid. split.
  - intros Hvalid. apply keep_one_completes; [done..|].
    intros i Hi. rewrite winner_set_group by done.
    destruct (py_index_in_range
                (sort_by_time (stamp_total strptime fmt1 fmt2
                               <$> group_of i (identifications s)))
                keep_index) as [w ->]; [|simpl; eauto].
    rewrite length_sorted_stamped. by apply Hvalid.
  - intros j Hj Hout.
    apply (keep_one_Raise strptime fmt1 fmt2 keep_index IndexError s j);
      [done| |done|].
    + intros i Hi. rewrite winner_set_group by done.
      destruct (py_index_outcome
                  (sort_by_time (stamp_total strptime fmt1 fmt2
                                 <$> group_of i (identifications s)))
                  keep_index) as [[w ->]| ->]; simpl; eauto.
    + rewrite winner_set_group by done.
      rewrite py_index_Raise; [done|]. by rewrite length_sorted_stamped.
Qed.

Lemma keep_one_index_range_witness :
  (∃ s', keep_one_identification_per_user_per_observation Examples.strptime
           Pipeline.first_format Pipeline.second_format (-3)
           Cases.three_by_one_user = Done s')
  ∧ keep_one_identification_per_user_per_observation Examples.strptime
      Pipeline.first_format Pipeline.second_format 3
      Cases.three_by_one_user = Raise IndexError
  ∧ keep_one_identification_per_user_per_observation Examples.strptime
      Pipeline.first_format Pipeline.second_format 1
      Examples.small = Raise IndexError.
Proof.
  assert (∀ iden, iden ∈ identifications Cases.three_by_one_user →
            ∃ cat, parse_created_at Examples.strptime Pipeline.first_format
                     Pipeline.second_format (iden_created_at iden)
                   = Done cat) as Hp.
  { intros iden Hin. simpl in Hin.
    repeat (apply elem_of_cons in Hin as [->|Hin]);
      [by eexists..|by apply elem_of_nil in Hin]. }
  assert (∀ iden, iden ∈ identifications Cases.three_by_one_user →
            iden_observation_id iden
            ∈ ob_id <$> observations Cases.three_by_one_user) as Hres.
  { intros iden Hin. simpl in *. set_solver. }
  assert (∀ iden, iden ∈ identifications Examples.small →
            ∃ cat, parse_created_at Examples.strptime Pipeline.first_format
                     Pipeline.second_format (iden_created_at iden)
                   = Done cat) as Hp'.
  { intros iden Hin. simpl in Hin.
    repeat (apply elem_of_cons in Hin as [->|Hin]);
      [by eexists..|by apply elem_of_nil in Hin]. }
  assert (∀ iden, iden ∈ identifications Examples.small →
            iden_observation_id iden
            ∈ ob_id <$> observations Examples.small) as Hres'.
  { intros iden Hin. simpl in *. set_solver. }
  pose proof (keep_one_index_range Examples.strptime Pipeline.first_format
                Pipeline.second_format (-3) Cases.three_by_one_user Hp Hres)
    as [Hdone _].
  pose proof (keep_one_index_range Examples.strptime Pipeline.first_format
                Pipeline.second_format 3 Cases.three_by_one_user Hp Hres)
    as [_ Hraise].
  pose proof (keep_one_index_range Examples.strptime Pipeline.first_format
                Pipeline.second_format 1 Examples.small Hp' Hres')
    as [_ Hraise'].
  split_and!.
  - apply Hdone. intros j Hj. simpl in Hj.
    repeat (apply elem_of_cons in Hj as [->|Hj]);
      [by vm_compute..|by apply elem_of_nil in Hj].
  - apply (Hraise (Examples.identification 1 1 7 10 "300" true)).
    + simpl. set_solver.
    + vm_compute. intros [_ Hlt]. discriminate.
  - apply (Hraise' (Examples.identification 1 1 1 10 "100" true)).
    + simpl. set_solver.
    + vm_compute. intros [_ Hlt]. discriminate.
Defined.

Lemma winner_set_outcome (strptime : string → string → option Z)
    (fmt1 fmt2 : string) (keep_index : Z) (u : pyid)
    (l : list Identification) :
  l ≠ [] → keep_index = 0%Z ∨ keep_index = (-1)%Z →
  (∃ Y, winner_set strptime fmt1 fmt2 keep_index (u, l) = Done Y)
  ∨ winner_set strptime fmt1 fmt2 keep_index (u, l) = Raise ValueError.
Proof.
  intros Hne Hk. unfold winner_set. simpl.
  destruct (mapM_result_outcome ValueError (stamp strptime fmt1 fmt2) l)
    as [[stamped Hst]|Hst].
  { intros y _. apply stamp_outcome. }
  - rewrite Hst. simpl. left.
    destruct (py_index_nonempty (sort_by_time stamped) keep_index)
      as [w ->]; [|done|simpl; eauto].
    intros Hnil. apply (f_equal length) in Hnil.
    rewrite length_sort_by_time in Hnil.
    apply mapM_result_inv, Forall2_length in Hst.
    destruct l; [done|]. simpl in *. congruence.
  - right. by rewrite Hst.
Qed.

(** X25: with [keep_index] 0 or -1, on a store whose identifications
    all belong to an observation of the store, one identification whose
    [created_at] parses under neither format makes
    [keep_one_identification_per_user_per_observation] raise the
    [ValueError] of the second [strptime]: the [except] branch has no
    handler of its own. *)
Theorem keep_one_raises_ValueError {T : Type}
    (strptime : string → string → option Z) (fmt1 fmt2 : string)
    (keep_index : Z) (s : Store T) (j : Identification) :
  keep_index = 0%Z ∨ keep_index = (-1)%Z →
  (∀ iden, iden ∈ identifications s →
     iden_observation_id iden ∈ ob_id <$> observations s) →
  j ∈ identifications s →
  strptime (iden_created_at j) fmt1 = None →
  strptime (iden_created_at j) fmt2 = None →
  keep_one_identification_per_user_per_observation strptime fmt1 fmt2
    keep_index s = Raise ValueError.
Proof.
  intros Hk Hres Hj H1 H2.
  apply (keep_one_Raise strptime fmt1 fmt2 keep_index ValueError s j);
    [done| |done|].
  - intros i Hi. apply winner_set_outcome; [|done].
    apply group_of_self in Hi. intros Hnil. rewrite Hnil in Hi.
    by apply elem_of_nil in Hi.
  - unfold winner_set. simpl.
    rewrite (mapM_result_Raise ValueError _ _ j); [done| | |].
    + intros y _. apply stamp_outcome.
    + by apply group_of_self.
    + unfold stamp, parse_created_at. by rewrite H1, H2.
Qed.

Lemma keep_one_raises_ValueError_witness :
  keep_one_identification_per_user_per_observation Examples.strptime
    Pipeline.first_format Pipeline.second_format 0
    Cases.unparsed_created_at = Raise ValueError.
Proof.
  apply (keep_one_raises_ValueError Examples.strptime Pipeline.first_format
           Pipeline.second_format 0 Cases.unparsed_created_at
           (Examples.identification 2 1 8 10 "yesterday" true)).
  - by left.
  - intros iden Hin. simpl in *. set_solver.
  - simpl. set_solver.
  - by vm_compute.
  - by vm_compute.
Defined.

(** ** The last steps of [main] *)

Lemma replace_observations_indexed {T : Type} (obs : list Observation)
    (s : Store T) (iden : Identification) :
  iden ∈ identifications (replace_observations obs s) →
  is_Some (ob_id_to_ob (replace_observations obs s)
           !! iden_observation_id iden)
  ∧ iden_observation_id iden ∈ ob_id <$> obs.
Proof.
  cbn [identifications ob_id_to_ob replace_observations].
  intros [Hob _]%list_elem_of_filter. split; [done|].
  by apply index_by_is_Some.
Qed.

Lemma replace_observations_idens_of {T : Type} (obs : list Observation)
    (s : Store T) (ob : Observation) :
  ob ∈ obs →
  idens_of_observation (ob_id ob)
    (identifications (replace_observations obs s))
  = idens_of_observation (ob_id ob) (identifications s).
Proof.
  intros Hob. cbn [identifications replace_observations].
  unfold idens_of_observation. apply filter_filter_impl.
  intros iden _ ->. apply index_by_is_Some. by apply list_elem_of_fmap_2.
Qed.

(** Priors estimated on a store whose identifications resolve and whose
    observations have photos give a dataset of that store. *)
Lemma estimate_then_create (s : Store Old.Taxon) :
  (∀ iden, iden ∈ identifications s →
     is_Some (ob_id_to_ob s !! iden_observation_id iden)) →
  (∀ ob, ob ∈ observations s →
     ob_id ob ∈ photo_observation_id <$> observation_photos s) →
  ∃ priors d,
    Old.estimate_taxa_priors None s = Done priors
    ∧ Old.create_dataset priors s = Done d
    ∧ length (Old.annos d) = length (identifications s).
Proof.
  intros Hres Hphotos.
  destruct (estimate_taxa_priors_cases None s)
    as [(ks & Hnd & Hks & _ & Hrun)|[_ (iden & Hin & Hnone)]].
  - destruct (create_dataset_value
                (od_table ks
                   (λ k, py_float_of_int (smoothed_count s k)
                         / py_float_of_int (sum_Z (smoothed_count s <$> ks)))%float) s)
      as (images & Hd & _); [done| |].
    + intros iden Hin. rewrite od_keys_table. apply Hks.
      unfold working_set. by apply elem_of_list_to_set, list_elem_of_fmap_2.
    + eexists _, _. split; [done|]. split; [done|]. simpl.
      by rewrite length_fmap.
  - destruct (Hres iden Hin) as [ob Hob]. congruence.
Qed.

(** X26: the last steps of every dataset that [main] builds cannot fail.
    On any store, [remove_obs_with_no_photos], then
    [enforce_min_identifications], then [enforce_max_observations] with no
    bound or a bound that is not negative, then [estimate_taxa_priors()] and
    [create_dataset] all complete: there is no [KeyError], no [IndexError]
    and no [AssertionError] left to raise.  Every observation of the result
    has a photo and at least [min_identifications] identifications, and the
    dataset has one annotation per identification. *)
Theorem dataset_tail_completes (random_sample : list pyid → nat → list pyid)
    (min_identifications : Z) (max_observations : option Z)
    (s : Store Old.Taxon) :
  match max_observations with
  | Some m => (0 ≤ m)%Z
  | None => True
  end →
  ∃ s2 s3 priors d,
    enforce_min_identifications min_identifications
      (Old.remove_obs_with_no_photos s) = Done s2
    ∧ enforce_max_observations random_sample max_observations s2 = Done s3
    ∧ Old.estimate_taxa_priors None s3 = Done priors
    ∧ Old.create_dataset priors s3 = Done d
    ∧ (∀ ob, ob ∈ observations s3 →
         ob ∈ observations s
         ∧ ob_id ob ∈ photo_observation_id <$> observation_photos s3
         ∧ (min_identifications
            ≤ Z.of_nat (length (idens_of_observation (ob_id ob)
                                  (identifications s3))))%Z)
    ∧ length (Old.annos d) = length (identifications s3).
Proof.
  intros Hmax.
  set (s1 := Old.remove_obs_with_no_photos s).
  set (obs2 := filter (λ ob, (min_identifications
                              ≤ Z.of_nat (length (idens_of_observation
                                   (ob_id ob) (identifications s1))))%Z)
                      (observations s1)).
  set (s2 := replace_observations obs2 s1).
  assert (enforce_min_identifications min_identifications s1 = Done s2)
    as Hmin.
  { apply enforce_min_identifications_Done. split; [|done].
    intros iden Hin. by apply replace_observations_indexed in Hin as [_ ?]. }
  assert (∀ ob, ob ∈ obs2 →
            ob ∈ observations s
            ∧ ob_id ob ∈ photo_observation_id <$> observation_photos s
            ∧ (min_identifications
               ≤ Z.of_nat (length (idens_of_observation (ob_id ob)
                                     (identifications s2))))%Z) as Hobs2.
  { intros ob Hob. unfold s2. rewrite replace_observations_idens_of by done.
    apply list_elem_of_filter in Hob as [Hn Hob].
    unfold s1, Old.remove_obs_with_no_photos in Hob.
    cbn [observations replace_observations] in Hob.
    apply list_elem_of_filter in Hob as [Hphoto Hob].
    by rewrite elem_of_list_to_set in Hphoto. }
  assert (observation_photos s2 = observation_photos s) as Hphotos2 by done.
  assert (∃ s3, enforce_max_observations random_sample max_observations s2
                = Done s3
            ∧ observation_photos s3 = observation_photos s
            ∧ (∀ iden, iden ∈ identifications s3 →
                 is_Some (ob_id_to_ob s3 !! iden_observation_id iden))
            ∧ (∀ ob, ob ∈ observations s3 →
                 ob ∈ obs2
                 ∧ idens_of_observation (ob_id ob) (identifications s3)
                   = idens_of_observation (ob_id ob) (identifications s2)))
    as (s3 & Hrun3 & Hphotos3 & Hres3 & Hobs3).
  { assert (∀ iden, iden ∈ identifications s2 →
              is_Some (ob_id_to_ob s2 !! iden_observation_id iden)) as Hres2.
    { intros iden Hin.
      by apply replace_observations_indexed in Hin as [? _]. }
    unfold enforce_max_observations.
    destruct max_observations as [m|]; [|by exists s2].
    destruct (decide (Z.of_nat (length (observations s2)) ≤ m)%Z);
      [by exists s2|].
    rewrite decide_False by lia.
    eexists. split; [done|]. split; [done|]. split.
    - intros iden Hin.
      by apply replace_observations_indexed in Hin as [? _].
    - intros ob Hob. split.
      + cbn [observations replace_observations] in Hob.
        by apply list_elem_of_filter in Hob as [_ ?].
      + by apply replace_observations_idens_of. }
  destruct (estimate_then_create s3) as (priors & d & Hpriors & Hd & Hlen).
  { done. }
  { intros ob [Hob _]%Hobs3. rewrite Hphotos3. by apply Hobs2. }
  exists s2, s3, priors, d. split_and!; [done..| |done].
  intros ob [Hob Heq]%Hobs3. rewrite Heq, Hphotos3. by apply Hobs2.
Qed.

Lemma dataset_tail_completes_witness :
  ∃ s2 s3 priors d,
    enforce_min_identifications 2
      (Old.remove_obs_with_no_photos Cases.three_observations) = Done s2
    ∧ enforce_max_observations Examples.random_sample (Some 1%Z) s2 = Done s3
    ∧ Old.estimate_taxa_priors None s3 = Done priors
    ∧ Old.create_dataset priors s3 = Done d
    ∧ length (Old.annos d) = length (identifications s3).
Proof.
  destruct (dataset_tail_completes Examples.random_sample 2 (Some 1%Z)
              Cases.three_observations)
    as (s2 & s3 & priors & d & H2 & H3 & Hp & Hd & _ & Hlen).
  - simpl. lia.
  - by exists s2, s3, priors, d.
Defined.

Lemma elem_of_non_active_ids (txs : list Old.Taxon) (k : pyid) :
  k ∈ (list_to_set
         (Old.taxon_id
          <$> filter (λ taxon, negb (py_eqb (Old.is_active taxon)
                                            (VBool true))) txs) : gset pyid)
  ↔ ∃ taxon, taxon ∈ txs ∧ Old.taxon_id taxon = k
             ∧ py_eqb (Old.is_active taxon) (VBool true) = false.
Proof.
  rewrite elem_of_list_to_set, list_elem_of_fmap. split.
  - intros (taxon & -> & [Hna Hin]%list_elem_of_filter).
    exists taxon. split_and!; [done..|].
    by destruct (py_eqb _ _).
  - intros (taxon & Hin & <- & Hna). exists taxon. split; [done|].
    apply list_elem_of_filter. by rewrite Hna.
Qed.

(** X27: [remove_non_active_taxa] works on ids.  It leaves no taxon
    whose [is_active] is not [True], it also removes an active taxon that
    shares its id with a non-active one, and it removes the identifications
    of the removed ids only: an identification of an unknown taxon stays.  On
    a store whose taxa are all active, as [main] passes them, it changes
    neither the taxa nor the identifications. *)
Theorem remove_non_active_taxa_post (s : Store Old.Taxon) :
  let active (taxon : Old.Taxon) :=
    py_eqb (Old.is_active taxon) (VBool true) = true in
  let non_active_id (k : pyid) :=
    ∃ taxon, taxon ∈ taxa s ∧ Old.taxon_id taxon = k
             ∧ py_eqb (Old.is_active taxon) (VBool true) = false in
  let s' := Old.remove_non_active_taxa s in
  (∀ taxon, taxon ∈ taxa s'
     ↔ taxon ∈ taxa s ∧ ¬ non_active_id (Old.taxon_id taxon))
  ∧ (∀ taxon, taxon ∈ taxa s' → active taxon)
  ∧ (∀ iden, iden ∈ identifications s'
       ↔ iden ∈ identifications s ∧ ¬ non_active_id (iden_taxon_id iden))
  ∧ observations s' = observations s
  ∧ (Forall active (taxa s) →
     taxa s' = taxa s ∧ identifications s' = identifications s).
Proof.
  intros active non_active_id s'. subst s'.
  unfold Old.remove_non_active_taxa, Old.replace_taxa.
  cbn [taxa identifications observations].
  assert (∀ taxon, taxon ∈ filter
            (λ taxon, Old.taxon_id taxon
                      ∉ (list_to_set
                           (Old.taxon_id
                            <$> filter (λ taxon,
                                          negb (py_eqb (Old.is_active taxon)
                                                       (VBool true)))
                                       (taxa s)) : gset pyid)) (taxa s)
            ↔ taxon ∈ taxa s ∧ ¬ non_active_id (Old.taxon_id taxon)) as Htaxa.
  { intros taxon. rewrite list_elem_of_filter, elem_of_non_active_ids.
    tauto. }
  split_and!.
  - done.
  - intros taxon [Hin Hnot]%Htaxa. unfold active.
    destruct (py_eqb (Old.is_active taxon) (VBool true)) eqn:Hact; [done|].
    destruct Hnot. by exists taxon.
  - intros iden. rewrite list_elem_of_filter, elem_of_non_active_ids. tauto.
  - done.
  - intros Hall. rewrite Forall_forall in Hall.
    assert (∀ k, ¬ non_active_id k) as Hnone.
    { intros k (taxon & Hin & _ & Hna). specialize (Hall taxon Hin).
      unfold active in Hall. congruence. }
    split; apply filter_all, Forall_forall; intros x _;
      rewrite elem_of_non_active_ids; apply Hnone.
Qed.

Lemma remove_non_active_taxa_post_witness :
  taxa (Old.remove_non_active_taxa Cases.inactive_duplicate)
  = [Cases.float_taxon 6 None 10]
  ∧ iden_taxon_id
    <$> identifications (Old.remove_non_active_taxa Cases.inactive_duplicate)
    = [IdInt 6; IdInt 99]
  ∧ py_eqb (Old.is_active (Cases.float_taxon 6 None 10)) (VBool true) = true.
Proof.
  pose proof (remove_non_active_taxa_post Cases.inactive_duplicate) as H.
  cbv zeta in H. destruct H as (_ & Hactive & _).
  split; [done|]. split; [done|].
  apply Hactive. by left.
Defined.
